(** * dialogue_observe: a shallow embedding of [base.py]

    [base.py] has two classes.  [ModelClient] wraps one chat-completion
    model with a bounded conversation history; [DialogueOrchestrator]
    drives two of them in rounds and calls a third one for commentary.

    The embedding keeps Python's data as the program has it: dynamically
    typed values that come back from [response.json()] are values of
    [json]; the [self.models] dict is a [gmap] from role names to object
    references; the [ModelClient] objects live in a store indexed by
    reference, so that one client registered under two roles is one
    object.  The HTTP endpoint is an oracle [post] over an abstract world;
    the console is given by the texts its encoding accepts, and what is
    printed is kept in the state; standard output stays open, so that
    [print] raises only when the encoding refuses the text.  A [str] is carried by its UTF-8 bytes
    (a lone surrogate by the three bytes that encoding it would give). *)

From Stdlib Require Import ZArith String Ascii List Lia QArith Sorted.
From stdpp Require Import base option list gmap strings pretty functions.

Open Scope string_scope.
Open Scope list_scope.
Open Scope Z_scope.

Set Warnings "-register-all".

(** ** Python values *)

(** The values [response.json()] can produce; [str] values are [JStr].
    A float is carried by its literal: no arithmetic is done on it. *)
Inductive json : Type :=
| JNull
| JBool (b : bool)
| JInt (i : Z)
| JFloat (lit : string)
| JStr (s : string)
| JArr (items : list json)
| JObj (fields : gmap string json).

(** What a handler [except Exception as e] learns from [e] here is only
    [str(e)]; a caught exception is carried by that text. *)
Definition caught : Type := string.

(** The exceptions that can leave [run_dialogue]: a role that is not
    registered, a commentary frequency of 0, and a [print] of a text the
    console's encoding cannot encode. *)
Inductive exn : Type :=
| KeyError (key : string)
| ZeroDivisionError
| UnicodeEncodeError (text : string).

Inductive pykey : Type :=
| KStr (s : string)
| KInt (i : Z).

Definition type_name (v : json) : string :=
  match v with
  | JNull => "NoneType"
  | JBool _ => "bool"
  | JInt _ => "int"
  | JFloat _ => "float"
  | JStr _ => "str"
  | JArr _ => "list"
  | JObj _ => "dict"
  end.

(** [repr] of a key that needs no escaping, as [str(KeyError(k))] shows it. *)
Definition repr_key (k : pykey) : string :=
  match k with
  | KStr s => "'" +:+ s +:+ "'"
  | KInt i => pretty i
  end.

(** Python's sequence indexing: a negative index counts from the end. *)
Definition py_index {A} (l : list A) (i : Z) : option A :=
  let n := Z.of_nat (length l) in
  if (0 <=? i) && (i <? n) then l !! Z.to_nat i
  else if (- n <=? i) && (i <? 0) then l !! Z.to_nat (n + i)
  else None.
Arguments py_index {A} l i : simpl never.

(** [v[k]], with the text of the exception it raises (CPython 3.11 and
    later wording for the [TypeError]s). *)
Definition getitem (v : json) (k : pykey) : caught + json :=
  match v, k with
  | JObj fields, KStr s =>
      match fields !! s with
      | Some x => inr x
      | None => inl (repr_key k)
      end
  | JObj _, KInt _ => inl (repr_key k)
  | JArr items, KInt i =>
      match py_index items i with
      | Some x => inr x
      | None => inl "list index out of range"
      end
  | JArr _, KStr _ => inl "list indices must be integers or slices, not str"
  | JStr s, KInt i =>
      match py_index (list_ascii_of_string s) i with
      | Some c => inr (JStr (String c EmptyString))
      | None => inl "string index out of range"
      end
  | JStr _, KStr _ => inl "string indices must be integers, not 'str'"
  | _, _ => inl ("'" +:+ type_name v +:+ "' object is not subscriptable")
  end.

(** [v[k1][k2]...], left to right, stopping at the first exception. *)
Fixpoint getpath (v : json) (ks : list pykey) : caught + json :=
  match ks with
  | [] => inr v
  | k :: ks' =>
      match getitem v k with
      | inl e => inl e
      | inr v' => getpath v' ks'
      end
  end.

(** Truthiness of a [str]. *)
Definition str_truthy (s : string) : bool :=
  match s with
  | EmptyString => false
  | String _ _ => true
  end.

(** [l[-n:]]. *)
Definition slice_last {A} (n : nat) (l : list A) : list A :=
  drop (length l - n)%nat l.

(** ** Messages, requests and the endpoint *)

(** [{"role": ..., "content": ...}] *)
Record message : Type := Message {
  role : string;
  content : json
}.

(** The [payload] dict of [generate_response]. *)
Record payload : Type := Payload {
  model : string;
  messages : list message;
  temperature : Q;
  max_tokens : Z;
  stream : bool
}.

(** The arguments of [session.post]. *)
Record request : Type := Request {
  url : string;
  json_arg : payload;
  headers : list (string * string)
}.

(** What the program can observe of a response: its [status], and what
    [await response.json()] gives when it is asked: a value or an
    exception. *)
Record response : Type := Response {
  status : Z;
  json_result : caught + json
}.

(** ** ModelClient *)

Record ModelClient : Type := mkModelClient {
  name : string;
  model_name : string;
  system_prompt : string;
  conversation_history : list message
}.

Definition default_system_prompt : string := "".
Definition default_temperature : Q := 7 # 10.
Definition default_max_tokens : Z := 500.

(** [ModelClient.__init__] *)
Definition ModelClient_init (name model_name system_prompt : string) : ModelClient :=
  {| name := name;
     model_name := model_name;
     system_prompt := system_prompt;
     conversation_history := [] |}.

Definition set_history (self : ModelClient) (h : list message) : ModelClient :=
  {| name := name self;
     model_name := model_name self;
     system_prompt := system_prompt self;
     conversation_history := h |}.

(** Lines 18-28: the [messages] list. *)
Definition build_messages (self : ModelClient) (prompt : json) : list message :=
  let messages := [] in
  let messages :=
    if str_truthy (system_prompt self)
    then messages ++ [Message "system" (JStr (system_prompt self))]
    else messages in
  let messages := messages ++ conversation_history self in
  messages ++ [Message "user" prompt].

(** Lines 30-41: the request handed to [session.post]. *)
Definition build_request (self : ModelClient) (prompt : json) (base_url : string)
    (temperature : Q) (max_tokens : Z) : request :=
  {| url := base_url +:+ "/v1/chat/completions";
     json_arg := {| model := model_name self;
                    messages := build_messages self prompt;
                    temperature := temperature;
                    max_tokens := max_tokens;
                    stream := false |};
     headers := [("Content-Type", "application/json")] |}.

(** [result["choices"][0]["message"]["content"]] *)
Definition content_path : list pykey :=
  [KStr "choices"; KInt 0; KStr "message"; KStr "content"].

(** Lines 46-52: the history after a successful exchange. *)
Definition update_history (h : list message) (prompt assistant_response : json)
    : list message :=
  let h := h ++ [Message "user" prompt] in
  let h := h ++ [Message "assistant" assistant_response] in
  if (20 <? length h)%nat then slice_last 20 h else h.

Section Endpoint.
(** The endpoint: [post w req] is what [session.post] does in world [w]:
    it raises an [Exception], or it answers, and the world moves on.
    Entering and leaving the [async with] block raise nothing of their
    own, and no [BaseException] (a cancellation) is considered. *)
Context {World : Type}.
Variable post : World → request → (caught + response) * World.

(** [ModelClient.generate_response]: the value returned, the client
    afterwards, the world afterwards. *)
Definition generate_response (w : World) (self : ModelClient) (prompt : json)
    (base_url : string) (temperature : Q) (max_tokens : Z)
    : json * ModelClient * World :=
  let req := build_request self prompt base_url temperature max_tokens in
  let '(r, w') := post w req in
  match r with
  | inl e => (JStr ("Error: " +:+ e), self, w')
  | inr response =>
      if status response =? 200 then
        match json_result response with
        | inl e => (JStr ("Error: " +:+ e), self, w')
        | inr result =>
            match getpath result content_path with
            | inl e => (JStr ("Error: " +:+ e), self, w')
            | inr assistant_response =>
                (assistant_response,
                 set_history self
                   (update_history (conversation_history self) prompt
                      assistant_response),
                 w')
            end
        end
      else (JStr ("Error: HTTP " +:+ pretty (status response)), self, w')
  end.
End Endpoint.

(** ** DialogueOrchestrator *)

(** References to [ModelClient] objects. *)
Definition loc : Type := nat.

(** A transcript record [{"round": ..., "speaker": ..., "content": ...}];
    the field [content] is [said] here, [content] being the message's. *)
Record turn : Type := Turn {
  round : Z;
  speaker : string;
  said : json
}.

Record DialogueOrchestrator : Type := mkOrchestrator {
  base_url : string;
  models : gmap string loc;
  dialogue_history : list turn
}.

(** [s.rstrip('/')]: the trailing run of ['/'] removed. *)
Fixpoint rstrip_slash (s : string) : string :=
  match s with
  | EmptyString => EmptyString
  | String c s' =>
      match rstrip_slash s' with
      | EmptyString =>
          if Ascii.eqb c "/"%char then EmptyString else String c EmptyString
      | rest => String c rest
      end
  end.

(** [DialogueOrchestrator.__init__] *)
Definition DialogueOrchestrator_init (base_url : string) : DialogueOrchestrator :=
  {| base_url := rstrip_slash base_url;
     models := ∅;
     dialogue_history := [] |}.

(** [DialogueOrchestrator.add_model]; [client] is a reference. *)
Definition add_model (self : DialogueOrchestrator) (role : string) (client : loc)
    : DialogueOrchestrator :=
  {| base_url := base_url self;
     models := <[role := client]> (models self);
     dialogue_history := dialogue_history self |}.

(** One call of [generate_response] made by [run_dialogue], as a test
    double would record it: the role whose client was called, the round
    ([None] after the loop), the prompt passed and the value returned.
    The program keeps no such list; it is here to state what was called. *)
Record call : Type := Call {
  call_role : string;
  call_round : option Z;
  call_prompt : json;
  call_reply : json
}.

(** Everything [run_dialogue] reads or writes; [st_stdout] is what has
    been printed, one entry for each [print]. *)
Record state {World : Type} : Type := State {
  st_world : World;
  st_store : loc → ModelClient;
  st_self : DialogueOrchestrator;
  st_calls : list call;
  st_stdout : list string
}.
Arguments state : clear implicits.
Arguments State {World} _ _ _ _ _.

(** State, and an exception or a value: what was written before an
    exception stays written. *)
Definition M (World A : Type) : Type := state World → state World * (exn + A).

Definition ret {World A} (a : A) : M World A := λ st, (st, inr a).

Definition raise {World A} (e : exn) : M World A := λ st, (st, inl e).

Definition bind {World A B} (m : M World A) (f : A → M World B) : M World B :=
  λ st, match m st with
        | (st', inl e) => (st', inl e)
        | (st', inr a) => f a st'
        end.

Declare Scope run_scope.
Delimit Scope run_scope with run.
Notation "x <~ m ;; k" := (bind m (λ x, k))
  (at level 100, m at next level, right associativity) : run_scope.
Notation "m ;;; k" := (bind m (λ _, k))
  (at level 100, right associativity) : run_scope.

Definition newline : string := String (ascii_of_nat 10) EmptyString.

Fixpoint spaces (n : nat) : string :=
  match n with
  | O => EmptyString
  | S n' => String " "%char (spaces n')
  end.

(** [s * n] *)
Fixpoint times (s : string) (n : nat) : string :=
  match n with
  | O => EmptyString
  | S n' => s +:+ times s n'
  end.

Section Formatting.
(** [str(v)] for a value that is not a [str]: the interpreter's. *)
Variable py_str : json → string.

(** [{v}] inside an f-string, and [str(v)]. *)
Definition fmt (v : json) : string :=
  match v with
  | JStr s => s
  | _ => py_str v
  end.

(** Lines 113-121. *)
Definition recent_exchange_text (a_name : string) (response_a : json)
    (b_name : string) (response_b : json) : string :=
  let i := newline +:+ spaces 20 in
  i +:+ "Recent exchange:"
    +:+ i +:+ a_name +:+ ": " +:+ fmt response_a
    +:+ i
    +:+ i +:+ b_name +:+ ": " +:+ fmt response_b
    +:+ i
    +:+ i +:+ "Please provide commentary on this exchange, analyzing the dialogue quality, "
    +:+ i +:+ "key points, areas of agreement/disagreement, and interesting developments."
    +:+ i.

(** Lines 139-149. *)
Definition final_summary_text (a_name b_name initial_topic : string) : string :=
  let i := newline +:+ spaces 8 in
  i +:+ "Please provide a comprehensive analysis of the entire dialogue between "
    +:+ i +:+ a_name +:+ " and " +:+ b_name +:+ " on the topic: " +:+ initial_topic
    +:+ i
    +:+ i +:+ "Key aspects to analyze:"
    +:+ i +:+ "- Overall dialogue quality and coherence"
    +:+ i +:+ "- Main themes and arguments presented"
    +:+ i +:+ "- Evolution of the discussion"
    +:+ i +:+ "- Notable insights or interesting points"
    +:+ i +:+ "- Areas where the models complemented or challenged each other"
    +:+ i.

(** The texts handed to [print], by line of the source. *)

(** Line 73. *)
Definition start_line (initial_topic : string) : string :=
  "🎭 Starting dialogue on topic: " +:+ initial_topic +:+ newline.

(** Line 81, for [round_num + 1 = n]. *)
Definition round_line (n : Z) : string :=
  newline +:+ "🔄 Round " +:+ pretty n.

(** Lines 85 and 97. *)
Definition speaker_line (name : string) : string :=
  "🤖 " +:+ name +:+ ":".

(** Lines 89 and 101. *)
Definition reply_line (response : json) : string :=
  fmt response +:+ newline.

(** Line 110. *)
Definition commentary_header (name : string) : string :=
  "💬 " +:+ name +:+ " Commentary:".

(** Line 126. *)
Definition commentary_line (commentary : json) : string :=
  "📝 " +:+ fmt commentary +:+ newline.

(** Line 136. *)
Definition final_header (name : string) : string :=
  newline +:+ "🎯 Final Commentary from " +:+ name +:+ ":".
End Formatting.

Section Orchestrator.
Context {World : Type}.
Variable post : World → request → (caught + response) * World.
(** The console: whether [sys.stdout]'s encoding can encode a text. *)
Variable encodable : string → bool.
Variable py_str : json → string.

Local Open Scope run_scope.

(** [print(text)]: the text is written, or the encoding refuses it and
    nothing is. *)
Definition print (text : string) : M World unit :=
  λ st,
    if encodable text
    then ({| st_world := st_world st;
             st_store := st_store st;
             st_self := st_self st;
             st_calls := st_calls st;
             st_stdout := st_stdout st ++ [text] |},
          inr ())
    else (st, inl (UnicodeEncodeError text)).

(** [self.models[role]] *)
Definition get_model (role : string) : M World loc :=
  λ st, match models (st_self st) !! role with
        | Some client => (st, inr client)
        | None => (st, inl (KeyError role))
        end.

(** [self.models[role].name] *)
Definition get_name (role : string) : M World string :=
  client <~ get_model role ;;
  λ st, (st, inr (name (st_store st client))).

(** [await self.models[role].generate_response(session, prompt, self.base_url)] *)
Definition call_generate_response (role : string) (rnd : option Z) (prompt : json)
    : M World json :=
  client <~ get_model role ;;
  λ st,
    let '(reply, client', w') :=
      generate_response post (st_world st) (st_store st client) prompt
        (base_url (st_self st)) default_temperature default_max_tokens in
    ({| st_world := w';
        st_store := <[client := client']> (st_store st);
        st_self := st_self st;
        st_calls := st_calls st ++ [Call role rnd prompt reply];
        st_stdout := st_stdout st |},
     inr reply).

(** [self.dialogue_history.append(t)] *)
Definition append_turn (t : turn) : M World unit :=
  λ st,
    ({| st_world := st_world st;
        st_store := st_store st;
        st_self := {| base_url := base_url (st_self st);
                      models := models (st_self st);
                      dialogue_history := dialogue_history (st_self st) ++ [t] |};
        st_calls := st_calls st;
        st_stdout := st_stdout st |},
     inr tt).

(** [a % b] on [int]s. *)
Definition py_mod (a b : Z) : M World Z :=
  if b =? 0 then raise ZeroDivisionError else ret (a mod b).

(** Lines 110-127: the body of the commentary [if]. *)
Definition commentary_block (round_num : Z) (response_a response_b : json)
    : M World unit :=
  c_name <~ get_name "commentator" ;;
  print (commentary_header c_name) ;;;
  a_name <~ get_name "model_a" ;;
  b_name <~ get_name "model_b" ;;
  let recent_exchange :=
    recent_exchange_text py_str a_name response_a b_name response_b in
  commentary <~ call_generate_response "commentator" (Some (round_num + 1))
                  (JStr recent_exchange) ;;
  print (commentary_line py_str commentary) ;;;
  print (times "=" 60) ;;;
  ret tt.

(** Lines 81-133: one iteration; it returns the next [current_prompt].
    [asyncio.sleep(1)] only passes time. *)
Definition round_body (commentary_frequency : Z) (round_num : Z)
    (current_prompt : json) : M World json :=
  print (round_line (round_num + 1)) ;;;
  print (times "-" 40) ;;;
  a_name <~ get_name "model_a" ;;
  print (speaker_line a_name) ;;;
  response_a <~ call_generate_response "model_a" (Some (round_num + 1))
                  current_prompt ;;
  print (reply_line py_str response_a) ;;;
  append_turn (Turn (round_num + 1) "model_a" response_a) ;;;
  b_name <~ get_name "model_b" ;;
  print (speaker_line b_name) ;;;
  response_b <~ call_generate_response "model_b" (Some (round_num + 1))
                  response_a ;;
  print (reply_line py_str response_b) ;;;
  append_turn (Turn (round_num + 1) "model_b" response_b) ;;;
  m <~ py_mod (round_num + 1) commentary_frequency ;;
  (if m =? 0 then commentary_block round_num response_a response_b
   else ret tt) ;;;
  ret response_b.

(** [for round_num in rs: ...], threading [current_prompt]. *)
Fixpoint for_rounds (body : Z → json → M World json) (rs : list Z)
    (current_prompt : json) : M World json :=
  match rs with
  | [] => ret current_prompt
  | round_num :: rs' =>
      next <~ body round_num current_prompt ;;
      for_rounds body rs' next
  end.

(** Lines 136-155: the final commentary. *)
Definition final_commentary_block (initial_topic : string) : M World unit :=
  c_name <~ get_name "commentator" ;;
  print (final_header c_name) ;;;
  print (times "=" 60) ;;;
  a_name <~ get_name "model_a" ;;
  b_name <~ get_name "model_b" ;;
  let final_summary := final_summary_text a_name b_name initial_topic in
  final_commentary <~ call_generate_response "commentator" None
                        (JStr final_summary) ;;
  print (fmt py_str final_commentary) ;;;
  ret tt.

(** [DialogueOrchestrator.run_dialogue]; [range(rounds)] is
    [seqZ 0 rounds], empty when [rounds <= 0]. *)
Definition run_dialogue (initial_topic : string) (rounds : Z)
    (commentary_frequency : Z) : M World unit :=
  print (start_line initial_topic) ;;;
  print (times "=" 60) ;;;
  for_rounds (round_body commentary_frequency) (seqZ 0 rounds)
    (JStr initial_topic) ;;;
  final_commentary_block initial_topic.
End Orchestrator.

Definition default_rounds : Z := 5.
Definition default_commentary_frequency : Z := 2.

(** ** Consoles *)

(** A console that can encode every text. *)
Definition any_text (text : string) : bool := true.

(** The texts a run prints when no text is refused. *)
Definition texts_of_run {World : Type}
    (post : World → request → (caught + response) * World)
    (py_str : json → string) (initial_topic : string) (rounds : Z)
    (commentary_frequency : Z) (st : state World) : list string :=
  drop (length (st_stdout st))
    (st_stdout (run_dialogue post any_text py_str initial_topic rounds
                  commentary_frequency st).1).

(** The console can encode every text the run prints. *)
Definition can_print {World : Type} (encodable : string → bool)
    (post : World → request → (caught + response) * World)
    (py_str : json → string) (initial_topic : string) (rounds : Z)
    (commentary_frequency : Z) (st : state World) : Prop :=
  forallb encodable
    (texts_of_run post py_str initial_topic rounds commentary_frequency st)
  = true.

(** Two computations that differ only in the console: [m_a] prints on
    a console that takes every text, [m_e] on the console [encodable].
    Either [encodable] takes all that [m_a] prints and [m_e] does as
    [m_a] does, or [m_e] raises at the first text refused, having
    printed the texts before it. *)
Definition agrees {World A : Type} (encodable : string → bool)
    (m_e m_a : M World A) : Prop :=
  ∀ st, ∃ new,
    st_stdout (m_a st).1 = st_stdout st ++ new
    ∧ ((forallb encodable new = true ∧ m_e st = m_a st)
       ∨ (∃ before text after,
            new = before ++ text :: after
            ∧ forallb encodable before = true
            ∧ encodable text = false
            ∧ (m_e st).2 = inl (UnicodeEncodeError text)
            ∧ st_stdout (m_e st).1 = st_stdout st ++ before)).

(** Whether a text holds a surrogate, as its UTF-8 bytes would show it:
    a byte ED followed by a byte from A0 up. *)
Fixpoint has_surrogate (s : string) : bool :=
  match s with
  | EmptyString => false
  | String c s' =>
      match s' with
      | String d _ =>
          ((nat_of_ascii c =? 237)%nat && (160 <=? nat_of_ascii d)%nat)
          || has_surrogate s'
      | EmptyString => false
      end
  end.

(** A console with a strict UTF-8 encoding. *)
Definition strict_utf8 (text : string) : bool := negb (has_surrogate text).

(** ['\ud800'] *)
Definition lone_surrogate : string :=
  String (ascii_of_nat 237) (String (ascii_of_nat 160) (String (ascii_of_nat 128) "")).

(** ** Observing a client and the endpoint *)

(** A test double for the endpoint: it answers as [post] does and keeps
    the requests it was sent, in order. *)
Definition recording {World : Type}
    (post : World → request → (caught + response) * World)
    : World * list request → request → (caught + response) * (World * list request) :=
  λ '(w, sent) req,
    let '(r, w') := post w req in
    (r, (w', sent ++ [req])).

(** The state of a run against the recording endpoint, without the
    record. *)
Definition without_record {World : Type} (st : state (World * list request))
    : state World :=
  {| st_world := (st_world st).1;
     st_store := st_store st;
     st_self := st_self st;
     st_calls := st_calls st;
     st_stdout := st_stdout st |}.

(** [m_r] against the recording endpoint does what [m] does against the
    endpoint itself. *)
Definition erases {World A : Type} (m_r : M (World * list request) A)
    (m : M World A) : Prop :=
  ∀ st,
    without_record (m_r st).1 = (m (without_record st)).1
    ∧ (m_r st).2 = (m (without_record st)).2.

(** The shape [generate_response] reads from a body:
    [{"choices": [{"message": {"content": c, ...}, ...}, ...], ...}],
    and the [c] found there. *)
Definition content_of (result : json) : option json :=
  match result with
  | JObj top =>
      match top !! "choices" with
      | Some (JArr (JObj choice :: _)) =>
          match choice !! "message" with
          | Some (JObj msg) => msg !! "content"
          | _ => None
          end
      | _ => None
      end
  | _ => None
  end.

Definition has_content_path (result : json) : bool :=
  bool_decide (is_Some (content_of result)).

(** The ways a call fails.  [session.post] raises (transport failure);
    the status is not 200; the body is malformed: [response.json()]
    raises on it, what it parses to has no [choices[0].message.content],
    or that content is there but is not a string. *)
Definition is_str (v : json) : bool :=
  match v with
  | JStr _ => true
  | _ => false
  end.

Inductive call_fails : caught + response → Prop :=
| transport_failure e :
    call_fails (inl e)
| non_200_status resp :
    status resp ≠ 200 → call_fails (inr resp)
| body_not_json resp e :
    json_result resp = inl e → call_fails (inr resp)
| body_without_content resp result :
    json_result resp = inr result → has_content_path result = false →
    call_fails (inr resp)
| content_not_a_string resp result c :
    json_result resp = inr result → content_of result = Some c →
    is_str c = false → call_fails (inr resp).

(** The failures [generate_response] notices: all of the above but the
    last. *)
Inductive call_errors : caught + response → Prop :=
| errors_transport e :
    call_errors (inl e)
| errors_status resp :
    status resp ≠ 200 → call_errors (inr resp)
| errors_not_json resp e :
    json_result resp = inl e → call_errors (inr resp)
| errors_without_content resp result :
    json_result resp = inr result → has_content_path result = false →
    call_errors (inr resp).

(** The content of a well-formed completion: status 200 and a body with
    the shape above. *)
Definition completion_content (r : caught + response) : option json :=
  match r with
  | inl _ => None
  | inr resp =>
      if status resp =? 200 then
        match json_result resp with
        | inl _ => None
        | inr result => content_of result
        end
      else None
  end.

(** The arguments of one [generate_response] call. *)
Record call_args : Type := CallArgs {
  arg_prompt : json;
  arg_base_url : string;
  arg_temperature : Q;
  arg_max_tokens : Z
}.

Section Conversation.
Context {World : Type}.
Variable post : World → request → (caught + response) * World.

Definition generate_response_with (w : World) (self : ModelClient) (a : call_args)
    : json * ModelClient * World :=
  generate_response post w self (arg_prompt a) (arg_base_url a)
    (arg_temperature a) (arg_max_tokens a).

(** A client after a sequence of calls, one after the other. *)
Fixpoint converse (w : World) (self : ModelClient) (cs : list call_args)
    : ModelClient * World :=
  match cs with
  | [] => (self, w)
  | a :: cs' =>
      let '(_, self', w') := generate_response_with w self a in
      converse w' self' cs'
  end.

(** The (prompt, reply) pairs of the calls of that sequence that the
    endpoint answered with a well-formed completion, in order. *)
Fixpoint exchanges (w : World) (self : ModelClient) (cs : list call_args)
    : list (json * json) :=
  match cs with
  | [] => []
  | a :: cs' =>
      let req := build_request self (arg_prompt a) (arg_base_url a)
                   (arg_temperature a) (arg_max_tokens a) in
      let '(_, self', w') := generate_response_with w self a in
      match completion_content (post w req).1 with
      | Some reply => (arg_prompt a, reply) :: exchanges w' self' cs'
      | None => exchanges w' self' cs'
      end
  end.
End Conversation.

(** A prompt as a "user" turn followed by its reply as an "assistant" turn. *)
Definition turns_of (ex : json * json) : list message :=
  [Message "user" ex.1; Message "assistant" ex.2].

(** ** Reading the calls of a run *)

Definition is_call (r : string) (rnd : option Z) (c : call) : bool :=
  bool_decide (call_role c = r ∧ call_round c = rnd).

(** The calls to role [r], in order. *)
Definition calls_to (r : string) (cs : list call) : list call :=
  List.filter (λ c, bool_decide (call_role c = r)) cs.

(** ** Endpoints for examples *)

Definition completion (c : json) : json :=
  JObj {[ "choices" := JArr [JObj {[ "message" := JObj {[ "role" := JStr "assistant";
                                                           "content" := c ]} ]}] ]}.

Definition last_prompt (req : request) : json :=
  content (List.last (messages (json_arg req)) (Message "user" JNull)).

(** The request [req] is the one the call [c] of a run from [st] sent:
    it names the model of the client registered under the call's role,
    and its last message carries the call's prompt. *)
Definition request_of_call {World : Type} (st : state World) (req : request)
    (c : call) : Prop :=
  ∃ client,
    models (st_self st) !! call_role c = Some client
    ∧ model (json_arg req) = model_name (st_store st client)
    ∧ last_prompt req = call_prompt c.

(** Answers every prompt [p] with ["reply to: " + p]. *)
Definition echo_post (w : unit) (req : request) : (caught + response) * unit :=
  match last_prompt req with
  | JStr p => (inr (Response 200 (inr (completion (JStr ("reply to: " +:+ p))))), w)
  | _ => (inr (Response 400 (inl "no prompt")), w)
  end.

(** Every connection is refused. *)
Definition refusing_post (w : unit) (req : request) : (caught + response) * unit :=
  (inl "Cannot connect to host", w).

(** The [n]-th element of a script of answers, then refusals. *)
Definition scripted_post (w : list (caught + response)) (req : request)
    : (caught + response) * list (caught + response) :=
  match w with
  | [] => (inl "Cannot connect to host", [])
  | r :: w' => (r, w')
  end.

Definition py_str_none (v : json) : string := "None".

Definition three_clients (l : loc) : ModelClient :=
  match l with
  | O => ModelClient_init "Philosopher" "qwen3-30b-a3b" "You are a thoughtful philosopher."
  | S O => ModelClient_init "Analyst" "gemma-3-27b-it-qat" "You are an analytical thinker."
  | _ => ModelClient_init "Observer" "deepseek-r1-distill-qwen-7b" default_system_prompt
  end.

Definition three_roles : DialogueOrchestrator :=
  add_model (add_model (add_model (DialogueOrchestrator_init "http://localhost:1234/")
    "model_a" 0%nat) "model_b" 1%nat) "commentator" 2%nat.

(** Answers every prompt with a lone surrogate. *)
Definition surrogate_post (w : unit) (req : request) : (caught + response) * unit :=
  (inr (Response 200 (inr (completion (JStr lone_surrogate)))), w).

(** Every connection fails, with a reason no strict console can show. *)
Definition garbled_refusing_post (w : unit) (req : request)
    : (caught + response) * unit :=
  (inl ("Cannot connect to host " +:+ lone_surrogate), w).

(** The scenario of three rounds with commentary every second round,
    against the echoing endpoint, on a strict console. *)
Definition scenario : state () * (exn + ()) :=
  run_dialogue echo_post strict_utf8 py_str_none "T" 3 2
    (State () three_clients three_roles [] []).

(** Orchestrators with some roles missing, and one with a single client
    under both primary roles. *)
Definition only_model_a : DialogueOrchestrator :=
  add_model (DialogueOrchestrator_init "http://localhost:1234") "model_a" 0%nat.

Definition two_roles : DialogueOrchestrator :=
  add_model only_model_a "model_b" 1%nat.

Definition self_talk : DialogueOrchestrator :=
  add_model only_model_a "model_b" 0%nat.

(** ** What a run leaves behind *)

(** The roles [run_dialogue] looks up are registered. *)
Definition roles_ok (o : DialogueOrchestrator) : Prop :=
  is_Some (models o !! "model_a")
  ∧ is_Some (models o !! "model_b")
  ∧ is_Some (models o !! "commentator").

(** What came back in one round: the two replies, and the commentary
    prompt and reply when commentary ran. *)
Record round_replies : Type := RoundReplies {
  reply_a : json;
  reply_b : json;
  commentary_prompt : json;
  commentary : json
}.

(** The two records iteration [round_num] appends. *)
Definition round_turns (round_num : Z) (x : round_replies) : list turn :=
  [Turn (round_num + 1) "model_a" (reply_a x);
   Turn (round_num + 1) "model_b" (reply_b x)].

(** The calls iteration [round_num] makes. *)
Definition round_calls (commentary_frequency round_num : Z) (current_prompt : json)
    (x : round_replies) : list call :=
  [Call "model_a" (Some (round_num + 1)) current_prompt (reply_a x);
   Call "model_b" (Some (round_num + 1)) (reply_a x) (reply_b x)]
  ++ (if (round_num + 1) mod commentary_frequency =? 0
      then [Call "commentator" (Some (round_num + 1)) (commentary_prompt x)
              (commentary x)]
      else []).

Fixpoint loop_turns (rs : list Z) (xs : list round_replies) : list turn :=
  match rs, xs with
  | round_num :: rs', x :: xs' => round_turns round_num x ++ loop_turns rs' xs'
  | _, _ => []
  end.

Fixpoint loop_calls (commentary_frequency : Z) (rs : list Z) (current_prompt : json)
    (xs : list round_replies) : list call :=
  match rs, xs with
  | round_num :: rs', x :: xs' =>
      round_calls commentary_frequency round_num current_prompt x
      ++ loop_calls commentary_frequency rs' (reply_b x) xs'
  | _, _ => []
  end.

(** [current_prompt] after the rounds of [xs]. *)
Definition prompt_after (current_prompt : json) (xs : list round_replies) : json :=
  List.last (map reply_b xs) current_prompt.

(** [current_prompt] at the start of the round of index [k]. *)
Definition prompt_at (current_prompt : json) (xs : list round_replies) (k : nat)
    : json :=
  prompt_after current_prompt (take k xs).

(** The calls to role [r] in round [rnd]. *)
Definition calls_at (r : string) (rnd : Z) (cs : list call) : list call :=
  List.filter (is_call r (Some rnd)) cs.

(** [c1] was not made in a later round of the loop than [c2]. *)
Definition not_later (c1 c2 : call) : Prop :=
  ∀ r1 r2, call_round c1 = Some r1 → call_round c2 = Some r2 → r1 ≤ r2.

Definition primary_speaker (t : turn) : Prop :=
  speaker t = "model_a" ∨ speaker t = "model_b".

Definition error_string (v : json) : Prop :=
  ∃ e, v = JStr ("Error: " +:+ e).

Definition dialogue_role (m : message) : Prop :=
  role m = "user" ∨ role m = "assistant".

(** ** main *)

(** The roles [run_dialogue] calls through. *)
Definition run_roles : list string := ["model_a"; "model_b"; "commentator"].

(** A string of [k] slashes. *)
Definition slashes (k : nat) : string :=
  string_of_list_ascii (replicate k "/"%char).

Definition philosopher_prompt : string :=
  "You are a thoughtful philosopher who enjoys deep discussions. "
  +:+ newline +:+ spaces 8
  +:+ "You ask probing questions and explore ideas from multiple angles. "
  +:+ newline +:+ spaces 8
  +:+ "Keep responses conversational and engaging, around 100-200 words.".

Definition analyst_prompt : string :=
  "You are an analytical thinker who values evidence and logic. "
  +:+ newline +:+ spaces 8
  +:+ "You provide structured reasoning and like to examine assumptions. "
  +:+ newline +:+ spaces 8
  +:+ "Keep responses clear and well-reasoned, around 100-200 words.".

Definition observer_prompt : string :=
  "You are an insightful observer who analyzes conversations. "
  +:+ newline +:+ spaces 8
  +:+ "Provide thoughtful commentary on dialogue quality, key insights, and interesting dynamics. "
  +:+ newline +:+ spaces 8
  +:+ "Be constructive and highlight both strengths and areas for improvement.".

Section Main.
Context {World : Type}.
Variable post : World → request → (caught + response) * World.
Variable encodable : string → bool.
Variable py_str : json → string.

(** [main]: the three clients it creates are the objects at the
    references 0, 1 and 2 of the store. *)
Definition main_state (w : World) : state World :=
  let base_url := "http://10.226.10.31:1234" in
  let orchestrator := DialogueOrchestrator_init base_url in
  let model_a := ModelClient_init "Philosopher" "qwen3-30b-a3b" philosopher_prompt in
  let model_b := ModelClient_init "Analyst" "gemma-3-27b-it-qat" analyst_prompt in
  let commentator :=
    ModelClient_init "Observer" "deepseek-r1-distill-qwen-7b" observer_prompt in
  let store := λ l : loc,
    match l with
    | O => model_a
    | S O => model_b
    | _ => commentator
    end in
  let orchestrator := add_model orchestrator "model_a" 0%nat in
  let orchestrator := add_model orchestrator "model_b" 1%nat in
  let orchestrator := add_model orchestrator "commentator" 2%nat in
  State w store orchestrator [] [].

Definition main_topic : string :=
  "What role should artificial intelligence play in creative endeavors?".

Definition main (w : World) : state World * (exn + ()) :=
  run_dialogue post encodable py_str main_topic 6 2 (main_state w).
End Main.

(** * Properties *)

(** ** Subscripting *)

Lemma py_index_0 {A} (l : list A) : py_index l 0 = head l.
Proof. destruct l as [|x l]; reflexivity. Qed.

(** [result["choices"][0]["message"]["content"]] gives a value exactly
    when the body has the shape of [content_of], and then that value. *)
Lemma getpath_content_of (result : json) :
  match content_of result with
  | Some c => getpath result content_path = inr c
  | None => ∃ e, getpath result content_path = inl e
  end.
Proof.
  unfold content_path.
  destruct result as [| | | | s |items|top]; simpl; eauto.
  destruct (top !! "choices") as [choices|]; [|eauto].
  destruct choices as [| | | | s |items|]; simpl; eauto.
  - rewrite py_index_0. destruct (list_ascii_of_string s); simpl; eauto.
  - rewrite py_index_0. destruct items as [|choice items]; simpl; [eauto|].
    destruct choice as [| | | | | |choice]; simpl; eauto.
    destruct (choice !! "message") as [msg|]; [|eauto].
    destruct msg as [| | | | | |msg]; simpl; eauto.
    destruct (msg !! "content"); eauto.
Qed.

Lemma has_content_path_false (result : json) :
  has_content_path result = false ↔ content_of result = None.
Proof.
  unfold has_content_path. rewrite bool_decide_eq_false.
  destruct (content_of result) as [c|]; split; intros H; try done.
  - destruct H. by exists c.
Qed.

Lemma call_errors_no_content (r : caught + response) :
  call_errors r ↔ completion_content r = None.
Proof.
  split.
  - intros [e|resp H|resp e H|resp result H1 H2]; simpl; [done|..].
    + apply Z.eqb_neq in H. by rewrite H.
    + rewrite H. by destruct (status resp =? 200).
    + rewrite H1. apply has_content_path_false in H2. rewrite H2.
      by destruct (status resp =? 200).
  - destruct r as [e|resp]; simpl; [intros _; constructor|].
    destruct (status resp =? 200) eqn:Hs.
    + destruct (json_result resp) as [e|result] eqn:Hj; intros H.
      * by eapply errors_not_json.
      * eapply errors_without_content; [done|]. by apply has_content_path_false.
    + intros _. apply errors_status. by apply Z.eqb_neq.
Qed.

(** ** generate_response *)

Section ClientProperties.
Context {World : Type}.
Variable post : World → request → (caught + response) * World.

(** The two ways out of [generate_response], by what the endpoint did. *)
Lemma generate_response_cases w self prompt url t m :
  let r := post w (build_request self prompt url t m) in
  match completion_content r.1 with
  | Some c =>
      generate_response post w self prompt url t m
      = (c, set_history self
              (update_history (conversation_history self) prompt c), r.2)
  | None =>
      ∃ e, generate_response post w self prompt url t m
           = (JStr ("Error: " +:+ e), self, r.2)
  end.
Proof.
  unfold generate_response. cbv zeta.
  destruct (post w _) as [[e|resp] w']; cbn [fst snd completion_content];
    [eauto|].
  destruct (status resp =? 200); [|eauto].
  destruct (json_result resp) as [e|result]; [eauto|].
  pose proof (getpath_content_of result) as H.
  destruct (content_of result) as [c|].
  - by rewrite H.
  - destruct H as [e ->]. eauto.
Qed.

Lemma generate_response_world w self prompt url t m :
  (generate_response post w self prompt url t m).2
  = (post w (build_request self prompt url t m)).2.
Proof.
  pose proof (generate_response_cases w self prompt url t m) as H.
  cbv zeta in H. destruct (completion_content _); [by rewrite H|].
  destruct H as [e ->]. done.
Qed.

(** [generate_response] only ever writes [conversation_history]. *)
Lemma generate_response_identity w self prompt url t m :
  let self' := (generate_response post w self prompt url t m).1.2 in
  name self' = name self ∧ model_name self' = model_name self
  ∧ system_prompt self' = system_prompt self.
Proof.
  pose proof (generate_response_cases w self prompt url t m) as H.
  cbv zeta in *. destruct (completion_content _); [by rewrite H|].
  destruct H as [e ->]. done.
Qed.
End ClientProperties.

(** ** The conversation history *)

Lemma slice_last_short {A} (n : nat) (l : list A) :
  (length l ≤ n)%nat → slice_last n l = l.
Proof.
  intros H. unfold slice_last.
  replace (length l - n)%nat with 0%nat by lia. apply drop_0.
Qed.

Lemma length_slice_last {A} (n : nat) (l : list A) :
  length (slice_last n l) = (length l `min` n)%nat.
Proof. unfold slice_last. rewrite length_drop. lia. Qed.

Lemma slice_last_app_slice {A} (n : nat) (l x : list A) :
  slice_last n (slice_last n l ++ x) = slice_last n (l ++ x).
Proof.
  unfold slice_last.
  rewrite !length_app, length_drop, !drop_app, drop_drop, length_drop.
  f_equal; f_equal; lia.
Qed.

Lemma slice_last_min {A} (n : nat) (l : list A) :
  slice_last (length l `min` n) l = slice_last n l.
Proof. unfold slice_last. f_equal. lia. Qed.

(** Appending the two turns and cutting to the last 20, whichever branch
    of the [if] runs. *)
Lemma update_history_slice (h : list message) (prompt reply : json) :
  update_history h prompt reply = slice_last 20 (h ++ turns_of (prompt, reply)).
Proof.
  unfold update_history, turns_of. cbn [fst snd].
  rewrite <- app_assoc. cbn [app].
  destruct (Nat.ltb_spec 20 (length (h ++ [Message "user" prompt;
                                           Message "assistant" reply]))) as [H|H].
  - reflexivity.
  - symmetry. by apply slice_last_short.
Qed.

Lemma length_flat_map_turns_of (exs : list (json * json)) :
  length (flat_map turns_of exs) = (2 * length exs)%nat.
Proof. induction exs as [|ex exs IH]; simpl; lia. Qed.

Lemma update_history_roles (h : list message) (prompt reply : json) :
  Forall dialogue_role h → Forall dialogue_role (update_history h prompt reply).
Proof.
  intros H. rewrite update_history_slice. unfold slice_last.
  apply Forall_drop, Forall_app. split; [done|].
  constructor; [by left|]. constructor; [by right|]. constructor.
Qed.

Section Memory.
Context {World : Type}.
Variable post : World → request → (caught + response) * World.

(** The history is the last 20 turns of everything exchanged so far. *)
Lemma converse_history w self cs (pre : list (json * json)) :
  conversation_history self = slice_last 20 (flat_map turns_of pre) →
  conversation_history (converse post w self cs).1
  = slice_last 20 (flat_map turns_of (pre ++ exchanges post w self cs)).
Proof.
  revert w self pre.
  induction cs as [|a cs IH]; intros w self pre Hpre; simpl.
  { by rewrite app_nil_r. }
  unfold generate_response_with.
  pose proof (generate_response_cases post w self (arg_prompt a)
                (arg_base_url a) (arg_temperature a) (arg_max_tokens a)) as H.
  cbv zeta in H.
  destruct (completion_content _) as [c|].
  - rewrite H.
    replace (pre ++ (arg_prompt a, c) :: exchanges post _ _ cs)
      with ((pre ++ [(arg_prompt a, c)]) ++ exchanges post
              (post w (build_request self (arg_prompt a) (arg_base_url a)
                         (arg_temperature a) (arg_max_tokens a))).2
              (set_history self (update_history (conversation_history self)
                                   (arg_prompt a) c)) cs)
      by (by rewrite <- app_assoc).
    apply IH. cbn [set_history conversation_history].
    rewrite update_history_slice, Hpre, slice_last_app_slice.
    rewrite flat_map_app. cbn [flat_map]. by rewrite app_nil_r.
  - destruct H as [e ->]. by apply IH.
Qed.

Lemma converse_roles w self cs :
  Forall dialogue_role (conversation_history self) →
  Forall dialogue_role (conversation_history (converse post w self cs).1).
Proof.
  revert w self. induction cs as [|a cs IH]; intros w self Hs; simpl; [done|].
  unfold generate_response_with.
  pose proof (generate_response_cases post w self (arg_prompt a)
                (arg_base_url a) (arg_temperature a) (arg_max_tokens a)) as H.
  cbv zeta in H.
  destruct (completion_content _) as [c|].
  - rewrite H. apply IH. by apply update_history_roles.
  - destruct H as [e ->]. by apply IH.
Qed.

Lemma converse_system_prompt w self cs :
  system_prompt (converse post w self cs).1 = system_prompt self.
Proof.
  revert w self. induction cs as [|a cs IH]; intros w self; simpl; [done|].
  unfold generate_response_with.
  pose proof (generate_response_identity post w self (arg_prompt a)
                (arg_base_url a) (arg_temperature a) (arg_max_tokens a)) as H.
  cbv zeta in H.
  destruct (generate_response _ _ _ _ _ _ _) as [[reply self'] w'].
  rewrite IH. apply H.
Qed.

(** C1. A client made by the constructor is taken through any sequence
    of calls.  With [N] the number of them that succeeded, its memory
    afterwards has [min(2N, 20)] entries, and they are the last
    [min(2N, 20)] of the successful (prompt, reply) pairs laid out in
    the order the calls were made, each prompt as a "user" turn
    followed by its reply as an "assistant" turn. *)
Theorem memory_cap_invariant w (name model_name system_prompt : string)
    (cs : list call_args) :
  let fresh := ModelClient_init name model_name system_prompt in
  let pairs := exchanges post w fresh cs in
  let N := length pairs in
  let memory := conversation_history (converse post w fresh cs).1 in
  length memory = ((2 * N) `min` 20)%nat
  ∧ memory = slice_last ((2 * N) `min` 20) (flat_map turns_of pairs).
Proof.
  intros fresh pairs N memory.
  assert (memory = slice_last 20 (flat_map turns_of pairs)) as Hm.
  { subst memory pairs. by rewrite (converse_history w fresh cs []). }
  subst N. rewrite <- length_flat_map_turns_of, slice_last_min, Hm.
  split; [apply length_slice_last | done].
Qed.

(** C6, as amended.  When the transport raises, when the status is not
    200, when [response.json()] raises or when the parsed body has no
    [choices[0].message.content], the call returns a string that starts
    with "Error: ", and the client, memory included, is as it was before
    the call. *)
Theorem failed_call_is_absorbed w self prompt url t m :
  call_errors (post w (build_request self prompt url t m)).1 →
  ∃ e, generate_response post w self prompt url t m
       = (JStr ("Error: " +:+ e), self,
          (post w (build_request self prompt url t m)).2).
Proof.
  intros Hfail. apply call_errors_no_content in Hfail.
  pose proof (generate_response_cases post w self prompt url t m) as H.
  cbv zeta in H. by rewrite Hfail in H.
Qed.

(** C7. The endpoint is sent exactly one request by a call.  Its
    message list is the system instruction as one system message when
    the instruction is not empty, then the memory in order, then the
    prompt as one user message; it asks for no streaming and names the
    client's model. *)
Theorem request_submitted w self prompt url t m :
  (generate_response (recording post) (w, []) self prompt url t m).2.2
  = [ {| url := url +:+ "/v1/chat/completions";
         json_arg :=
           {| model := model_name self;
              messages :=
                match system_prompt self with
                | EmptyString => []
                | _ => [Message "system" (JStr (system_prompt self))]
                end
                ++ conversation_history self
                ++ [Message "user" prompt];
              temperature := t;
              max_tokens := m;
              stream := false |};
         headers := [("Content-Type", "application/json")] |} ].
Proof.
  rewrite generate_response_world. unfold recording.
  destruct (post w _) as [r w']. cbn [snd app].
  unfold build_request, build_messages.
  destruct (system_prompt self); cbn [str_truthy app]; by rewrite ?app_assoc.
Qed.

(** C10. A client constructed with the default, empty system
    instruction, after any calls: the one request a further call sends
    carries the memory and the new user message only, and no message
    of it has the role "system". *)
Theorem empty_system_prompt_sends_no_system_message w0 w
    (name model_name : string) (cs : list call_args) prompt url t m :
  let self :=
    (converse post w0 (ModelClient_init name model_name default_system_prompt)
       cs).1 in
  ∃ req,
    (generate_response (recording post) (w, []) self prompt url t m).2.2 = [req]
    ∧ messages (json_arg req) = conversation_history self ++ [Message "user" prompt]
    ∧ Forall (λ msg, role msg ≠ "system") (messages (json_arg req)).
Proof.
  intros self. eexists. split; [|split].
  - rewrite generate_response_world. unfold recording.
    destruct (post w _) as [r w']. cbn [snd app]. reflexivity.
  - cbn [json_arg build_request messages]. unfold build_messages.
    subst self. by rewrite converse_system_prompt.
  - cbn [json_arg build_request messages]. unfold build_messages.
    subst self. rewrite converse_system_prompt.
    cbn [ModelClient_init system_prompt default_system_prompt str_truthy app].
    apply Forall_app. split.
    + eapply List.Forall_impl; [|apply converse_roles; constructor].
      intros msg [H|H]; rewrite H; discriminate.
    + repeat constructor. discriminate.
Qed.
End Memory.

(** ** The steps of run_dialogue *)

Lemma last_cons_default {A} (l : list A) (a d : A) :
  List.last (a :: l) d = List.last l a.
Proof.
  revert a d. induction l as [|b l IH]; intros a d; [done|].
  change (List.last (a :: b :: l) d) with (List.last (b :: l) d).
  by rewrite !IH.
Qed.

Lemma prompt_after_cons (p : json) (x : round_replies) (xs : list round_replies) :
  prompt_after p (x :: xs) = prompt_after (reply_b x) xs.
Proof. unfold prompt_after. cbn [map]. apply last_cons_default. Qed.

Section Lookups.
Context {World : Type}.
Variable post : World → request → (caught + response) * World.

Lemma get_model_ok role client (st : state World) :
  models (st_self st) !! role = Some client →
  get_model role st = (st, inr client).
Proof. intros H. unfold get_model. by rewrite H. Qed.

Lemma get_name_ok role client (st : state World) :
  models (st_self st) !! role = Some client →
  get_name role st = (st, inr (name (st_store st client))).
Proof. intros H. unfold get_name, bind. by rewrite (get_model_ok _ _ _ H). Qed.

Lemma get_name_missing role (st : state World) :
  models (st_self st) !! role = None →
  get_name role st = (st, inl (KeyError role)).
Proof. intros H. unfold get_name, bind, get_model. by rewrite H. Qed.

Lemma call_generate_response_ok role client rnd prompt (st : state World) :
  models (st_self st) !! role = Some client →
  let g := generate_response post (st_world st) (st_store st client) prompt
             (base_url (st_self st)) default_temperature default_max_tokens in
  call_generate_response post role rnd prompt st
  = ({| st_world := g.2;
        st_store := <[client := g.1.2]> (st_store st);
        st_self := st_self st;
        st_calls := st_calls st ++ [Call role rnd prompt g.1.1];
        st_stdout := st_stdout st |},
     inr g.1.1).
Proof.
  intros H g. unfold call_generate_response, bind.
  rewrite (get_model_ok _ _ _ H). fold g. by destruct g as [[reply c] w'].
Qed.

Lemma call_generate_response_missing role rnd prompt (st : state World) :
  models (st_self st) !! role = None →
  call_generate_response post role rnd prompt st = (st, inl (KeyError role)).
Proof.
  intros H. unfold call_generate_response, bind, get_model. by rewrite H.
Qed.

Lemma print_any_text text (st : state World) :
  print any_text text st
  = ({| st_world := st_world st;
        st_store := st_store st;
        st_self := st_self st;
        st_calls := st_calls st;
        st_stdout := st_stdout st ++ [text] |},
     inr ()).
Proof. reflexivity. Qed.

Lemma print_ok encodable text (st : state World) :
  encodable text = true →
  print encodable text st
  = ({| st_world := st_world st;
        st_store := st_store st;
        st_self := st_self st;
        st_calls := st_calls st;
        st_stdout := st_stdout st ++ [text] |},
     inr ()).
Proof. intros H. unfold print. by rewrite H. Qed.

Lemma print_refused encodable text (st : state World) :
  encodable text = false →
  print encodable text st = (st, inl (UnicodeEncodeError text)).
Proof. intros H. unfold print. by rewrite H. Qed.
End Lookups.

Ltac simpl_state :=
  cbn [st_self st_world st_store st_calls st_stdout
       base_url models dialogue_history append_turn].

(** One more step of a run on the console that accepts every text. *)
Ltac printed := unfold bind at 1; rewrite print_any_text; simpl_state.

(** One more step of a run on any console: the step returns or raises. *)
Ltac isolate m :=
  pattern m;
  match goal with |- ?P _ => let Q := fresh "Q" in set (Q := P) end.

Ltac step_print :=
  unfold bind at 1;
  match goal with
  | |- context [print ?e ?t ?s] =>
      let He := fresh "He" in
      destruct (e t) eqn:He;
      [rewrite (print_ok e t s He) | rewrite (print_refused e t s He)]
  end; simpl_state.

Ltac step_name :=
  unfold bind at 1;
  match goal with
  | |- context [get_name ?role ?s] =>
      let H := fresh "Hrole" in
      destruct (models (st_self s) !! role) as [?|] eqn:H;
      cbn [st_self models] in H;
      [rewrite (get_name_ok role _ s H) | rewrite (get_name_missing role s H)]
  end; simpl_state.

Ltac step_call :=
  unfold bind at 1;
  match goal with
  | |- context [call_generate_response ?p ?role ?rnd ?prompt ?s] =>
      let H := fresh "Hrole" in
      destruct (models (st_self s) !! role) as [?|] eqn:H;
      cbn [st_self models] in H;
      [rewrite (call_generate_response_ok p role _ rnd prompt s H); cbv zeta
      | rewrite (call_generate_response_missing p role rnd prompt s H)]
  end; simpl_state.

Ltac use_tests :=
  repeat match goal with H : (_ =? 0) = _ |- _ => rewrite H end.

Section Steps.
Context {World : Type}.
Variable post : World → request → (caught + response) * World.
Variable py_str : json → string.

(** A property every reply of this endpoint has. *)
Variable Good : json → Prop.
Hypothesis Good_reply : ∀ w self prompt url t m,
  Good (generate_response post w self prompt url t m).1.1.

(** The commentary block, when nothing is refused: one call to the
    commentator, with the prompt built from the two names and the two
    replies. *)
Lemma commentary_block_ok round_num response_a response_b (st : state World)
    a b c :
  models (st_self st) !! "model_a" = Some a →
  models (st_self st) !! "model_b" = Some b →
  models (st_self st) !! "commentator" = Some c →
  let prompt :=
    JStr (recent_exchange_text py_str (name (st_store st a)) response_a
            (name (st_store st b)) response_b) in
  let g := generate_response post (st_world st) (st_store st c) prompt
             (base_url (st_self st)) default_temperature default_max_tokens in
  commentary_block post any_text py_str round_num response_a response_b st
  = ({| st_world := g.2;
        st_store := <[c := g.1.2]> (st_store st);
        st_self := st_self st;
        st_calls := st_calls st
                    ++ [Call "commentator" (Some (round_num + 1)) prompt g.1.1];
        st_stdout := st_stdout st
                     ++ [commentary_header (name (st_store st c));
                         commentary_line py_str g.1.1;
                         times "=" 60] |},
     inr ()).
Proof.
  intros Ha Hb Hc prompt g. unfold commentary_block.
  unfold bind at 1. rewrite (get_name_ok _ _ _ Hc). printed.
  unfold bind at 1. erewrite get_name_ok; [|exact Ha].
  unfold bind at 1. erewrite get_name_ok; [|exact Hb]. simpl_state.
  unfold bind at 1. erewrite call_generate_response_ok; [|exact Hc].
  cbv zeta. simpl_state. fold prompt. fold g.
  printed. printed. unfold ret. by rewrite <- !app_assoc.
Qed.

Lemma final_commentary_block_ok initial_topic (st : state World) a b c :
  models (st_self st) !! "model_a" = Some a →
  models (st_self st) !! "model_b" = Some b →
  models (st_self st) !! "commentator" = Some c →
  let prompt :=
    JStr (final_summary_text (name (st_store st a)) (name (st_store st b))
            initial_topic) in
  let g := generate_response post (st_world st) (st_store st c) prompt
             (base_url (st_self st)) default_temperature default_max_tokens in
  final_commentary_block post any_text py_str initial_topic st
  = ({| st_world := g.2;
        st_store := <[c := g.1.2]> (st_store st);
        st_self := st_self st;
        st_calls := st_calls st ++ [Call "commentator" None prompt g.1.1];
        st_stdout := st_stdout st
                     ++ [final_header (name (st_store st c));
                         times "=" 60;
                         fmt py_str g.1.1] |},
     inr ()).
Proof.
  intros Ha Hb Hc prompt g. unfold final_commentary_block.
  unfold bind at 1. rewrite (get_name_ok _ _ _ Hc). printed. printed.
  unfold bind at 1. erewrite get_name_ok; [|exact Ha].
  unfold bind at 1. erewrite get_name_ok; [|exact Hb]. simpl_state.
  unfold bind at 1. erewrite call_generate_response_ok; [|exact Hc].
  cbv zeta. simpl_state. fold prompt. fold g.
  printed. unfold ret. by rewrite <- !app_assoc.
Qed.

(** The first half of an iteration, up to the commentary trigger, when
    nothing is refused: two calls, two records. *)
Lemma primaries_ok round_num current_prompt (st : state World)
    (k : json → json → M World json) :
  is_Some (models (st_self st) !! "model_a") →
  is_Some (models (st_self st) !! "model_b") →
  ∃ ra rb st1,
    (print any_text (round_line (round_num + 1)) ;;;
     print any_text (times "-" 40) ;;;
     a_name <~ get_name "model_a" ;;
     print any_text (speaker_line a_name) ;;;
     response_a <~ call_generate_response post "model_a" (Some (round_num + 1))
                     current_prompt ;;
     print any_text (reply_line py_str response_a) ;;;
     append_turn (Turn (round_num + 1) "model_a" response_a) ;;;
     b_name <~ get_name "model_b" ;;
     print any_text (speaker_line b_name) ;;;
     response_b <~ call_generate_response post "model_b" (Some (round_num + 1))
                     response_a ;;
     print any_text (reply_line py_str response_b) ;;;
     append_turn (Turn (round_num + 1) "model_b" response_b) ;;;
     k response_a response_b)%run st
    = k ra rb st1
    ∧ base_url (st_self st1) = base_url (st_self st)
    ∧ models (st_self st1) = models (st_self st)
    ∧ dialogue_history (st_self st1)
      = dialogue_history (st_self st)
        ++ [Turn (round_num + 1) "model_a" ra; Turn (round_num + 1) "model_b" rb]
    ∧ st_calls st1
      = st_calls st
        ++ [Call "model_a" (Some (round_num + 1)) current_prompt ra;
            Call "model_b" (Some (round_num + 1)) ra rb]
    ∧ Good ra ∧ Good rb.
Proof.
  intros [a Ha] [b Hb]. printed. printed.
  unfold bind at 1. erewrite get_name_ok; [|exact Ha]. simpl_state. printed.
  unfold bind at 1. erewrite call_generate_response_ok; [|exact Ha].
  cbv zeta. simpl_state.
  set (ga := generate_response post _ _ current_prompt _ _ _).
  printed. unfold bind at 1. simpl_state.
  unfold bind at 1. erewrite get_name_ok; [|exact Hb]. simpl_state. printed.
  unfold bind at 1. erewrite call_generate_response_ok; [|exact Hb].
  cbv zeta. simpl_state.
  set (gb := generate_response post _ _ ga.1.1 _ _ _).
  printed. unfold bind at 1. simpl_state.
  eexists ga.1.1, gb.1.1, _. split; [reflexivity|]. simpl_state.
  rewrite <- !app_assoc. repeat split; try done; apply Good_reply.
Qed.
(** One iteration with a non-zero frequency. *)
Lemma round_body_ok commentary_frequency round_num current_prompt
    (st : state World) :
  roles_ok (st_self st) → commentary_frequency ≠ 0 →
  ∃ x st',
    round_body post any_text py_str commentary_frequency round_num current_prompt st
    = (st', inr (reply_b x))
    ∧ base_url (st_self st') = base_url (st_self st)
    ∧ models (st_self st') = models (st_self st)
    ∧ dialogue_history (st_self st')
      = dialogue_history (st_self st) ++ round_turns round_num x
    ∧ st_calls st'
      = st_calls st ++ round_calls commentary_frequency round_num current_prompt x
    ∧ Good (reply_a x) ∧ Good (reply_b x).
Proof.
  intros (Ha & Hb & Hc) HF.
  destruct (primaries_ok round_num current_prompt st
              (λ response_a response_b,
                 m <~ py_mod (round_num + 1) commentary_frequency ;;
                 (if m =? 0
                  then commentary_block post any_text py_str round_num response_a response_b
                  else ret ()) ;;;
                 ret response_b)%run Ha Hb)
    as (ra & rb & st1 & Heq & Hurl & Hmodels & Hturns & Hcalls & Hga & Hgb).
  assert (round_body post any_text py_str commentary_frequency round_num current_prompt st
          = (m <~ py_mod (round_num + 1) commentary_frequency ;;
             (if m =? 0
              then commentary_block post any_text py_str round_num ra rb
              else ret ()) ;;;
             ret rb)%run st1) as -> by exact Heq.
  unfold py_mod. apply Z.eqb_neq in HF. rewrite HF.
  unfold bind at 1. unfold ret at 1. unfold bind at 1.
  unfold round_calls, round_turns.
  destruct ((round_num + 1) mod commentary_frequency =? 0).
  - destruct Ha as [a Ha], Hb as [b Hb], Hc as [c Hc].
    rewrite <- Hmodels in Ha, Hb, Hc.
    rewrite (commentary_block_ok _ _ _ _ _ _ _ Ha Hb Hc). cbv zeta.
    match goal with
    | |- context [Call "commentator" _ ?pc ?rc] =>
        exists (RoundReplies ra rb pc rc)
    end.
    eexists. split; [reflexivity|].
    cbn [st_self st_calls reply_a reply_b commentary_prompt commentary].
    rewrite Hcalls, <- app_assoc. done.
  - exists (RoundReplies ra rb JNull JNull), st1. split; [reflexivity|].
    cbn [reply_a reply_b]. by rewrite app_nil_r.
Qed.

(** One iteration with frequency 0: both primaries answer and are
    recorded, then the trigger's [%] raises. *)
Lemma round_body_zero round_num current_prompt (st : state World) :
  is_Some (models (st_self st) !! "model_a") →
  is_Some (models (st_self st) !! "model_b") →
  ∃ ra rb st',
    round_body post any_text py_str 0 round_num current_prompt st
    = (st', inl ZeroDivisionError)
    ∧ dialogue_history (st_self st')
      = dialogue_history (st_self st)
        ++ [Turn (round_num + 1) "model_a" ra; Turn (round_num + 1) "model_b" rb]
    ∧ st_calls st'
      = st_calls st
        ++ [Call "model_a" (Some (round_num + 1)) current_prompt ra;
            Call "model_b" (Some (round_num + 1)) ra rb].
Proof.
  intros Ha Hb.
  destruct (primaries_ok round_num current_prompt st
              (λ response_a response_b,
                 m <~ py_mod (round_num + 1) 0 ;;
                 (if m =? 0
                  then commentary_block post any_text py_str round_num response_a response_b
                  else ret ()) ;;;
                 ret response_b)%run Ha Hb)
    as (ra & rb & st1 & Heq & _ & _ & Hturns & Hcalls & _).
  exists ra, rb, st1. split; [|done].
  etrans; [exact Heq|]. reflexivity.
Qed.

(** The loop: every iteration returns; the transcript and the calls
    grow by what the iterations add, in order. *)
Lemma for_rounds_ok commentary_frequency rs current_prompt (st : state World) :
  roles_ok (st_self st) → commentary_frequency ≠ 0 →
  ∃ xs st',
    length xs = length rs
    ∧ for_rounds (round_body post any_text py_str commentary_frequency) rs
        current_prompt st
      = (st', inr (prompt_after current_prompt xs))
    ∧ base_url (st_self st') = base_url (st_self st)
    ∧ models (st_self st') = models (st_self st)
    ∧ dialogue_history (st_self st')
      = dialogue_history (st_self st) ++ loop_turns rs xs
    ∧ st_calls st'
      = st_calls st ++ loop_calls commentary_frequency rs current_prompt xs
    ∧ Forall (λ x, Good (reply_a x) ∧ Good (reply_b x)) xs.
Proof.
  intros Hroles HF. revert current_prompt st Hroles.
  induction rs as [|round_num rs IH]; intros current_prompt st Hroles.
  { exists [], st. cbn. rewrite !app_nil_r. repeat split; done. }
  destruct (round_body_ok commentary_frequency round_num current_prompt st
              Hroles HF)
    as (x & st1 & Heq & Hurl & Hmodels & Hturns & Hcalls & Hga & Hgb).
  assert (roles_ok (st_self st1)) as Hroles1.
  { unfold roles_ok. by rewrite Hmodels. }
  destruct (IH (reply_b x) st1 Hroles1)
    as (xs & st' & Hlen & Heq' & Hurl' & Hmodels' & Hturns' & Hcalls' & Hg').
  exists (x :: xs), st'.
  cbn [for_rounds length loop_turns loop_calls]. unfold bind. rewrite Heq, Heq'.
  rewrite Hturns', Hcalls', Hturns, Hcalls, Hurl', Hmodels', <- !app_assoc.
  repeat split; try done.
  - by rewrite Hlen.
  - by rewrite prompt_after_cons.
  - by constructor.
Qed.

(** A whole run with the roles registered and a non-zero frequency. *)
Lemma run_dialogue_ok initial_topic rounds commentary_frequency
    (st : state World) :
  roles_ok (st_self st) → commentary_frequency ≠ 0 →
  ∃ xs final_summary final_commentary st',
    length xs = Z.to_nat rounds
    ∧ run_dialogue post any_text py_str initial_topic rounds commentary_frequency st
      = (st', inr ())
    ∧ dialogue_history (st_self st')
      = dialogue_history (st_self st) ++ loop_turns (seqZ 0 rounds) xs
    ∧ st_calls st'
      = st_calls st
        ++ loop_calls commentary_frequency (seqZ 0 rounds) (JStr initial_topic) xs
        ++ [Call "commentator" None final_summary final_commentary]
    ∧ Forall (λ x, Good (reply_a x) ∧ Good (reply_b x)) xs.
Proof.
  intros Hroles HF. unfold run_dialogue. printed. printed. unfold bind at 1.
  match goal with
  | |- context [for_rounds _ _ _ ?s] =>
      destruct (for_rounds_ok commentary_frequency (seqZ 0 rounds)
                  (JStr initial_topic) s Hroles HF)
        as (xs & st1 & Hlen & Heq & Hurl & Hmodels & Hturns & Hcalls & Hg)
  end.
  cbn [st_self st_calls models dialogue_history] in Hmodels, Hturns, Hcalls.
  destruct Hroles as ([a Ha] & [b Hb] & [c Hc]).
  rewrite <- Hmodels in Ha, Hb, Hc.
  pose proof (final_commentary_block_ok initial_topic st1 a b c Ha Hb Hc) as Hfin.
  cbv zeta in Hfin.
  exists xs. do 3 eexists.
  split; [by rewrite Hlen, length_seqZ|].
  split; [rewrite Heq; exact Hfin|].
  cbn [st_self st_calls]. rewrite Hturns, Hcalls, <- app_assoc. done.
Qed.

(** A run with frequency 0 and at least one round stops in round 1. *)
Lemma run_dialogue_zero initial_topic rounds (st : state World) :
  is_Some (models (st_self st) !! "model_a") →
  is_Some (models (st_self st) !! "model_b") →
  1 ≤ rounds →
  ∃ ra rb st',
    run_dialogue post any_text py_str initial_topic rounds 0 st
    = (st', inl ZeroDivisionError)
    ∧ dialogue_history (st_self st')
      = dialogue_history (st_self st)
        ++ [Turn 1 "model_a" ra; Turn 1 "model_b" rb]
    ∧ st_calls st'
      = st_calls st
        ++ [Call "model_a" (Some 1) (JStr initial_topic) ra;
            Call "model_b" (Some 1) ra rb].
Proof.
  intros Ha Hb HR. unfold run_dialogue. printed. printed. unfold bind at 1.
  rewrite seqZ_cons by lia. cbn [for_rounds]. unfold bind at 1.
  match goal with
  | |- context [round_body _ _ _ _ _ _ ?s] =>
      destruct (round_body_zero 0 (JStr initial_topic) s Ha Hb)
        as (ra & rb & st' & Heq & Hturns & Hcalls)
  end.
  cbn [st_self st_calls models dialogue_history] in Hturns, Hcalls.
  exists ra, rb, st'. split; [|done]. by rewrite Heq.
Qed.
End Steps.
(** ** The shape of the transcript and of the calls *)

Lemma length_loop_turns (rs : list Z) (xs : list round_replies) :
  length xs = length rs → length (loop_turns rs xs) = (2 * length rs)%nat.
Proof.
  revert xs. induction rs as [|r rs IH]; intros [|x xs] Hlen; try done.
  cbn [loop_turns round_turns app length] in *. rewrite IH; lia.
Qed.

(** The record at position [k] belongs to the iteration of index [k / 2];
    the even positions are model_a's. *)
Lemma loop_turns_lookup (rs : list Z) (xs : list round_replies) (k : nat) (t : turn) :
  loop_turns rs xs !! k = Some t →
  ∃ r x, rs !! (k / 2)%nat = Some r ∧ xs !! (k / 2)%nat = Some x
         ∧ t = if Nat.even k
               then Turn (r + 1) "model_a" (reply_a x)
               else Turn (r + 1) "model_b" (reply_b x).
Proof.
  revert xs k. induction rs as [|r rs IH]; intros [|x xs] k H; try done.
  destruct k as [|[|k]].
  - exists r, x. cbn in H. by inversion H.
  - exists r, x. cbn in H. by inversion H.
  - cbn [loop_turns round_turns app] in H. cbn [lookup list_lookup] in H.
    destruct (IH xs k H) as (r' & x' & Hr & Hx & Ht).
    exists r', x'.
    replace (S (S k) / 2)%nat with (S (k / 2)).
    + done.
    + change (S (S k)) with (2 + k)%nat.
      replace (2 + k)%nat with (k + 1 * 2)%nat by lia.
      rewrite Nat.div_add by lia. lia.
Qed.

Lemma loop_turns_rounds (rs : list Z) (xs : list round_replies) :
  length xs = length rs →
  map round (loop_turns rs xs) = flat_map (λ r, [r + 1; r + 1]) rs.
Proof.
  revert xs. induction rs as [|r rs IH]; intros [|x xs] Hlen; try done.
  cbn in *. by rewrite IH by lia.
Qed.

Lemma loop_turns_primary (rs : list Z) (xs : list round_replies) :
  Forall primary_speaker (loop_turns rs xs).
Proof.
  revert xs. induction rs as [|r rs IH]; intros [|x xs]; try constructor.
  - by left.
  - constructor; [by right | apply IH].
Qed.

Lemma loop_turns_said (P : json → Prop) (rs : list Z) (xs : list round_replies) :
  Forall (λ x, P (reply_a x) ∧ P (reply_b x)) xs →
  Forall (λ t, P (said t)) (loop_turns rs xs).
Proof.
  intros H. revert rs. induction H as [|x xs [Ha Hb] _ IH]; intros [|r rs];
    try constructor; [done|].
  constructor; [done | apply IH].
Qed.

Lemma calls_to_app (r : string) (cs1 cs2 : list call) :
  calls_to r (cs1 ++ cs2) = calls_to r cs1 ++ calls_to r cs2.
Proof. apply List.filter_app. Qed.

Lemma calls_to_round_calls (F round_num : Z) (p : json) (x : round_replies) :
  map call_round (calls_to "commentator" (round_calls F round_num p x))
  = if (round_num + 1) mod F =? 0 then [Some (round_num + 1)] else [].
Proof.
  unfold round_calls. rewrite calls_to_app.
  by destruct ((round_num + 1) mod F =? 0).
Qed.

(** The commentator is called in the loop in the rounds the frequency
    divides, once each, in order. *)
Lemma loop_calls_commentator (F : Z) (rs : list Z) (p : json)
    (xs : list round_replies) :
  length xs = length rs →
  map call_round (calls_to "commentator" (loop_calls F rs p xs))
  = map (λ r, Some (r + 1)) (List.filter (λ r, (r + 1) mod F =? 0) rs).
Proof.
  revert p xs. induction rs as [|r rs IH]; intros p [|x xs] Hlen; try done.
  cbn [loop_calls List.filter].
  rewrite calls_to_app, map_app, calls_to_round_calls, IH by (cbn in Hlen; lia).
  by destruct ((r + 1) mod F =? 0).
Qed.

Lemma succ_div_mod (n F : Z) :
  0 < F → 0 ≤ n →
  ((n + 1) mod F = 0 ∧ (n + 1) / F = n / F + 1)
  ∨ ((n + 1) mod F ≠ 0 ∧ (n + 1) / F = n / F).
Proof.
  intros HF Hn.
  pose proof (Z.div_mod n F ltac:(lia)) as Hdm.
  pose proof (Z.mod_pos_bound n F HF) as Hb.
  destruct (decide (n mod F + 1 = F)) as [He|He].
  - left. split; symmetry.
    + apply (Z.mod_unique_pos (n + 1) F (n / F + 1) 0); lia.
    + apply (Z.div_unique_pos (n + 1) F (n / F + 1) 0); lia.
  - right.
    assert ((n + 1) mod F = n mod F + 1) as Hm.
    { symmetry. apply (Z.mod_unique_pos (n + 1) F (n / F)); lia. }
    split; [lia|]. symmetry.
    apply (Z.div_unique_pos (n + 1) F (n / F) (n mod F + 1)); lia.
Qed.

(** The rounds among 1..n that [F] divides are F, 2F, ..., (n / F) F. *)
Lemma multiples_upto (F : Z) (n : nat) :
  0 < F →
  map (λ r, r + 1) (List.filter (λ r, (r + 1) mod F =? 0) (seqZ 0 (Z.of_nat n)))
  = map (λ k, k * F) (seqZ 1 (Z.of_nat n / F)).
Proof.
  intros HF. induction n as [|n IH].
  { rewrite Z.div_0_l by lia. reflexivity. }
  rewrite seqZ_S, List.filter_app, map_app, IH. cbn [List.filter].
  rewrite Z.add_0_l.
  replace (Z.of_nat (S n)) with (Z.of_nat n + 1) by lia.
  destruct (succ_div_mod (Z.of_nat n) F HF ltac:(lia)) as [[Hm ->]|[Hm ->]].
  - rewrite Hm. cbn [Z.eqb map].
    assert (0 ≤ Z.of_nat n / F) as Hq by (apply Z.div_pos; lia).
    rewrite seqZ_app by lia. rewrite map_app. f_equal.
    rewrite seqZ_cons, seqZ_nil by lia. cbn [map]. f_equal.
    pose proof (Z.div_mod (Z.of_nat n + 1) F ltac:(lia)) as Hdm.
    rewrite Hm in Hdm.
    assert ((Z.of_nat n + 1) / F = Z.of_nat n / F + 1) as Hd.
    { destruct (succ_div_mod (Z.of_nat n) F HF ltac:(lia)) as [[_ ?]|[? _]];
        [done|lia]. }
    rewrite Hd in Hdm. lia.
  - apply Z.eqb_neq in Hm. rewrite Hm. cbn [map]. by rewrite app_nil_r.
Qed.

Lemma commentator_rounds (F rounds : Z) (p : json) (xs : list round_replies) :
  0 < F → 0 ≤ rounds → length xs = Z.to_nat rounds →
  map call_round (calls_to "commentator" (loop_calls F (seqZ 0 rounds) p xs))
  = map (λ k, Some (k * F)) (seqZ 1 (rounds / F)).
Proof.
  intros HF HR Hlen.
  rewrite loop_calls_commentator by (by rewrite length_seqZ).
  replace rounds with (Z.of_nat (Z.to_nat rounds)) by lia.
  rewrite <- (map_map (λ r, r + 1) Some), multiples_upto by done.
  by rewrite map_map.
Qed.

Lemma calls_at_app (r : string) (rnd : Z) (cs1 cs2 : list call) :
  calls_at r rnd (cs1 ++ cs2) = calls_at r rnd cs1 ++ calls_at r rnd cs2.
Proof. apply List.filter_app. Qed.

Lemma calls_at_none (r : string) (rnd : Z) (cs : list call) :
  Forall (λ c, call_role c ≠ r ∨ call_round c ≠ Some rnd) cs →
  calls_at r rnd cs = [].
Proof.
  induction 1 as [|c cs Hc _ IH]; [done|].
  unfold calls_at in *. cbn [List.filter]. rewrite IH.
  unfold is_call. rewrite bool_decide_eq_false_2; [done|].
  intros [? ?]. by destruct Hc.
Qed.

Lemma is_call_same (r : string) (rnd : Z) (p q : json) :
  is_call r (Some rnd) (Call r (Some rnd) p q) = true.
Proof. unfold is_call. by apply bool_decide_eq_true_2. Qed.

Lemma is_call_other_role (r r' : string) (rnd rnd' : option Z) (p q : json) :
  r' ≠ r → is_call r rnd (Call r' rnd' p q) = false.
Proof. intros H. unfold is_call. apply bool_decide_eq_false_2. by intros [? ?]. Qed.

Lemma is_call_other_round (r : string) (rnd : option Z) (c : call) :
  call_round c ≠ rnd → is_call r rnd c = false.
Proof. intros H. unfold is_call. apply bool_decide_eq_false_2. by intros [? ?]. Qed.

Lemma calls_at_round_calls_a (F round_num : Z) (p : json) (x : round_replies)
    (rnd : Z) :
  calls_at "model_a" rnd (round_calls F round_num p x)
  = if decide (rnd = round_num + 1)
    then [Call "model_a" (Some rnd) p (reply_a x)]
    else [].
Proof.
  unfold round_calls, calls_at. rewrite List.filter_app. cbn [List.filter].
  rewrite (is_call_other_role "model_a" "model_b") by done.
  replace (List.filter _ (if _ : bool then _ else _)) with (@nil call).
  - destruct (decide (rnd = round_num + 1)) as [->|Hne].
    + by rewrite is_call_same.
    + rewrite is_call_other_round; [done|]. cbn. intros [= ?]. lia.
  - destruct (_ =? 0); [|done]. cbn [List.filter].
    by rewrite (is_call_other_role _ "commentator") by done.
Qed.

Lemma calls_at_round_calls_b (F round_num : Z) (p : json) (x : round_replies)
    (rnd : Z) :
  calls_at "model_b" rnd (round_calls F round_num p x)
  = if decide (rnd = round_num + 1)
    then [Call "model_b" (Some rnd) (reply_a x) (reply_b x)]
    else [].
Proof.
  unfold round_calls, calls_at. rewrite List.filter_app. cbn [List.filter].
  rewrite (is_call_other_role "model_b" "model_a") by done.
  replace (List.filter _ (if _ : bool then _ else _)) with (@nil call).
  - destruct (decide (rnd = round_num + 1)) as [->|Hne].
    + by rewrite is_call_same.
    + rewrite is_call_other_round; [done|]. cbn. intros [= ?]. lia.
  - destruct (_ =? 0); [|done]. cbn [List.filter].
    by rewrite (is_call_other_role _ "commentator") by done.
Qed.

(** The iterations from [m] on make their calls in rounds after [m]. *)
Lemma loop_calls_later (F m n : Z) (p : json) (xs : list round_replies) :
  Forall (λ c, ∃ r, call_round c = Some r ∧ m < r) (loop_calls F (seqZ m n) p xs).
Proof.
  revert m n p. induction xs as [|x xs IH]; intros m n p.
  { destruct (seqZ m n); constructor. }
  destruct (decide (0 < n)) as [Hn|Hn]; [|rewrite seqZ_nil by lia; constructor].
  rewrite seqZ_cons by lia. cbn [loop_calls]. apply Forall_app. split.
  - unfold round_calls. apply Forall_app. split.
    + repeat constructor; eexists; (split; [reflexivity|lia]).
    + destruct (_ =? 0); repeat constructor.
      eexists; (split; [reflexivity|lia]).
  - eapply List.Forall_impl; [|apply IH].
    intros c (r & Hr & Hlt). exists r. split; [done|lia].
Qed.

Lemma calls_at_loop_calls_early (role : string) (F m n rnd : Z) (p : json)
    (xs : list round_replies) :
  rnd ≤ m → calls_at role rnd (loop_calls F (seqZ m n) p xs) = [].
Proof.
  intros Hle. apply calls_at_none.
  eapply List.Forall_impl; [|apply loop_calls_later].
  intros c (r & Hr & Hlt). right. rewrite Hr. intros [= ->]. lia.
Qed.

(** The loop calls model_a exactly once in the round of index [k], with
    the prompt the loop carries at that point. *)
Lemma calls_at_loop_calls_a (F m n : Z) (p : json) (xs : list round_replies)
    (k : nat) :
  length xs = Z.to_nat n →
  calls_at "model_a" (m + Z.of_nat k + 1) (loop_calls F (seqZ m n) p xs)
  = match xs !! k with
    | Some x => [Call "model_a" (Some (m + Z.of_nat k + 1)) (prompt_at p xs k)
                   (reply_a x)]
    | None => []
    end.
Proof.
  revert m n p k. induction xs as [|x xs IH]; intros m n p k Hlen.
  { by destruct (seqZ m n). }
  cbn [length] in Hlen. rewrite seqZ_cons by lia. cbn [loop_calls].
  rewrite calls_at_app, calls_at_round_calls_a.
  destruct k as [|k].
  - rewrite decide_True by lia.
    rewrite calls_at_loop_calls_early by lia.
    cbn [lookup list_lookup app]. unfold prompt_at, prompt_after. cbn [take map List.last].
    by replace (m + Z.of_nat 0 + 1) with (Z.succ m) by lia.
  - rewrite decide_False by lia. cbn [app lookup list_lookup].
    replace (m + Z.of_nat (S k) + 1) with (Z.succ m + Z.of_nat k + 1) by lia.
    rewrite IH by lia.
    unfold prompt_at. cbn [take]. by rewrite prompt_after_cons.
Qed.

(** And model_b exactly once, with model_a's reply of that round. *)
Lemma calls_at_loop_calls_b (F m n : Z) (p : json) (xs : list round_replies)
    (k : nat) :
  length xs = Z.to_nat n →
  calls_at "model_b" (m + Z.of_nat k + 1) (loop_calls F (seqZ m n) p xs)
  = match xs !! k with
    | Some x => [Call "model_b" (Some (m + Z.of_nat k + 1)) (reply_a x) (reply_b x)]
    | None => []
    end.
Proof.
  revert m n p k. induction xs as [|x xs IH]; intros m n p k Hlen.
  { by destruct (seqZ m n). }
  cbn [length] in Hlen. rewrite seqZ_cons by lia. cbn [loop_calls].
  rewrite calls_at_app, calls_at_round_calls_b.
  destruct k as [|k].
  - rewrite decide_True by lia.
    rewrite calls_at_loop_calls_early by lia.
    cbn [lookup list_lookup app].
    by replace (m + Z.of_nat 0 + 1) with (Z.succ m) by lia.
  - rewrite decide_False by lia. cbn [app lookup list_lookup].
    replace (m + Z.of_nat (S k) + 1) with (Z.succ m + Z.of_nat k + 1) by lia.
    by rewrite IH by lia.
Qed.

Lemma prompt_at_succ (p : json) (xs : list round_replies) (k : nat)
    (x : round_replies) :
  xs !! k = Some x → prompt_at p xs (S k) = reply_b x.
Proof.
  intros H. unfold prompt_at, prompt_after.
  rewrite (take_S_r _ _ _ H), map_app. cbn [map]. apply last_last.
Qed.

(** ** The console *)

Section Console.
Context {World : Type}.
Variable post : World → request → (caught + response) * World.
Variable encodable : string → bool.
Variable py_str : json → string.

Lemma agrees_print text :
  agrees (World := World) encodable (print encodable text) (print any_text text).
Proof.
  intros st. exists [text]. split; [done|].
  destruct (encodable text) eqn:He.
  - left. split; [by cbn; rewrite He|]. by rewrite (print_ok _ _ _ He).
  - right. exists [], text, []. rewrite (print_refused _ _ _ He).
    cbn. by rewrite app_nil_r.
Qed.

(** A step that prints nothing is the same step on every console. *)
Lemma agrees_quiet {A} (m : M World A) :
  (∀ st, st_stdout (m st).1 = st_stdout st) → agrees encodable m m.
Proof.
  intros H st. exists []. rewrite app_nil_r. split; [apply H|]. by left.
Qed.

Lemma agrees_bind {A B} (m_e m_a : M World A) (f_e f_a : A → M World B) :
  agrees encodable m_e m_a → (∀ a, agrees encodable (f_e a) (f_a a)) →
  agrees encodable (bind m_e f_e) (bind m_a f_a).
Proof.
  intros Hm Hf st. destruct (Hm st) as (new1 & Hout1 & Hcase1).
  unfold bind. destruct (m_a st) as [st1 [e|a]] eqn:Ha; cbn [fst snd] in *.
  - exists new1. split; [done|]. destruct Hcase1 as [[Hall ->]|Hstop].
    + by left.
    + right. destruct Hstop as (before & text & after & -> & Hb & Ht & Hr & Ho).
      exists before, text, after. destruct (m_e st) as [st' [e'|a']]; by simplify_eq/=.
  - destruct (Hf a st1) as (new2 & Hout2 & Hcase2).
    exists (new1 ++ new2). split; [by rewrite Hout2, Hout1, app_assoc|].
    destruct Hcase1 as [[Hall ->]|Hstop].
    + destruct Hcase2 as [[Hall2 Heq]|Hstop2].
      * left. split; [|done]. rewrite forallb_app. by rewrite Hall, Hall2.
      * right. destruct Hstop2 as (before & text & after & -> & Hb & Ht & Hr & Ho).
        exists (new1 ++ before), text, after.
        rewrite forallb_app, Hall, Hb, Ho, Hout1, <- !app_assoc. done.
    + right. destruct Hstop as (before & text & after & -> & Hb & Ht & Hr & Ho).
      exists before, text, (after ++ new2).
      destruct (m_e st) as [st' [e'|a']]; simplify_eq/=.
      by rewrite <- app_assoc.
Qed.

Lemma get_name_stdout role (st : state World) :
  st_stdout (get_name role st).1 = st_stdout st.
Proof. unfold get_name, bind, get_model. by destruct (_ !! _). Qed.

Lemma call_generate_response_stdout role rnd prompt (st : state World) :
  st_stdout (call_generate_response post role rnd prompt st).1 = st_stdout st.
Proof.
  unfold call_generate_response, bind, get_model.
  destruct (_ !! _); [|done]. by destruct (generate_response _ _ _ _ _ _ _) as [[? ?] ?].
Qed.

Lemma append_turn_stdout t (st : state World) :
  st_stdout (append_turn t st).1 = st_stdout st.
Proof. done. Qed.

Lemma py_mod_stdout a b (st : state World) :
  st_stdout (py_mod a b st).1 = st_stdout st.
Proof. unfold py_mod. by destruct (_ =? _). Qed.

Lemma ret_stdout {A} (a : A) (st : state World) :
  st_stdout (ret a st).1 = st_stdout st.
Proof. done. Qed.

Ltac agree :=
  repeat first
    [ apply agrees_print
    | apply agrees_quiet;
      first [ apply get_name_stdout | apply call_generate_response_stdout
            | apply append_turn_stdout | apply py_mod_stdout | apply ret_stdout ]
    | apply agrees_bind; [|intros ?] ].

Lemma commentary_block_agrees round_num response_a response_b :
  agrees encodable
    (commentary_block post encodable py_str round_num response_a response_b)
    (commentary_block post any_text py_str round_num response_a response_b).
Proof. unfold commentary_block. agree. Qed.

Lemma round_body_agrees commentary_frequency round_num current_prompt :
  agrees encodable
    (round_body post encodable py_str commentary_frequency round_num current_prompt)
    (round_body post any_text py_str commentary_frequency round_num current_prompt).
Proof.
  unfold round_body. agree.
  destruct (_ =? 0); [apply commentary_block_agrees|agree].
Qed.

Lemma for_rounds_agrees (body_e body_a : Z → json → M World json) rs current_prompt :
  (∀ r p, agrees encodable (body_e r p) (body_a r p)) →
  agrees encodable (for_rounds body_e rs current_prompt)
    (for_rounds body_a rs current_prompt).
Proof.
  intros Hbody. revert current_prompt.
  induction rs as [|r rs IH]; intros current_prompt; cbn [for_rounds].
  - agree.
  - apply agrees_bind; [apply Hbody|]. intros p. apply IH.
Qed.

Lemma final_commentary_block_agrees initial_topic :
  agrees encodable (final_commentary_block post encodable py_str initial_topic)
    (final_commentary_block post any_text py_str initial_topic).
Proof. unfold final_commentary_block. agree. Qed.

Lemma run_dialogue_agrees initial_topic rounds commentary_frequency :
  agrees encodable
    (run_dialogue post encodable py_str initial_topic rounds commentary_frequency)
    (run_dialogue post any_text py_str initial_topic rounds commentary_frequency).
Proof.
  unfold run_dialogue.
  apply agrees_bind; [apply agrees_print|intros _].
  apply agrees_bind; [apply agrees_print|intros _].
  apply agrees_bind; [|intros _; apply final_commentary_block_agrees].
  apply for_rounds_agrees. intros r p. apply round_body_agrees.
Qed.

(** On a console that can encode every text the run prints, the run is
    the run on a console that takes every text. *)
Lemma run_on_console initial_topic rounds commentary_frequency (st : state World) :
  can_print encodable post py_str initial_topic rounds commentary_frequency st →
  run_dialogue post encodable py_str initial_topic rounds commentary_frequency st
  = run_dialogue post any_text py_str initial_topic rounds commentary_frequency st.
Proof.
  unfold can_print, texts_of_run. intros Hcan.
  destruct (run_dialogue_agrees initial_topic rounds commentary_frequency st)
    as (new & Hout & [[_ Heq]|Hstop]); [done|].
  destruct Hstop as (before & text & after & -> & _ & Ht & _).
  rewrite Hout, drop_app_length, forallb_app in Hcan. cbn in Hcan.
  rewrite Ht in Hcan. by destruct (forallb encodable before).
Qed.

(** And when it cannot, the run raises [UnicodeEncodeError] at the first
    text that is refused. *)
Lemma run_off_console initial_topic rounds commentary_frequency (st : state World) :
  ¬ can_print encodable post py_str initial_topic rounds commentary_frequency st →
  ∃ before text after,
    texts_of_run post py_str initial_topic rounds commentary_frequency st
    = before ++ text :: after
    ∧ forallb encodable before = true
    ∧ encodable text = false
    ∧ (run_dialogue post encodable py_str initial_topic rounds
         commentary_frequency st).2 = inl (UnicodeEncodeError text)
    ∧ st_stdout (run_dialogue post encodable py_str initial_topic rounds
                   commentary_frequency st).1 = st_stdout st ++ before.
Proof.
  unfold can_print, texts_of_run. intros Hcan.
  destruct (run_dialogue_agrees initial_topic rounds commentary_frequency st)
    as (new & Hout & Hcase).
  rewrite Hout, drop_app_length in *.
  destruct Hcase as [[Hall _]|Hstop]; [done|].
  destruct Hstop as (before & text & after & -> & Hb & Ht & Hr & Ho).
  by exists before, text, after.
Qed.
End Console.
(** ** A run, however it ends *)

Section AnyOutcome.
Context {World : Type}.
Variable post : World → request → (caught + response) * World.
Variable encodable : string → bool.
Variable py_str : json → string.

(** The commentary block makes at most one call, to the commentator, and
    exactly one when it returns; the orchestrator is as it was. *)
Lemma commentary_block_any round_num response_a response_b (st : state World) :
  let out := commentary_block post encodable py_str round_num response_a response_b st in
  st_self out.1 = st_self st
  ∧ ∃ prompt reply,
      let c := Call "commentator" (Some (round_num + 1)) prompt reply in
      (st_calls out.1 = st_calls st ∨ st_calls out.1 = st_calls st ++ [c])
      ∧ (out.2 = inr () → st_calls out.1 = st_calls st ++ [c]).
Proof.
  cbv zeta.
  isolate (commentary_block post encodable py_str round_num response_a response_b st).
  assert (∀ s e, st_self s = st_self st → st_calls s = st_calls st → Q (s, inl e))
    as Hearly.
  { intros s e Hs Hc. subst Q. cbn. split; [done|].
    exists JNull, JNull. split; [by left|done]. }
  assert (∀ s r prompt reply, st_self s = st_self st →
            st_calls s
            = st_calls st ++ [Call "commentator" (Some (round_num + 1)) prompt reply] →
            Q (s, r))
    as Hlate.
  { intros s r prompt reply Hs Hc. subst Q. cbn. split; [done|].
    exists prompt, reply. split; [by right|done]. }
  unfold commentary_block.
  step_name; [|by apply Hearly].
  step_print; [|by apply Hearly].
  step_name; [|by apply Hearly].
  step_name; [|by apply Hearly].
  step_call; [|by apply Hearly].
  step_print; [|by eapply Hlate].
  step_print; [|by eapply Hlate].
  by eapply Hlate.
Qed.

(** One iteration makes the calls of a round, or the first of them, and
    appends the records of a round, or the first of them. *)
Lemma round_body_any commentary_frequency round_num current_prompt
    (st : state World) :
  let out := round_body post encodable py_str commentary_frequency round_num
               current_prompt st in
  ∃ x cs ts,
    st_calls out.1 = st_calls st ++ cs
    ∧ cs `prefix_of` round_calls commentary_frequency round_num current_prompt x
    ∧ dialogue_history (st_self out.1) = dialogue_history (st_self st) ++ ts
    ∧ ts `prefix_of` round_turns round_num x
    ∧ models (st_self out.1) = models (st_self st)
    ∧ base_url (st_self out.1) = base_url (st_self st)
    ∧ (∀ v, out.2 = inr v →
         cs = round_calls commentary_frequency round_num current_prompt x
         ∧ ts = round_turns round_num x
         ∧ v = reply_b x
         ∧ commentary_frequency ≠ 0
         ∧ is_Some (models (st_self st) !! "model_a")
         ∧ is_Some (models (st_self st) !! "model_b")).
Proof.
  cbv zeta.
  isolate (round_body post encodable py_str commentary_frequency round_num
             current_prompt st).
  assert (∀ s e ra rb,
            models (st_self s) = models (st_self st) →
            base_url (st_self s) = base_url (st_self st) →
            (st_calls s = st_calls st
             ∧ dialogue_history (st_self s) = dialogue_history (st_self st))
            ∨ (st_calls s
               = st_calls st
                 ++ [Call "model_a" (Some (round_num + 1)) current_prompt ra]
               ∧ (dialogue_history (st_self s) = dialogue_history (st_self st)
                  ∨ dialogue_history (st_self s)
                    = dialogue_history (st_self st)
                      ++ [Turn (round_num + 1) "model_a" ra]))
            ∨ (st_calls s
               = st_calls st
                 ++ [Call "model_a" (Some (round_num + 1)) current_prompt ra;
                     Call "model_b" (Some (round_num + 1)) ra rb]
               ∧ (dialogue_history (st_self s)
                  = dialogue_history (st_self st)
                    ++ [Turn (round_num + 1) "model_a" ra]
                  ∨ dialogue_history (st_self s)
                    = dialogue_history (st_self st)
                      ++ [Turn (round_num + 1) "model_a" ra;
                          Turn (round_num + 1) "model_b" rb])) →
            Q (s, inl e))
    as Hearly.
  { intros s e ra rb Hm Hu Hcases. subst Q. cbn [fst snd].
    exists (RoundReplies ra rb JNull JNull).
    unfold round_calls, round_turns. cbn [reply_a reply_b app].
    destruct Hcases as [[Hc Ht]|[[Hc Ht]|[Hc Ht]]].
    - exists [], []. rewrite !app_nil_r.
      repeat split; try done; apply prefix_nil.
    - exists [Call "model_a" (Some (round_num + 1)) current_prompt ra].
      destruct Ht as [Ht|Ht].
      + exists []. rewrite app_nil_r.
        repeat split; try done; [by eexists|apply prefix_nil].
      + exists [Turn (round_num + 1) "model_a" ra].
        repeat split; try done; by eexists.
    - exists [Call "model_a" (Some (round_num + 1)) current_prompt ra;
              Call "model_b" (Some (round_num + 1)) ra rb].
      destruct Ht as [Ht|Ht].
      + exists [Turn (round_num + 1) "model_a" ra].
        repeat split; try done; by eexists.
      + exists [Turn (round_num + 1) "model_a" ra; Turn (round_num + 1) "model_b" rb].
        repeat split; try done; by eexists. }
  unfold round_body.
  step_print; [|apply (Hearly _ _ JNull JNull); auto].
  step_print; [|apply (Hearly _ _ JNull JNull); auto].
  step_name; [|apply (Hearly _ _ JNull JNull); auto].
  step_print; [|apply (Hearly _ _ JNull JNull); auto].
  step_call; [|apply (Hearly _ _ JNull JNull); auto].
  match goal with
  | |- context [Call "model_a" _ _ ?r] => set (ra := r)
  end.
  step_print; [|apply (Hearly _ _ ra JNull); auto].
  unfold bind at 1. simpl_state.
  step_name; [|apply (Hearly _ _ ra JNull); auto].
  step_print; [|apply (Hearly _ _ ra JNull); auto].
  step_call; [|apply (Hearly _ _ ra JNull); auto].
  match goal with
  | |- context [Call "model_b" _ _ ?r] => set (rb := r)
  end.
  step_print; [|apply (Hearly _ _ ra rb); rewrite <- ?app_assoc; auto].
  unfold bind at 1. simpl_state. rewrite <- !app_assoc. cbn [app].
  unfold bind at 1. unfold py_mod.
  destruct (commentary_frequency =? 0) eqn:HF.
  { apply (Hearly _ _ ra rb); auto. }
  unfold ret at 1. unfold bind at 1.
  destruct ((round_num + 1) mod commentary_frequency =? 0) eqn:Hm.
  - match goal with
    | |- context [commentary_block ?p ?e ?f ?r ?a ?b ?s] =>
        pose proof (commentary_block_any r a b s) as Hblock;
        destruct (commentary_block p e f r a b s) as [s' [e'|[]]]
    end.
    + cbv zeta in Hblock. cbn [fst snd] in Hblock.
      destruct Hblock as (Hself & pc & rc & [Hc|Hc] & _);
        cbn [st_self st_calls] in Hself, Hc.
      * apply (Hearly _ _ ra rb); rewrite ?Hself, ?Hc; simpl_state; auto.
      * subst Q. cbn [fst snd].
        exists (RoundReplies ra rb pc rc). eexists _, _.
        rewrite Hself, Hc. simpl_state.
        unfold round_calls, round_turns. rewrite Hm.
        cbn [reply_a reply_b commentary_prompt commentary app].
        rewrite <- !app_assoc. cbn [app].
        split; [reflexivity|]. split; [done|]. split; [reflexivity|].
        split; [done|]. split; [done|]. split; [done|]. done.
    + cbv zeta in Hblock. cbn [fst snd] in Hblock.
      destruct Hblock as (Hself & pc & rc & _ & Hc).
      specialize (Hc eq_refl). cbn [st_calls] in Hc.
      subst Q. unfold ret. cbn [fst snd].
      exists (RoundReplies ra rb pc rc). eexists _, _.
      rewrite Hself, Hc. simpl_state.
      unfold round_calls, round_turns. rewrite Hm.
      cbn [reply_a reply_b commentary_prompt commentary app].
      rewrite <- !app_assoc. cbn [app].
      split; [reflexivity|]. split; [done|]. split; [reflexivity|].
      split; [done|]. split; [done|]. split; [done|].
      intros v [= <-]. apply Z.eqb_neq in HF. eauto 10.
  - subst Q. unfold ret. cbn [fst snd]. simpl_state.
    exists (RoundReplies ra rb JNull JNull). eexists _, _.
    unfold round_calls, round_turns. rewrite Hm.
    cbn [reply_a reply_b commentary_prompt commentary app].
    split; [reflexivity|]. split; [done|]. split; [reflexivity|].
    split; [done|]. split; [done|]. split; [done|].
    intros v [= <-]. apply Z.eqb_neq in HF. eauto 10.
Qed.
Lemma final_commentary_block_any initial_topic (st : state World) :
  let out := final_commentary_block post encodable py_str initial_topic st in
  st_self out.1 = st_self st
  ∧ ∃ prompt reply,
      let c := Call "commentator" None prompt reply in
      (st_calls out.1 = st_calls st ∨ st_calls out.1 = st_calls st ++ [c])
      ∧ (out.2 = inr () →
         st_calls out.1 = st_calls st ++ [c] ∧ roles_ok (st_self st)).
Proof.
  cbv zeta.
  isolate (final_commentary_block post encodable py_str initial_topic st).
  assert (∀ s e, st_self s = st_self st → st_calls s = st_calls st → Q (s, inl e))
    as Hearly.
  { intros s e Hs Hc. subst Q. cbn. split; [done|].
    exists JNull, JNull. split; [by left|done]. }
  assert (∀ s r prompt reply, st_self s = st_self st →
            st_calls s = st_calls st ++ [Call "commentator" None prompt reply] →
            roles_ok (st_self st) → Q (s, r))
    as Hlate.
  { intros s r prompt reply Hs Hc Hroles. subst Q. cbn. split; [done|].
    exists prompt, reply. split; [by right|done]. }
  unfold final_commentary_block.
  step_name; [|by apply Hearly].
  step_print; [|by apply Hearly].
  step_print; [|by apply Hearly].
  step_name; [|by apply Hearly].
  step_name; [|by apply Hearly].
  assert (roles_ok (st_self st)) as Hroles by (unfold roles_ok; eauto).
  step_call; [|by apply Hearly].
  step_print; [|by eapply Hlate].
  by eapply Hlate.
Qed.

(** The loop makes the calls of its rounds, or the first of them, and
    appends the records of its rounds, or the first of them. *)
Lemma for_rounds_any commentary_frequency rs current_prompt (st : state World) :
  let out := for_rounds (round_body post encodable py_str commentary_frequency)
               rs current_prompt st in
  ∃ xs cs ts,
    length xs = length rs
    ∧ st_calls out.1 = st_calls st ++ cs
    ∧ cs `prefix_of` loop_calls commentary_frequency rs current_prompt xs
    ∧ dialogue_history (st_self out.1) = dialogue_history (st_self st) ++ ts
    ∧ ts `prefix_of` loop_turns rs xs
    ∧ models (st_self out.1) = models (st_self st)
    ∧ base_url (st_self out.1) = base_url (st_self st)
    ∧ (∀ v, out.2 = inr v →
         cs = loop_calls commentary_frequency rs current_prompt xs
         ∧ ts = loop_turns rs xs
         ∧ v = prompt_after current_prompt xs
         ∧ (rs ≠ [] →
            commentary_frequency ≠ 0
            ∧ is_Some (models (st_self st) !! "model_a")
            ∧ is_Some (models (st_self st) !! "model_b"))).
Proof.
  cbv zeta. revert current_prompt st.
  induction rs as [|round_num rs IH]; intros current_prompt st.
  { exists [], [], []. cbn. rewrite !app_nil_r. repeat split; try done.
    congruence. }
  cbn [for_rounds]. unfold bind.
  pose proof (round_body_any commentary_frequency round_num current_prompt st)
    as Hbody.
  cbv zeta in Hbody.
  destruct (round_body post encodable py_str commentary_frequency round_num
              current_prompt st) as [st1 [e|v]].
  - cbn [fst snd] in *.
    destruct Hbody as (x & cs & ts & Hc & Hcp & Ht & Htp & Hm & Hu & _).
    exists (x :: replicate (length rs) x), cs, ts.
    cbn [length loop_calls loop_turns]. rewrite length_replicate.
    repeat split; try done; by apply prefix_app_r.
  - cbn [fst snd] in Hbody.
    destruct Hbody as (x & cs & ts & Hc & _ & Ht & _ & Hm & Hu & Hret).
    destruct (Hret v eq_refl) as (-> & -> & -> & HF & Ha & Hb).
    destruct (IH (reply_b x) st1)
      as (xs & cs' & ts' & Hlen & Hc' & Hcp' & Ht' & Htp' & Hm' & Hu' & Hret').
    exists (x :: xs), (round_calls commentary_frequency round_num current_prompt x
                       ++ cs'), (round_turns round_num x ++ ts').
    cbn [length loop_calls loop_turns].
    rewrite Hc', Hc, Ht', Ht, Hm', Hm, Hu', Hu, !app_assoc.
    split; [by rewrite Hlen|]. split; [done|].
    split; [by apply prefix_app|]. split; [done|].
    split; [by apply prefix_app|]. split; [done|]. split; [done|].
    intros v' Hv'. destruct (Hret' v' Hv') as (-> & -> & -> & _).
    by rewrite prompt_after_cons.
Qed.

(** A run makes the calls of its rounds and of the final commentary, or
    the first of them, and appends the records of its rounds, or the
    first of them; all of them when it returns. *)
Lemma run_dialogue_any initial_topic rounds commentary_frequency (st : state World) :
  let out := run_dialogue post encodable py_str initial_topic rounds
               commentary_frequency st in
  ∃ xs final_summary final_commentary cs ts,
    let all_calls :=
      loop_calls commentary_frequency (seqZ 0 rounds) (JStr initial_topic) xs
      ++ [Call "commentator" None final_summary final_commentary] in
    length xs = Z.to_nat rounds
    ∧ st_calls out.1 = st_calls st ++ cs
    ∧ cs `prefix_of` all_calls
    ∧ dialogue_history (st_self out.1) = dialogue_history (st_self st) ++ ts
    ∧ ts `prefix_of` loop_turns (seqZ 0 rounds) xs
    ∧ models (st_self out.1) = models (st_self st)
    ∧ base_url (st_self out.1) = base_url (st_self st)
    ∧ (out.2 = inr () →
         cs = all_calls
         ∧ ts = loop_turns (seqZ 0 rounds) xs
         ∧ roles_ok (st_self st)
         ∧ (0 < rounds → commentary_frequency ≠ 0)).
Proof.
  cbv zeta.
  isolate (run_dialogue post encodable py_str initial_topic rounds
             commentary_frequency st).
  assert (∀ s e, st_self s = st_self st → st_calls s = st_calls st → Q (s, inl e))
    as Hearly.
  { intros s e Hs Hc. subst Q. cbn [fst snd].
    exists (replicate (Z.to_nat rounds) (RoundReplies JNull JNull JNull JNull)),
      JNull, JNull, [], [].
    rewrite length_replicate, Hs, Hc, !app_nil_r.
    repeat split; try done; apply prefix_nil. }
  unfold run_dialogue.
  step_print; [|by apply Hearly].
  step_print; [|by apply Hearly].
  unfold bind at 1.
  match goal with
  | |- context [for_rounds ?body ?rs ?p ?s] =>
      pose proof (for_rounds_any commentary_frequency rs p s) as Hloop;
      destruct (for_rounds body rs p s) as [st1 [e|v]]
  end; cbv zeta in Hloop; cbn [fst snd st_self st_calls] in Hloop;
    destruct Hloop
      as (xs & cs & ts & Hlen & Hc & Hcp & Ht & Htp & Hm & Hu & Hret).
  { subst Q. cbn [fst snd]. exists xs, JNull, JNull, cs, ts.
    rewrite length_seqZ in Hlen.
    repeat split; try done. by apply prefix_app_r. }
  destruct (Hret v eq_refl) as (-> & -> & -> & Hloop).
  pose proof (final_commentary_block_any initial_topic st1) as Hfin.
  cbv zeta in Hfin.
  destruct (final_commentary_block post encodable py_str initial_topic st1)
    as [st2 [e|[]]]; cbn [fst snd] in Hfin;
    destruct Hfin as (Hself & fs & fc & Hcases & Hret').
  - subst Q. cbn [fst snd]. exists xs, fs, fc. rewrite length_seqZ in Hlen.
    destruct Hcases as [Hc'|Hc'].
    + eexists _, _. rewrite Hself, Hc', Hc, Ht.
      repeat split; try done. by apply prefix_app_r.
    + eexists _, _. rewrite Hself, Hc', Hc, Ht, <- app_assoc.
      repeat split; done.
  - destruct (Hret' eq_refl) as (Hc' & Hroles).
    subst Q. cbn [fst snd]. exists xs, fs, fc. rewrite length_seqZ in Hlen.
    eexists _, _. rewrite Hself, Hc', Hc, Ht, <- app_assoc.
    split; [done|]. split; [reflexivity|]. split; [done|].
    split; [reflexivity|]. split; [done|]. split; [done|]. split; [done|].
    intros _. split; [done|]. split; [done|].
    split; [unfold roles_ok in *; by rewrite <- Hm|].
    intros HR. apply Hloop. rewrite seqZ_cons by lia. done.
Qed.
End AnyOutcome.
(** ** What a run keeps, however it ends *)

Section Invariants.
Context {World : Type}.
Variable post : World → request → (caught + response) * World.
Variable encodable : string → bool.
Variable py_str : json → string.

(** A property of the state that the console does not touch, kept by the
    two steps of a run that write. *)
Variable Inv : state World → Prop.
Hypothesis Inv_stdout : ∀ st out,
  Inv st →
  Inv {| st_world := st_world st; st_store := st_store st; st_self := st_self st;
         st_calls := st_calls st; st_stdout := out |}.
Hypothesis Inv_call : ∀ role rnd prompt st,
  role ∈ run_roles → Inv st →
  Inv (call_generate_response post role rnd prompt st).1.
Hypothesis Inv_append : ∀ t st,
  primary_speaker t → Inv st → Inv (append_turn t st).1.

Lemma bind_keeps {A B} (m : M World A) (f : A → M World B) (st : state World) :
  Inv (m st).1 → (∀ a st', Inv st' → Inv (f a st').1) → Inv (bind m f st).1.
Proof.
  intros Hm Hf. unfold bind. destruct (m st) as [st' [e|a]]; [done|].
  by apply Hf.
Qed.

Lemma get_name_state role (st : state World) : (get_name role st).1 = st.
Proof.
  unfold get_name, bind, get_model.
  by destruct (models (st_self st) !! role).
Qed.

Lemma py_mod_state a b (st : state World) : (py_mod a b st).1 = st.
Proof. unfold py_mod. by destruct (b =? 0). Qed.

Lemma print_keeps text (st : state World) :
  Inv st → Inv (print encodable text st).1.
Proof.
  intros H. unfold print. destruct (encodable text); [|done]. by apply Inv_stdout.
Qed.

Ltac keep :=
  first
    [ assumption
    | by rewrite get_name_state
    | by rewrite py_mod_state
    | by apply print_keeps
    | apply Inv_call; [unfold run_roles; set_solver|assumption]
    | apply Inv_append; [first [by left|by right]|assumption] ].

Ltac keeps := repeat first [keep | apply bind_keeps; [|intros ? ? ?]].

Lemma commentary_block_keeps round_num response_a response_b (st : state World) :
  Inv st →
  Inv (commentary_block post encodable py_str round_num response_a response_b st).1.
Proof. intros H. unfold commentary_block. keeps. Qed.

Lemma round_body_keeps commentary_frequency round_num current_prompt
    (st : state World) :
  Inv st →
  Inv (round_body post encodable py_str commentary_frequency round_num
         current_prompt st).1.
Proof.
  intros H. unfold round_body. keeps.
  match goal with |- context [if ?b then _ else _] => destruct b end;
    [by apply commentary_block_keeps|done].
Qed.

Lemma for_rounds_keeps commentary_frequency rs current_prompt (st : state World) :
  Inv st →
  Inv (for_rounds (round_body post encodable py_str commentary_frequency) rs
         current_prompt st).1.
Proof.
  revert current_prompt st.
  induction rs as [|round_num rs IH]; intros current_prompt st H; [done|].
  cbn [for_rounds]. apply bind_keeps; [by apply round_body_keeps|].
  intros next st' H'. by apply IH.
Qed.

Lemma final_commentary_block_keeps initial_topic (st : state World) :
  Inv st → Inv (final_commentary_block post encodable py_str initial_topic st).1.
Proof. intros H. unfold final_commentary_block. keeps. Qed.

(** Whether the run returns or raises, the property holds at its end. *)
Lemma run_dialogue_keeps initial_topic rounds commentary_frequency
    (st : state World) :
  Inv st →
  Inv (run_dialogue post encodable py_str initial_topic rounds
         commentary_frequency st).1.
Proof.
  intros H. unfold run_dialogue.
  apply bind_keeps; [by apply print_keeps|]. intros _ st1 H1.
  apply bind_keeps; [by apply print_keeps|]. intros _ st2 H2.
  apply bind_keeps; [by apply for_rounds_keeps|].
  intros _ st' H'. by apply final_commentary_block_keeps.
Qed.
End Invariants.
(** ** The order of the calls *)

Lemma sorted_split {A} (R : A → A → Prop) (l1 l2 : list A) (c1 c2 : A) :
  StronglySorted R (l1 ++ l2) → c1 ∈ l1 → c2 ∈ l2 → R c1 c2.
Proof.
  induction l1 as [|a l1 IH]; intros Hs H1 H2; [by apply elem_of_nil in H1|].
  cbn [app] in Hs. inversion Hs as [|? ? Hs' Hall]; subst.
  apply elem_of_cons in H1 as [->|H1]; [|by apply IH].
  rewrite List.Forall_forall in Hall. apply Hall, list_elem_of_In.
  apply elem_of_app. by right.
Qed.

Lemma sorted_app {A} (R : A → A → Prop) (l1 l2 : list A) :
  StronglySorted R l1 → StronglySorted R l2 →
  (∀ c1 c2, c1 ∈ l1 → c2 ∈ l2 → R c1 c2) →
  StronglySorted R (l1 ++ l2).
Proof.
  induction 1 as [|a l1 Hs IH Hall]; intros H2 Hcross; [done|].
  cbn [app]. constructor.
  - apply IH; [done|]. intros c1 c2 H1 Hc2. apply Hcross; [|done].
    by apply elem_of_cons; right.
  - apply Forall_app. split; [done|].
    rewrite List.Forall_forall. intros c Hc. apply list_elem_of_In in Hc.
    apply Hcross; [|done]. by apply elem_of_cons; left.
Qed.

(** The calls of a round carry its number. *)
Lemma round_calls_round (F round_num : Z) (p : json) (x : round_replies) :
  Forall (λ c, call_round c = Some (round_num + 1)) (round_calls F round_num p x).
Proof.
  unfold round_calls. apply Forall_app. split; [by repeat constructor|].
  destruct (_ =? 0); by repeat constructor.
Qed.

(** The calls of a run are in the order of the rounds. *)
Lemma loop_calls_sorted (F m n : Z) (p : json) (xs : list round_replies)
    (final_summary final_commentary : json) :
  StronglySorted not_later
    (loop_calls F (seqZ m n) p xs
     ++ [Call "commentator" None final_summary final_commentary]).
Proof.
  revert m n p. induction xs as [|x xs IH]; intros m n p.
  { destruct (seqZ m n); repeat constructor. }
  destruct (decide (0 < n)) as [Hn|Hn];
    [|rewrite seqZ_nil by lia; repeat constructor].
  rewrite seqZ_cons by lia. cbn [loop_calls]. rewrite <- app_assoc.
  apply sorted_app; [|apply IH|].
  - pose proof (round_calls_round F m p x) as Hr.
    induction Hr as [|c cs Hc Hcs IHcs]; constructor; [done|].
    eapply List.Forall_impl; [|exact Hcs].
    intros c' Hc' r1 r2 H1 H2. rewrite Hc in H1. rewrite Hc' in H2.
    simplify_eq. lia.
  - intros c1 c2 H1 H2 r1 r2 Hr1 Hr2.
    pose proof (round_calls_round F m p x) as Hr.
    rewrite List.Forall_forall in Hr.
    apply list_elem_of_In in H1. rewrite (Hr c1 H1) in Hr1. simplify_eq.
    apply elem_of_app in H2 as [H2|H2].
    + pose proof (loop_calls_later F (Z.succ m) (Z.pred n) (reply_b x) xs) as Hl.
      rewrite List.Forall_forall in Hl. apply list_elem_of_In in H2.
      destruct (Hl c2 H2) as (r & Hr' & Hlt). rewrite Hr' in Hr2.
      simplify_eq. lia.
    + apply list_elem_of_singleton in H2. subst c2. done.
Qed.

Lemma elem_of_calls_at (role : string) (rnd : Z) (c : call) (cs : list call) :
  c ∈ calls_at role rnd cs
  ↔ c ∈ cs ∧ call_role c = role ∧ call_round c = Some rnd.
Proof.
  unfold calls_at. rewrite !list_elem_of_In, List.filter_In.
  unfold is_call. by rewrite bool_decide_eq_true.
Qed.

(** In the calls a run has made when it stops, wherever it stops: a call
    to model_a in round [r + 1] is the only one of that round; in round
    1 its prompt is the prompt the loop started with; in a later round,
    model_b was called exactly once in round [r] and what it returned
    is that prompt. *)
Lemma prefix_threading (F R : Z) (p : json) (xs : list round_replies)
    (final_summary final_commentary : json) (cs : list call) (r : Z) (c : call) :
  length xs = Z.to_nat R →
  cs `prefix_of` loop_calls F (seqZ 0 R) p xs
                 ++ [Call "commentator" None final_summary final_commentary] →
  0 ≤ r → c ∈ cs → call_role c = "model_a" → call_round c = Some (r + 1) →
  calls_at "model_a" (r + 1) cs = [c]
  ∧ (r = 0 → call_prompt c = p)
  ∧ (1 ≤ r →
     ∃ b_prompt,
       calls_at "model_b" r cs = [Call "model_b" (Some r) b_prompt (call_prompt c)]).
Proof.
  intros Hlen [rest Heq] Hr Hc Hrole Hround.
  pose proof (loop_calls_sorted F 0 R p xs final_summary final_commentary) as Hsorted.
  rewrite Heq in Hsorted.
  assert (∀ role rnd,
            calls_at role rnd (loop_calls F (seqZ 0 R) p xs)
            = calls_at role rnd cs ++ calls_at role rnd rest) as Hat.
  { intros role rnd. rewrite <- calls_at_app, <- Heq, calls_at_app.
    replace (calls_at role rnd
               [Call "commentator" None final_summary final_commentary])
      with (@nil call); [by rewrite app_nil_r|].
    unfold calls_at. cbn [List.filter]. by rewrite is_call_other_round. }
  pose proof (calls_at_loop_calls_a F 0 R p xs (Z.to_nat r) Hlen) as Ha.
  replace (0 + Z.of_nat (Z.to_nat r) + 1) with (r + 1) in Ha by lia.
  rewrite Hat in Ha.
  assert (c ∈ calls_at "model_a" (r + 1) cs) as Hin by (by apply elem_of_calls_at).
  destruct (xs !! Z.to_nat r) as [x|] eqn:Hx.
  2:{ apply app_eq_nil in Ha as [Ha _]. rewrite Ha in Hin.
      by apply elem_of_nil in Hin. }
  apply app_eq_unit in Ha as [[Ha _]|[Ha _]];
    [rewrite Ha in Hin; by apply elem_of_nil in Hin|].
  rewrite Ha in Hin. apply list_elem_of_singleton in Hin.
  split; [by rewrite Ha, Hin|]. subst c. cbn [call_prompt]. split.
  { intros ->. done. }
  intros Hr1.
  destruct (lookup_lt_is_Some_2 xs (Z.to_nat (r - 1))) as [x' Hx'].
  { apply lookup_lt_Some in Hx. lia. }
  replace (Z.to_nat r) with (S (Z.to_nat (r - 1))) by lia.
  rewrite (prompt_at_succ _ _ _ _ Hx').
  pose proof (calls_at_loop_calls_b F 0 R p xs (Z.to_nat (r - 1)) Hlen) as Hb.
  replace (0 + Z.of_nat (Z.to_nat (r - 1)) + 1) with r in Hb by lia.
  rewrite Hat, Hx' in Hb.
  exists (reply_a x').
  apply app_eq_unit in Hb as [[_ Hb]|[Hb _]]; [|done].
  assert (Call "model_b" (Some r) (reply_a x') (reply_b x') ∈ rest) as Hlate.
  { assert (Call "model_b" (Some r) (reply_a x') (reply_b x')
            ∈ calls_at "model_b" r rest) as H' by (rewrite Hb; by left).
    by apply elem_of_calls_at in H' as (H' & _). }
  pose proof (sorted_split _ _ _ _ _ Hsorted Hc Hlate (r + 1) r Hround eq_refl).
  lia.
Qed.
(** ** The requests behind the calls *)

Lemma last_prompt_build_request (self : ModelClient) (prompt : json) (u : string)
    (t : Q) (m : Z) :
  last_prompt (build_request self prompt u t m) = prompt.
Proof.
  unfold last_prompt, build_request, build_messages.
  cbn [json_arg messages]. by rewrite last_last.
Qed.

Section Recorded.
Context {World : Type}.
Variable post : World → request → (caught + response) * World.
Variable encodable : string → bool.
Variable py_str : json → string.

Lemma recording_sent (ws : World * list request) (req : request) :
  (recording post ws req).2.2 = ws.2 ++ [req].
Proof. destruct ws as [w sent]. cbn. by destruct (post w req). Qed.

(** Against the recording endpoint, whether the run returns or raises,
    the calls it made and the requests the endpoint received are the
    same in number and order, each request being its call's. *)
Lemma recording_log initial_topic rounds commentary_frequency
    (st : state (World * list request)) :
  let st' := (run_dialogue (recording post) encodable py_str initial_topic rounds
                commentary_frequency st).1 in
  ∃ new cs,
    (st_world st').2 = (st_world st).2 ++ new
    ∧ st_calls st' = st_calls st ++ cs
    ∧ Forall2 (request_of_call st) new cs
    ∧ Forall (λ req,
                url req = base_url (st_self st) +:+ "/v1/chat/completions"
                ∧ temperature (json_arg req) = default_temperature
                ∧ max_tokens (json_arg req) = default_max_tokens
                ∧ stream (json_arg req) = false
                ∧ headers req = [("Content-Type", "application/json")]) new.
Proof.
  cbv zeta.
  apply (run_dialogue_keeps (recording post) encodable py_str
           (λ st', base_url (st_self st') = base_url (st_self st)
                   ∧ models (st_self st') = models (st_self st)
                   ∧ (∀ l, model_name (st_store st' l) = model_name (st_store st l))
                   ∧ ∃ new cs,
                       (st_world st').2 = (st_world st).2 ++ new
                       ∧ st_calls st' = st_calls st ++ cs
                       ∧ Forall2 (request_of_call st) new cs
                       ∧ Forall (λ req,
                           url req = base_url (st_self st) +:+ "/v1/chat/completions"
                           ∧ temperature (json_arg req) = default_temperature
                           ∧ max_tokens (json_arg req) = default_max_tokens
                           ∧ stream (json_arg req) = false
                           ∧ headers req = [("Content-Type", "application/json")])
                           new)).
  - intros st1 out H. exact H.
  - intros role rnd prompt st1 _ (Hurl & Hmodels & Hnames & new & cs & Hsent & Hcalls
                                  & Htie & Hall).
    destruct (models (st_self st1) !! role) as [client|] eqn:Hlook.
    + rewrite (call_generate_response_ok (recording post) role client rnd prompt
                 st1 Hlook).
      cbn [fst st_self st_world st_calls st_store].
      split; [done|]. split; [done|]. split.
      * intros l. destruct (decide (client = l)) as [->|Hne].
        -- rewrite fn_lookup_insert.
           pose proof (generate_response_identity (recording post) (st_world st1)
                         (st_store st1 l) prompt (base_url (st_self st1))
                         default_temperature default_max_tokens) as Hg.
           cbv zeta in Hg. destruct Hg as (_ & -> & _). apply Hnames.
        -- rewrite fn_lookup_insert_ne by done. apply Hnames.
      * rewrite generate_response_world, recording_sent, Hsent, Hcalls,
          <- !app_assoc.
        eexists _, _. split; [reflexivity|]. split; [reflexivity|]. split.
        -- apply Forall2_app; [done|]. constructor; [|constructor].
           exists client. cbn [call_role call_prompt].
           rewrite <- Hmodels, last_prompt_build_request. split; [done|].
           split; [|done]. cbn [build_request json_arg model]. apply Hnames.
        -- apply Forall_app. split; [done|]. constructor; [|constructor].
           rewrite Hurl. done.
    + rewrite call_generate_response_missing by done.
      cbn [fst]. split; [done|]. split; [done|]. split; [done|]. eauto 10.
  - intros t st1 _ H. exact H.
  - split; [done|]. split; [done|]. split; [done|].
    exists [], []. rewrite !app_nil_r. repeat split; constructor.
Qed.
Lemma generate_response_recording (ws : World * list request) self prompt u t m :
  generate_response (recording post) ws self prompt u t m
  = ((generate_response post ws.1 self prompt u t m).1,
     ((generate_response post ws.1 self prompt u t m).2,
      ws.2 ++ [build_request self prompt u t m])).
Proof.
  destruct ws as [w sent]. unfold generate_response, recording. cbn [fst snd].
  destruct (post w (build_request self prompt u t m)) as [[e|resp] w']; [done|].
  destruct (status resp =? 200); [|done].
  destruct (json_result resp) as [e|result]; [done|].
  by destruct (getpath result content_path).
Qed.

Lemma erases_bind {A B} (m_r : M (World * list request) A) (m : M World A)
    (f_r : A → M (World * list request) B) (f : A → M World B) :
  erases m_r m → (∀ a, erases (f_r a) (f a)) → erases (bind m_r f_r) (bind m f).
Proof.
  intros Hm Hf st. unfold bind. destruct (Hm st) as [H1 H2].
  destruct (m_r st) as [st1_r [e|a]], (m (without_record st)) as [st1 [e'|a']];
    cbn [fst snd] in *; simplify_eq; [done|].
  apply Hf.
Qed.

Lemma erases_print text :
  erases (World := World) (print encodable text) (print encodable text).
Proof. intros st. unfold print. by destruct (encodable text). Qed.

Lemma erases_get_name role :
  erases (World := World) (get_name role) (get_name role).
Proof.
  intros st. unfold get_name, bind, get_model. cbn [without_record st_self].
  by destruct (_ !! _).
Qed.

Lemma erases_call role rnd prompt :
  erases (call_generate_response (recording post) role rnd prompt)
    (call_generate_response post role rnd prompt).
Proof.
  intros st. unfold call_generate_response, bind, get_model.
  cbn [without_record st_self st_world st_store].
  destruct (_ !! _) as [client|]; [|done].
  rewrite generate_response_recording.
  by destruct (generate_response post _ _ _ _ _ _) as [[reply client'] w'].
Qed.

Lemma erases_append t :
  erases (World := World) (append_turn t) (append_turn t).
Proof. by intros st. Qed.

Lemma erases_py_mod a b :
  erases (World := World) (py_mod a b) (py_mod a b).
Proof. intros st. unfold py_mod. by destruct (_ =? _). Qed.

Lemma erases_ret {A} (a : A) :
  erases (World := World) (ret a) (ret a).
Proof. by intros st. Qed.

Ltac erase :=
  repeat first
    [ apply erases_print | apply erases_get_name | apply erases_call
    | apply erases_append | apply erases_py_mod | apply erases_ret
    | apply erases_bind; [|intros ?] ].

Lemma commentary_block_erases round_num response_a response_b :
  erases
    (commentary_block (recording post) encodable py_str round_num response_a
       response_b)
    (commentary_block post encodable py_str round_num response_a response_b).
Proof. unfold commentary_block. erase. Qed.

Lemma round_body_erases commentary_frequency round_num current_prompt :
  erases
    (round_body (recording post) encodable py_str commentary_frequency round_num
       current_prompt)
    (round_body post encodable py_str commentary_frequency round_num
       current_prompt).
Proof.
  unfold round_body. erase.
  destruct (_ =? 0); [apply commentary_block_erases|apply erases_ret].
Qed.

Lemma for_rounds_erases (body_r : Z → json → M (World * list request) json)
    (body : Z → json → M World json) rs current_prompt :
  (∀ r p, erases (body_r r p) (body r p)) →
  erases (for_rounds body_r rs current_prompt) (for_rounds body rs current_prompt).
Proof.
  intros Hbody. revert current_prompt.
  induction rs as [|r rs IH]; intros current_prompt; cbn [for_rounds].
  - apply erases_ret.
  - apply erases_bind; [apply Hbody|]. intros p. apply IH.
Qed.

Lemma final_commentary_block_erases initial_topic :
  erases (final_commentary_block (recording post) encodable py_str initial_topic)
    (final_commentary_block post encodable py_str initial_topic).
Proof. unfold final_commentary_block. erase. Qed.

(** The run against the recording endpoint is the run against the
    endpoint itself, with the record kept aside. *)
Lemma run_dialogue_erases initial_topic rounds commentary_frequency :
  erases
    (run_dialogue (recording post) encodable py_str initial_topic rounds
       commentary_frequency)
    (run_dialogue post encodable py_str initial_topic rounds commentary_frequency).
Proof.
  unfold run_dialogue.
  apply erases_bind; [apply erases_print|intros _].
  apply erases_bind; [apply erases_print|intros _].
  apply erases_bind; [|intros _; apply final_commentary_block_erases].
  apply for_rounds_erases. intros r p. apply round_body_erases.
Qed.

(** What the endpoint received during a run, had it kept a record: one
    request for each call of the run, in order. *)
Lemma requests_behind_the_calls w store o calls out initial_topic rounds
    commentary_frequency :
  let run := run_dialogue post encodable py_str initial_topic rounds
               commentary_frequency (State w store o calls out) in
  let observed := run_dialogue (recording post) encodable py_str initial_topic
                    rounds commentary_frequency (State (w, []) store o calls out) in
  without_record observed.1 = run.1
  ∧ observed.2 = run.2
  ∧ ∃ made,
      st_calls run.1 = calls ++ made
      ∧ Forall2 (request_of_call (State w store o calls out))
          (st_world observed.1).2 made.
Proof.
  intros run observed.
  destruct (run_dialogue_erases initial_topic rounds commentary_frequency
              (State (w, []) store o calls out)) as [Hstate Hresult].
  fold observed in Hstate, Hresult.
  change (without_record (State (w, []) store o calls out))
    with (State w store o calls out) in Hstate, Hresult.
  fold run in Hstate, Hresult.
  split; [done|]. split; [done|].
  destruct (recording_log initial_topic rounds commentary_frequency
              (State (w, []) store o calls out))
    as (new & cs & Hsent & Hlog & Htie & _).
  fold observed in Hsent, Hlog. cbn [st_world st_calls snd app] in Hsent, Hlog.
  exists cs. rewrite <- Hstate. cbn [without_record st_calls].
  split; [done|]. rewrite Hsent.
  clear -Htie.
  induction Htie as [|req c new cs (client & H1 & H2 & H3) _ IH];
    constructor; [by exists client|done].
Qed.
End Recorded.
(** ** Runs *)

Lemma calls_at_run (role : string) (rnd : Z) (F R : Z) (p : json)
    (xs : list round_replies) (final_summary final_commentary : json) :
  calls_at role rnd
    ([] ++ loop_calls F (seqZ 0 R) p xs
        ++ [Call "commentator" None final_summary final_commentary])
  = calls_at role rnd (loop_calls F (seqZ 0 R) p xs).
Proof.
  cbn [app]. rewrite calls_at_app. unfold calls_at at 2. cbn [List.filter].
  rewrite is_call_other_round by done. apply app_nil_r.
Qed.

Lemma roles_of_loop_calls (F : Z) (rs : list Z) (p : json)
    (xs : list round_replies) :
  length xs = length rs →
  map call_role (loop_calls F rs p xs)
  = flat_map (λ r, "model_a" :: "model_b"
                   :: (if (r + 1) mod F =? 0 then ["commentator"] else [])) rs.
Proof.
  revert p xs. induction rs as [|r rs IH]; intros p [|x xs] Hlen; try done.
  cbn [loop_calls flat_map]. unfold round_calls.
  rewrite !map_app, IH by (cbn in Hlen; lia). cbn [map app call_role].
  by destruct ((r + 1) mod F =? 0).
Qed.

(** What a completed call leaves in the memory. *)
Lemma completed_call {World : Type}
    (post : World → request → (caught + response) * World)
    w self prompt url t m reply :
  completion_content (post w (build_request self prompt url t m)).1 = Some reply →
  let out := generate_response post w self prompt url t m in
  let memory := conversation_history out.1.2 in
  out.1.1 = reply
  ∧ memory = slice_last 20 (conversation_history self
                            ++ [Message "user" prompt; Message "assistant" reply])
  ∧ (length memory ≤ 20)%nat
  ∧ slice_last 2 memory = [Message "user" prompt; Message "assistant" reply]
  ∧ name out.1.2 = name self
  ∧ model_name out.1.2 = model_name self
  ∧ system_prompt out.1.2 = system_prompt self.
Proof.
  intros Hreply out memory.
  pose proof (generate_response_cases post w self prompt url t m) as H.
  cbv zeta in H. rewrite Hreply in H. subst memory out. rewrite H.
  cbn [fst snd set_history conversation_history name model_name system_prompt].
  rewrite update_history_slice. unfold turns_of. cbn [fst snd].
  split; [done|]. split; [done|]. split; [rewrite length_slice_last; lia|].
  split; [|done].
  unfold slice_last. rewrite length_drop, drop_drop, length_app. cbn [length].
  rewrite drop_app_length'; [done|lia].
Qed.

Lemma slice_last_keeps_two {A} (l : list A) (a b : A) :
  ∃ older, slice_last 20 (l ++ [a; b]) = older ++ [a; b].
Proof.
  unfold slice_last. rewrite length_app. cbn [length].
  exists (drop (length l + 2 - 20) l). by rewrite drop_app_le by lia.
Qed.

(** When the transport always fails, every reply is an error string. *)
Lemma refused_reply {World : Type}
    (post : World → request → (caught + response) * World) :
  (∀ w req, ∃ e, (post w req).1 = inl e) →
  ∀ w self prompt url t m,
    error_string (generate_response post w self prompt url t m).1.1.
Proof.
  intros Hrefuse w self prompt url t m.
  pose proof (generate_response_cases post w self prompt url t m) as H.
  cbv zeta in H.
  destruct (Hrefuse w (build_request self prompt url t m)) as [e He].
  rewrite He in H. cbn [completion_content] in H.
  destruct H as [e' ->]. by exists e'.
Qed.

Lemma any_reply_good {World : Type}
    (post : World → request → (caught + response) * World) :
  ∀ w self prompt url t m,
    (λ _ : json, True) (generate_response post w self prompt url t m).1.1.
Proof. done. Qed.

Section Run.
Context {World : Type}.
Variable post : World → request → (caught + response) * World.
Variable encodable : string → bool.
Variable py_str : json → string.

(** Whether a run returns or raises, what it adds to the transcript are
    records of model_a and model_b. *)
Lemma run_appends_primaries initial_topic rounds commentary_frequency
    (st : state World) :
  let st' := (run_dialogue post encodable py_str initial_topic rounds
                commentary_frequency st).1 in
  ∃ added,
    dialogue_history (st_self st') = dialogue_history (st_self st) ++ added
    ∧ Forall primary_speaker added.
Proof.
  apply (run_dialogue_keeps post encodable py_str
           (λ st', ∃ added,
              dialogue_history (st_self st') = dialogue_history (st_self st) ++ added
              ∧ Forall primary_speaker added)).
  - intros st1 out H. exact H.
  - intros role rnd prompt st1 _ H.
    destruct (models (st_self st1) !! role) as [client|] eqn:Hlook.
    + by rewrite (call_generate_response_ok post role client rnd prompt st1 Hlook).
    + by rewrite call_generate_response_missing.
  - intros t st1 Ht (added & Heq & Hall). exists (added ++ [t]).
    cbn [append_turn fst st_self dialogue_history].
    rewrite Heq, <- app_assoc. split; [done|].
    apply Forall_app. split; [done|]. by constructor.
  - exists []. by rewrite app_nil_r.
Qed.

(** C2, as amended.  A run of [R] rounds, with the three roles
    registered, a frequency that is not zero and a console that can
    encode every text the run prints, returns, and it appends exactly
    [2R] records to the transcript; an orchestrator as constructed has an
    empty transcript, and the transcript is then these [2R] records.
    The record at position [k] (from 0) of them is model_a's when [k] is
    even and model_b's when odd; its round field is [k / 2 + 1], the
    round that appended it: its content is what the one call to that
    speaker in that round returned.  The round fields never decrease. *)
Theorem transcript_ordering w store o out initial_topic R F :
  roles_ok o → 0 ≤ R → F ≠ 0 →
  can_print encodable post py_str initial_topic R F (State w store o [] out) →
  let run := run_dialogue post encodable py_str initial_topic R F
               (State w store o [] out) in
  let transcript := dialogue_history (st_self run.1) in
  run.2 = inr ()
  ∧ ∃ added,
      transcript = dialogue_history o ++ added
      ∧ (dialogue_history o = [] → transcript = added)
      ∧ Z.of_nat (length added) = 2 * R
      ∧ (∀ k t, added !! k = Some t →
           speaker t = (if Nat.even k then "model_a" else "model_b")
           ∧ round t = Z.of_nat (k / 2) + 1
           ∧ ∃ prompt, calls_at (speaker t) (round t) (st_calls run.1)
                       = [Call (speaker t) (Some (round t)) prompt (said t)])
      ∧ (∀ i j ti tj, (i ≤ j)%nat →
           added !! i = Some ti → added !! j = Some tj →
           round ti ≤ round tj).
Proof.
  intros Hroles HR HF Hcan run transcript.
  destruct (run_dialogue_ok post py_str _ (any_reply_good post) initial_topic R F
              (State w store o [] out) Hroles HF)
    as (xs & fs & fc & st' & Hlen & Heq & Hturns & Hcalls & _).
  cbn [st_self st_calls] in Hturns, Hcalls.
  subst transcript run. rewrite (run_on_console _ _ _ _ _ _ _ Hcan), Heq.
  cbn [fst snd].
  split; [done|]. exists (loop_turns (seqZ 0 R) xs).
  assert (∀ k t, loop_turns (seqZ 0 R) xs !! k = Some t →
            speaker t = (if Nat.even k then "model_a" else "model_b")
            ∧ round t = Z.of_nat (k / 2) + 1
            ∧ ∃ prompt, calls_at (speaker t) (round t) (st_calls st')
                        = [Call (speaker t) (Some (round t)) prompt (said t)])
    as Hshape.
  { intros k t Hk.
    destruct (loop_turns_lookup _ _ _ _ Hk) as (r & x & Hr & Hx & Ht).
    apply lookup_seqZ in Hr as [-> _].
    rewrite Hcalls, calls_at_run.
    destruct (Nat.even k); subst t; cbn [speaker round said];
      (split; [done|]); (split; [lia|]).
    - rewrite calls_at_loop_calls_a, Hx by done. eauto.
    - rewrite calls_at_loop_calls_b, Hx by done. eauto. }
  split; [done|]. split; [intros He; by rewrite Hturns, He|].
  split; [|split; [done|]].
  - rewrite length_loop_turns, length_seqZ by (by rewrite length_seqZ). lia.
  - intros i j ti tj Hij Hi Hj.
    destruct (Hshape i ti Hi) as (_ & -> & _).
    destruct (Hshape j tj Hj) as (_ & -> & _).
    pose proof (Nat.Div0.div_le_mono i j 2 Hij). lia.
Qed.

(** C3, as amended.  A run of [R] rounds with a positive commentary
    frequency [F], the three roles registered, on a console that can
    encode every text the run prints, returns.  Its calls are, in order,
    model_a's and model_b's in each round, followed in the rounds that
    [F] divides by one to the commentator, and one more to the
    commentator after the loop: the calls to the commentator are those
    of the rounds F, 2F, ..., floor(R / F) F, that is floor(R / F) of
    them, and then exactly one.  Each of these calls is a request the
    endpoint receives: against the same endpoint keeping a record of
    what it is sent, the run is the same run, and the record holds one
    request for each call, in the same order, naming the model of the
    client under the call's role and carrying the call's prompt. *)
Theorem commentary_cadence w store o out initial_topic R F :
  roles_ok o → 0 ≤ R → 0 < F →
  can_print encodable post py_str initial_topic R F (State w store o [] out) →
  let run := run_dialogue post encodable py_str initial_topic R F
               (State w store o [] out) in
  let observed := run_dialogue (recording post) encodable py_str initial_topic R F
                    (State (w, []) store o [] out) in
  let commentator_calls := calls_to "commentator" (st_calls run.1) in
  run.2 = inr ()
  ∧ map call_role (st_calls run.1)
    = flat_map (λ r, "model_a" :: "model_b"
                     :: (if (r + 1) mod F =? 0 then ["commentator"] else []))
        (seqZ 0 R)
      ++ ["commentator"]
  ∧ map call_round commentator_calls
    = map (λ k, Some (k * F)) (seqZ 1 (R / F)) ++ [None]
  ∧ Z.of_nat (length commentator_calls) = R / F + 1
  ∧ without_record observed.1 = run.1
  ∧ observed.2 = run.2
  ∧ Forall2 (request_of_call (State w store o [] out))
      (st_world observed.1).2 (st_calls run.1).
Proof.
  intros Hroles HR HF Hcan run observed commentator_calls.
  destruct (requests_behind_the_calls post encodable py_str w store o [] out
              initial_topic R F) as (Hsame & Hresult & made & Hmade & Htie).
  fold run in Hsame, Hresult, Hmade. fold observed in Hsame, Hresult, Htie.
  cbn [app] in Hmade. rewrite <- Hmade in Htie.
  destruct (run_dialogue_ok post py_str _ (any_reply_good post) initial_topic R F
              (State w store o [] out) Hroles ltac:(lia))
    as (xs & fs & fc & st' & Hlen & Heq & _ & Hcalls & _).
  assert (run = (st', inr ())) as Hrun.
  { subst run. by rewrite (run_on_console _ _ _ _ _ _ _ Hcan). }
  clearbody run observed. subst run. cbn [fst snd] in *.
  subst commentator_calls.
  assert (map call_round (calls_to "commentator" (st_calls st'))
          = map (λ k, Some (k * F)) (seqZ 1 (R / F)) ++ [None]) as Hrounds.
  { rewrite Hcalls. cbn [st_calls app].
    rewrite calls_to_app, map_app, commentator_rounds by done. done. }
  split; [done|]. split.
  { rewrite Hcalls. cbn [st_calls app].
    rewrite map_app, roles_of_loop_calls by (by rewrite length_seqZ). done. }
  split; [done|]. split; [|done].
  rewrite <- (length_map call_round), Hrounds, length_app, length_map, length_seqZ.
  assert (0 ≤ R / F) by (apply Z.div_pos; lia). cbn [length]. lia.
Qed.

(** C4. In the calls of a run, however the run ends and whatever is
    registered: a call to model_a in round 1 has the initial topic
    itself as prompt; and for [r] from 1 on, a call to model_a in round
    [r + 1] is the only one of that round, model_b was called exactly
    once in round [r], and what model_b returned then is the prompt of
    that call.  Each call is a request the endpoint receives: against
    the same endpoint keeping a record of what it is sent, the run is
    the same run, and the record holds one request for each call, in
    order, whose last message carries the call's prompt.  With the three
    roles registered, a frequency that is not zero and a console that
    can encode every text the run prints, the run returns and these
    calls are all made: model_a is called once in round 1, and for
    every [r] from 1 to [R - 1] model_b once in round [r] and model_a
    once in round [r + 1]. *)
Theorem prompt_threading w store o out initial_topic R F :
  let run := run_dialogue post encodable py_str initial_topic R F
               (State w store o [] out) in
  let observed := run_dialogue (recording post) encodable py_str initial_topic R F
                    (State (w, []) store o [] out) in
  let calls := st_calls run.1 in
  (∀ c, c ∈ calls → call_role c = "model_a" → call_round c = Some 1 →
     call_prompt c = JStr initial_topic)
  ∧ (∀ r c, 1 ≤ r → c ∈ calls →
       call_role c = "model_a" → call_round c = Some (r + 1) →
       calls_at "model_a" (r + 1) calls = [c]
       ∧ ∃ b_prompt,
           calls_at "model_b" r calls
           = [Call "model_b" (Some r) b_prompt (call_prompt c)])
  ∧ (without_record observed.1 = run.1
     ∧ observed.2 = run.2
     ∧ Forall2 (request_of_call (State w store o [] out))
         (st_world observed.1).2 calls)
  ∧ (roles_ok o → 0 ≤ R → F ≠ 0 →
     can_print encodable post py_str initial_topic R F (State w store o [] out) →
     run.2 = inr ()
     ∧ (1 ≤ R →
        ∃ reply, calls_at "model_a" 1 calls
                 = [Call "model_a" (Some 1) (JStr initial_topic) reply])
     ∧ (∀ r, 1 ≤ r ≤ R - 1 →
        ∃ b_prompt b_reply a_reply,
          calls_at "model_b" r calls = [Call "model_b" (Some r) b_prompt b_reply]
          ∧ calls_at "model_a" (r + 1) calls
            = [Call "model_a" (Some (r + 1)) b_reply a_reply])).
Proof.
  intros run observed calls.
  destruct (run_dialogue_any post encodable py_str initial_topic R F
              (State w store o [] out))
    as (xs & fs & fc & cs & ts & Hlen & Hcs & Hprefix & _).
  cbn [st_calls app] in Hcs. fold run in Hcs. fold calls in Hcs.
  rewrite <- Hcs in Hprefix.
  split; [|split; [|split]].
  - intros c Hc Hrole Hround.
    by destruct (prefix_threading F R (JStr initial_topic) xs fs fc calls 0 c
                   Hlen Hprefix ltac:(lia) Hc Hrole Hround) as (_ & H & _); auto.
  - intros r c Hr Hc Hrole Hround.
    destruct (prefix_threading F R (JStr initial_topic) xs fs fc calls r c
                Hlen Hprefix ltac:(lia) Hc Hrole Hround) as (H1 & _ & H2).
    auto.
  - destruct (requests_behind_the_calls post encodable py_str w store o [] out
                initial_topic R F) as (Hsame & Hresult & made & Hmade & Htie).
    fold run in Hsame, Hresult, Hmade. fold observed in Hsame, Hresult, Htie.
    cbn [app] in Hmade. fold calls in Hmade. by rewrite <- Hmade in Htie.
  - intros Hroles HR HF Hcan. clear Hcs Hprefix Hlen xs fs fc cs ts.
    destruct (run_dialogue_ok post py_str _ (any_reply_good post) initial_topic
                R F (State w store o [] out) Hroles HF)
      as (xs & fs & fc & st' & Hlen & Heq & _ & Hcalls & _).
    cbn [st_calls] in Hcalls.
    subst calls run. rewrite (run_on_console _ _ _ _ _ _ _ Hcan), Heq.
    cbn [fst snd]. rewrite Hcalls.
    split; [done|]. split.
    + intros H1. rewrite calls_at_run.
      pose proof (calls_at_loop_calls_a F 0 R (JStr initial_topic) xs 0 Hlen) as Ha.
      change (0 + Z.of_nat 0 + 1) with 1 in Ha. rewrite Ha.
      destruct xs as [|x xs]; [cbn [length] in Hlen; lia|].
      cbn [lookup list_lookup]. by exists (reply_a x).
    + intros r Hr. rewrite !calls_at_run.
      pose proof (calls_at_loop_calls_b F 0 R (JStr initial_topic) xs
                    (Z.to_nat (r - 1)) Hlen) as Hb.
      pose proof (calls_at_loop_calls_a F 0 R (JStr initial_topic) xs
                    (Z.to_nat r) Hlen) as Ha.
      replace (0 + Z.of_nat (Z.to_nat (r - 1)) + 1) with r in Hb by lia.
      replace (0 + Z.of_nat (Z.to_nat r) + 1) with (r + 1) in Ha by lia.
      rewrite Ha, Hb.
      destruct (lookup_lt_is_Some_2 xs (Z.to_nat (r - 1)) ltac:(lia)) as [xb Hxb].
      destruct (lookup_lt_is_Some_2 xs (Z.to_nat r) ltac:(lia)) as [xa Hxa].
      rewrite Hxa, Hxb.
      exists (reply_a xb), (reply_b xb), (reply_a xa). split; [done|].
      replace (Z.to_nat r) with (S (Z.to_nat (r - 1))) by lia.
      by rewrite (prompt_at_succ _ _ _ _ Hxb).
Qed.

(** C9, as amended.  With a commentary frequency of 0 and at least one
    round, model_a and model_b registered, on a console that can encode
    every text the run prints, the run raises [ZeroDivisionError]; by
    then exactly the two calls of round 1 have been made and their two
    records appended, and nothing else has happened. *)
Theorem zero_frequency_raises_in_round_one w store o out initial_topic R :
  is_Some (models o !! "model_a") → is_Some (models o !! "model_b") → 1 ≤ R →
  can_print encodable post py_str initial_topic R 0 (State w store o [] out) →
  let run := run_dialogue post encodable py_str initial_topic R 0
               (State w store o [] out) in
  ∃ ra rb,
    run.2 = inl ZeroDivisionError
    ∧ dialogue_history (st_self run.1)
      = dialogue_history o ++ [Turn 1 "model_a" ra; Turn 1 "model_b" rb]
    ∧ st_calls run.1
      = [Call "model_a" (Some 1) (JStr initial_topic) ra;
         Call "model_b" (Some 1) ra rb].
Proof.
  intros Ha Hb HR Hcan run.
  destruct (run_dialogue_zero post py_str _ (any_reply_good post) initial_topic R
              (State w store o [] out) Ha Hb HR)
    as (ra & rb & st' & Heq & Hturns & Hcalls).
  exists ra, rb. subst run. rewrite (run_on_console _ _ _ _ _ _ _ Hcan), Heq.
  by cbn [fst snd].
Qed.

(** C5, as amended.  When every network call fails at the transport, a
    run of [R] rounds (roles registered, frequency not zero), on a
    console that can encode every text the run prints, still returns
    without an exception; it appends exactly [2R] records to the
    transcript (the whole transcript, when it was empty at the start),
    two for each of the rounds 1..R in order, and the content of every
    one is an error string. *)
Theorem failures_do_not_stop_the_run w store o out initial_topic R F :
  roles_ok o → 0 ≤ R → F ≠ 0 →
  (∀ w req, ∃ e, (post w req).1 = inl e) →
  can_print encodable post py_str initial_topic R F (State w store o [] out) →
  let run := run_dialogue post encodable py_str initial_topic R F
               (State w store o [] out) in
  let transcript := dialogue_history (st_self run.1) in
  run.2 = inr ()
  ∧ ∃ added,
      transcript = dialogue_history o ++ added
      ∧ (dialogue_history o = [] → transcript = added)
      ∧ Z.of_nat (length added) = 2 * R
      ∧ map round added = flat_map (λ r, [r + 1; r + 1]) (seqZ 0 R)
      ∧ Forall (λ t, error_string (said t)) added.
Proof.
  intros Hroles HR HF Hrefuse Hcan run transcript.
  destruct (run_dialogue_ok post py_str _ (refused_reply post Hrefuse) initial_topic
              R F (State w store o [] out) Hroles HF)
    as (xs & fs & fc & st' & Hlen & Heq & Hturns & _ & Hgood).
  cbn [st_self] in Hturns.
  subst transcript run. rewrite (run_on_console _ _ _ _ _ _ _ Hcan), Heq.
  cbn [fst snd].
  split; [done|]. exists (loop_turns (seqZ 0 R) xs).
  split; [done|]. split; [intros He; by rewrite Hturns, He|].
  split; [|split].
  - rewrite length_loop_turns, length_seqZ by (by rewrite length_seqZ). lia.
  - apply loop_turns_rounds. by rewrite length_seqZ.
  - by apply (loop_turns_said error_string).
Qed.

(** C8. The commentary block, whether it returns or raises, leaves the
    orchestrator, its transcript included, exactly as it was.  When the
    roles are registered and the console can encode the heading, the
    block makes one call, to the commentator, with the prompt built from
    the two replies.  When the endpoint answers that call with a
    well-formed completion, the commentator's memory is its old
    entries, the prompt as a "user" turn and the reply as an
    "assistant" turn, cut to the last 20: at most 20 entries, the last
    two being these two turns; otherwise the memory is as it was.  The block
    returns when the console can encode the commentary line and the
    rule.  Over a whole run, however it ends, every record added to the
    transcript is model_a's or model_b's. *)
Theorem commentary_leaves_transcript round_num response_a response_b
    (st : state World) :
  let block := commentary_block post encodable py_str round_num response_a
                 response_b st in
  (st_self block.1 = st_self st
   ∧ dialogue_history (st_self block.1) = dialogue_history (st_self st))
  ∧ (∀ a b c,
       models (st_self st) !! "model_a" = Some a →
       models (st_self st) !! "model_b" = Some b →
       models (st_self st) !! "commentator" = Some c →
       encodable (commentary_header (name (st_store st c))) = true →
       let prompt :=
         JStr (recent_exchange_text py_str (name (st_store st a)) response_a
                 (name (st_store st b)) response_b) in
       let answer :=
         (post (st_world st)
            (build_request (st_store st c) prompt (base_url (st_self st))
               default_temperature default_max_tokens)).1 in
       let old := conversation_history (st_store st c) in
       let memory := conversation_history (st_store block.1 c) in
       ∃ commentary,
         st_calls block.1
         = st_calls st ++ [Call "commentator" (Some (round_num + 1)) prompt commentary]
         ∧ (∀ reply, completion_content answer = Some reply →
              commentary = reply
              ∧ memory = slice_last 20 (old ++ [Message "user" prompt;
                                                Message "assistant" reply])
              ∧ (length memory ≤ 20)%nat
              ∧ (∃ older, memory = older ++ [Message "user" prompt;
                                             Message "assistant" reply]))
         ∧ (completion_content answer = None →
              error_string commentary ∧ memory = old)
         ∧ (encodable (commentary_line py_str commentary) = true →
            encodable (times "=" 60) = true →
            block.2 = inr ()))
  ∧ (∀ initial_topic R F,
       let run := run_dialogue post encodable py_str initial_topic R F st in
       ∃ added,
         dialogue_history (st_self run.1) = dialogue_history (st_self st) ++ added
         ∧ Forall primary_speaker added).
Proof.
  intros block. split; [|split].
  - destruct (commentary_block_any post encodable py_str round_num response_a
                response_b st) as (Hself & _).
    fold block in Hself. by rewrite Hself.
  - intros a b c Ha Hb Hc He prompt answer old memory.
    pose (g := generate_response post (st_world st) (st_store st c) prompt
                 (base_url (st_self st)) default_temperature default_max_tokens).
    exists g.1.1.
    assert (st_calls block.1
            = st_calls st ++ [Call "commentator" (Some (round_num + 1)) prompt g.1.1]
            ∧ st_store block.1 = <[c := g.1.2]> (st_store st)
            ∧ (encodable (commentary_line py_str g.1.1) = true →
               encodable (times "=" 60) = true → block.2 = inr ()))
      as (Hcalls & Hstore & Hret).
    { subst block.
      isolate (commentary_block post encodable py_str round_num response_a
                 response_b st).
      unfold commentary_block.
      unfold bind at 1. rewrite (get_name_ok _ _ _ Hc).
      unfold bind at 1. rewrite (print_ok _ _ _ He). simpl_state.
      unfold bind at 1. erewrite get_name_ok; [|exact Ha].
      unfold bind at 1. erewrite get_name_ok; [|exact Hb]. simpl_state.
      unfold bind at 1. erewrite call_generate_response_ok; [|exact Hc].
      cbv zeta. simpl_state. fold prompt. fold g.
      step_print; [|subst Q; cbn; repeat split; congruence].
      step_print; [|subst Q; cbn; repeat split; congruence].
      subst Q. cbn. done. }
    split; [done|]. subst memory. rewrite Hstore, fn_lookup_insert.
    split; [|split; [|done]].
    + intros reply Hreply.
      destruct (completed_call post (st_world st) (st_store st c) prompt
                  (base_url (st_self st)) default_temperature default_max_tokens
                  reply Hreply) as (H1 & H2 & H3 & _).
      split; [done|]. split; [done|]. split; [done|].
      fold g in H2. rewrite H2. apply slice_last_keeps_two.
    + intros Hnone.
      pose proof (generate_response_cases post (st_world st) (st_store st c) prompt
                    (base_url (st_self st)) default_temperature default_max_tokens)
        as Hg.
      cbv zeta in Hg. fold answer in Hg. rewrite Hnone in Hg.
      destruct Hg as [e Hg]. subst g. rewrite Hg. cbn [fst snd].
      split; [by exists e|done].
  - intros initial_topic R F. apply run_appends_primaries.
Qed.
End Run.
(** * Concrete runs *)

Example scenario_transcript :
  map (λ t, (round t, speaker t)) (dialogue_history (st_self scenario.1))
  = [(1, "model_a"); (1, "model_b"); (2, "model_a"); (2, "model_b");
     (3, "model_a"); (3, "model_b")].
Proof. vm_compute. reflexivity. Qed.

Example scenario_calls :
  map (λ c, (call_role c, call_round c)) (st_calls scenario.1)
  = [("model_a", Some 1); ("model_b", Some 1);
     ("model_a", Some 2); ("model_b", Some 2); ("commentator", Some 2);
     ("model_a", Some 3); ("model_b", Some 3); ("commentator", None)].
Proof. vm_compute. reflexivity. Qed.

Example scenario_threading :
  map call_prompt (calls_at "model_a" 3 (st_calls scenario.1))
  = map call_reply (calls_at "model_b" 2 (st_calls scenario.1)).
Proof. vm_compute. reflexivity. Qed.

(** What one round with commentary prints. *)
Example one_round_printed :
  st_stdout (run_dialogue refusing_post strict_utf8 py_str_none "T" 1 1
               (State () three_clients three_roles [] [])).1
  = ["🎭 Starting dialogue on topic: T" +:+ newline;
     times "=" 60;
     newline +:+ "🔄 Round 1";
     times "-" 40;
     "🤖 Philosopher:";
     "Error: Cannot connect to host" +:+ newline;
     "🤖 Analyst:";
     "Error: Cannot connect to host" +:+ newline;
     "💬 Observer Commentary:";
     "📝 Error: Cannot connect to host" +:+ newline;
     times "=" 60;
     newline +:+ "🎯 Final Commentary from Observer:";
     times "=" 60;
     "Error: Cannot connect to host"].
Proof. vm_compute. reflexivity. Qed.

Example init_strips_slashes :
  base_url (DialogueOrchestrator_init "http://localhost:1234//") = "http://localhost:1234".
Proof. vm_compute. reflexivity. Qed.

(** Twelve echoed exchanges: the first two have left the memory. *)
Example memory_after_twelve :
  let asked := map (λ i, CallArgs (JStr (pretty i)) "u" default_temperature 500)
                 (seqZ 1 12) in
  let memory :=
    conversation_history (converse echo_post () (three_clients 2%nat) asked).1 in
  length memory = 20%nat
  ∧ take 2 memory = [Message "user" (JStr "3");
                     Message "assistant" (JStr "reply to: 3")].
Proof. vm_compute. split; reflexivity. Qed.

(** A missing role is a [KeyError] at the first place that reads it. *)
Example missing_commentator :
  (run_dialogue echo_post strict_utf8 py_str_none "T" 1 2
     (State () three_clients
        (add_model (add_model (DialogueOrchestrator_init "u") "model_a" 0%nat)
           "model_b" 1%nat) [] [])).2
  = inl (KeyError "commentator").
Proof. vm_compute. reflexivity. Qed.

(** A reply the console cannot encode: the reply has been received and
    remembered by model_a's client, [print] raises, and the record of
    the reply is never appended. *)
Example unencodable_reply :
  let run := run_dialogue (recording surrogate_post) strict_utf8 py_str_none "T" 1 1
               (State ((), []) three_clients three_roles [] []) in
  run.2 = inl (UnicodeEncodeError (lone_surrogate +:+ newline))
  ∧ map (λ req, model (json_arg req)) (st_world run.1).2 = ["qwen3-30b-a3b"]
  ∧ conversation_history (st_store run.1 0%nat)
    = [Message "user" (JStr "T"); Message "assistant" (JStr lone_surrogate)]
  ∧ dialogue_history (st_self run.1) = [].
Proof. vm_compute. repeat split; reflexivity. Qed.

Example status_error_text :
  (generate_response scripted_post [inr (Response 503 (inl "unused"))]
     (three_clients 0%nat) (JStr "hi") "u" default_temperature 500).1.1
  = JStr "Error: HTTP 503".
Proof. vm_compute. reflexivity. Qed.

Example missing_field_error_text :
  (generate_response scripted_post
     [inr (Response 200 (inr (JObj {[ "choices" := JArr [] ]})))]
     (three_clients 0%nat) (JStr "hi") "u" default_temperature 500).1.1
  = JStr "Error: list index out of range".
Proof. vm_compute. reflexivity. Qed.

(** ** Where the specification says too much *)

(** C2 as stated fails: every call of this run of one round returned a
    reply string, and the transcript does not hold two records; it
    holds none. *)
Lemma transcript_ordering_counterexample :
  let run := run_dialogue (recording surrogate_post) strict_utf8 py_str_none "T" 1 1
               (State ((), []) three_clients three_roles [] []) in
  roles_ok three_roles
  ∧ Forall (λ c, ∃ s, call_reply c = JStr s) (st_calls run.1)
  ∧ length (st_world run.1).2 = 1%nat
  ∧ run.2 = inl (UnicodeEncodeError (lone_surrogate +:+ newline))
  ∧ dialogue_history (st_self run.1) = []
  ∧ ¬ (Z.of_nat (length (dialogue_history (st_self run.1))) = 2 * 1).
Proof.
  intros run.
  split; [repeat split; eexists; vm_compute; reflexivity|].
  split; [vm_compute; repeat constructor; eexists; reflexivity|].
  split; [vm_compute; reflexivity|]. split; [vm_compute; reflexivity|].
  split; [vm_compute; reflexivity|]. vm_compute. discriminate.
Qed.

(** C3 as stated fails: in this run of one round with frequency 1 the
    commentator is called neither in round 1 nor after the loop; the
    endpoint receives one request, model_a's. *)
Lemma commentary_cadence_counterexample :
  let run := run_dialogue (recording surrogate_post) strict_utf8 py_str_none "T" 1 1
               (State ((), []) three_clients three_roles [] []) in
  roles_ok three_roles ∧ 0 < 1
  ∧ calls_to "commentator" (st_calls run.1) = []
  ∧ map (λ req, model (json_arg req)) (st_world run.1).2
    = [model_name (three_clients 0%nat)]
  ∧ run.2 = inl (UnicodeEncodeError (lone_surrogate +:+ newline))
  ∧ ¬ (Z.of_nat (length (calls_to "commentator" (st_calls run.1))) = 1 / 1 + 1).
Proof.
  intros run.
  split; [repeat split; eexists; vm_compute; reflexivity|].
  split; [lia|].
  split; [vm_compute; reflexivity|]. split; [vm_compute; reflexivity|].
  split; [vm_compute; reflexivity|]. vm_compute. discriminate.
Qed.

(** C5 as stated fails: every call of this run fails at the transport
    and returns an error string, and the run raises to its caller
    without a single record in the transcript. *)
Lemma failures_do_not_stop_the_run_counterexample :
  let run := run_dialogue garbled_refusing_post strict_utf8 py_str_none "T" 1 1
               (State () three_clients three_roles [] []) in
  roles_ok three_roles
  ∧ (∀ w req, ∃ e, (garbled_refusing_post w req).1 = inl e)
  ∧ Forall (λ c, error_string (call_reply c)) (st_calls run.1)
  ∧ run.2 = inl (UnicodeEncodeError
                   ("Error: Cannot connect to host " +:+ lone_surrogate +:+ newline))
  ∧ run.2 ≠ inr ()
  ∧ ¬ (Z.of_nat (length (dialogue_history (st_self run.1))) = 2 * 1).
Proof.
  intros run.
  split; [repeat split; eexists; vm_compute; reflexivity|].
  split; [intros w req; eexists; reflexivity|].
  split; [vm_compute; repeat constructor; eexists; reflexivity|].
  split; [vm_compute; reflexivity|].
  split; [vm_compute; discriminate|]. vm_compute. discriminate.
Qed.

(** C6 as stated fails: a 200 answer whose [content] is [null] is a
    malformed body, and the call returns [None], which is no error
    string, and appends the exchange to the memory. *)
Lemma failed_call_counterexample :
  let answer := inr (Response 200 (inr (completion JNull))) in
  let self := three_clients 2%nat in
  let out := generate_response scripted_post [answer] self (JStr "hi") "u"
               default_temperature 500 in
  call_fails
    (scripted_post [answer]
       (build_request self (JStr "hi") "u" default_temperature 500)).1
  ∧ out.1.1 = JNull
  ∧ ¬ error_string out.1.1
  ∧ conversation_history self = []
  ∧ conversation_history out.1.2
    = [Message "user" (JStr "hi"); Message "assistant" JNull]
  ∧ conversation_history out.1.2 ≠ conversation_history self.
Proof.
  intros answer self out.
  split.
  { cbn. eapply content_not_a_string; [reflexivity|vm_compute; reflexivity|done]. }
  split; [vm_compute; reflexivity|].
  split; [intros [e He]; vm_compute in He; discriminate|].
  split; [vm_compute; reflexivity|]. split; [vm_compute; reflexivity|].
  vm_compute. discriminate.
Qed.

(** C9 as stated fails: with frequency 0 and one round, this run does
    not raise [ZeroDivisionError], and model_a's response is not in the
    transcript. *)
Lemma zero_frequency_counterexample :
  let run := run_dialogue surrogate_post strict_utf8 py_str_none "T" 1 0
               (State () three_clients three_roles [] []) in
  is_Some (models three_roles !! "model_a")
  ∧ is_Some (models three_roles !! "model_b")
  ∧ 1 ≤ 1
  ∧ run.2 = inl (UnicodeEncodeError (lone_surrogate +:+ newline))
  ∧ run.2 ≠ inl ZeroDivisionError
  ∧ dialogue_history (st_self run.1) = [].
Proof.
  intros run.
  split; [eexists; vm_compute; reflexivity|].
  split; [eexists; vm_compute; reflexivity|]. split; [lia|].
  split; [vm_compute; reflexivity|].
  split; [vm_compute; discriminate|]. vm_compute. reflexivity.
Qed.
(** ** Instances of the theorems on runs *)

Lemma failed_call_is_absorbed_witness :
  let self := three_clients 0%nat in
  let w := [inr (Response 200 (inr (JObj {[ "choices" := JArr [] ]})))] in
  call_errors
    (scripted_post w (build_request self (JStr "hi") "u" default_temperature 500)).1
  ∧ ∃ e, generate_response scripted_post w self (JStr "hi") "u"
           default_temperature 500
         = (JStr ("Error: " +:+ e), self, []).
Proof.
  intros self w.
  assert (call_errors
            (scripted_post w
               (build_request self (JStr "hi") "u" default_temperature 500)).1)
    as Hfail.
  { cbn. eapply errors_without_content; [reflexivity|]. vm_compute. reflexivity. }
  split; [exact Hfail|].
  exact (failed_call_is_absorbed scripted_post w self (JStr "hi") "u"
           default_temperature 500 Hfail).
Defined.

Lemma transcript_ordering_witness :
  roles_ok three_roles ∧ 0 ≤ 3 ∧ 2 ≠ 0
  ∧ can_print strict_utf8 echo_post py_str_none "T" 3 2
      (State () three_clients three_roles [] [])
  ∧ scenario.2 = inr ()
  ∧ ∃ added,
      dialogue_history (st_self scenario.1) = added
      ∧ Z.of_nat (length added) = 2 * 3.
Proof.
  assert (roles_ok three_roles) as H1
    by (repeat split; eexists; vm_compute; reflexivity).
  assert (0 ≤ 3) as H2 by lia.
  assert (2 ≠ 0) as H3 by lia.
  assert (can_print strict_utf8 echo_post py_str_none "T" 3 2
            (State () three_clients three_roles [] [])) as H4
    by (vm_compute; reflexivity).
  pose proof (transcript_ordering echo_post strict_utf8 py_str_none ()
                three_clients three_roles [] "T" 3 2 H1 H2 H3 H4) as H.
  cbv zeta in H. destruct H as (Hret & added & _ & Hfresh & Hlen & _).
  split; [exact H1|]. split; [exact H2|]. split; [exact H3|]. split; [exact H4|].
  split; [exact Hret|]. exists added. split; [|exact Hlen].
  apply Hfresh. reflexivity.
Defined.

Lemma commentary_cadence_witness :
  let st := State () three_clients three_roles [] [] in
  let observed := run_dialogue (recording echo_post) strict_utf8 py_str_none "T" 3 2
                    (State ((), []) three_clients three_roles [] []) in
  roles_ok three_roles ∧ 0 ≤ 3 ∧ 0 < 2
  ∧ can_print strict_utf8 echo_post py_str_none "T" 3 2 st
  ∧ scenario.2 = inr ()
  ∧ map call_round (calls_to "commentator" (st_calls scenario.1))
    = map (λ k, Some (k * 2)) (seqZ 1 (3 / 2)) ++ [None]
  ∧ Forall2 (request_of_call st) (st_world observed.1).2 (st_calls scenario.1)
  ∧ map (λ req, model (json_arg req)) (st_world observed.1).2
    = ["qwen3-30b-a3b"; "gemma-3-27b-it-qat";
       "qwen3-30b-a3b"; "gemma-3-27b-it-qat"; "deepseek-r1-distill-qwen-7b";
       "qwen3-30b-a3b"; "gemma-3-27b-it-qat"; "deepseek-r1-distill-qwen-7b"].
Proof.
  intros st observed.
  assert (roles_ok three_roles) as H1
    by (repeat split; eexists; vm_compute; reflexivity).
  assert (0 ≤ 3) as H2 by lia.
  assert (0 < 2) as H3 by lia.
  assert (can_print strict_utf8 echo_post py_str_none "T" 3 2 st) as H4
    by (vm_compute; reflexivity).
  pose proof (commentary_cadence echo_post strict_utf8 py_str_none ()
                three_clients three_roles [] "T" 3 2 H1 H2 H3 H4) as H.
  cbv zeta in H. destruct H as (Hret & _ & Hrounds & _ & _ & _ & Hreceived).
  split; [exact H1|]. split; [exact H2|]. split; [exact H3|]. split; [exact H4|].
  split; [exact Hret|]. split; [exact Hrounds|]. split; [exact Hreceived|].
  vm_compute. reflexivity.
Defined.

Lemma prompt_threading_witness :
  let st := State () three_clients three_roles [] [] in
  roles_ok three_roles ∧ 0 ≤ 3 ∧ 2 ≠ 0
  ∧ can_print strict_utf8 echo_post py_str_none "T" 3 2 st
  ∧ (∃ b_prompt b_reply a_reply,
       calls_at "model_b" 2 (st_calls scenario.1)
       = [Call "model_b" (Some 2) b_prompt b_reply]
       ∧ calls_at "model_a" (2 + 1) (st_calls scenario.1)
         = [Call "model_a" (Some (2 + 1)) b_reply a_reply])
  ∧ (∀ c, c ∈ st_calls scenario.1 →
       call_role c = "model_a" → call_round c = Some (1 + 1) →
       ∃ b_prompt,
         calls_at "model_b" 1 (st_calls scenario.1)
         = [Call "model_b" (Some 1) b_prompt (call_prompt c)]).
Proof.
  intros st.
  assert (roles_ok three_roles) as H1
    by (repeat split; eexists; vm_compute; reflexivity).
  assert (0 ≤ 3) as H2 by lia.
  assert (2 ≠ 0) as H3 by lia.
  assert (can_print strict_utf8 echo_post py_str_none "T" 3 2 st) as H4
    by (vm_compute; reflexivity).
  pose proof (prompt_threading echo_post strict_utf8 py_str_none ()
                three_clients three_roles [] "T" 3 2) as H.
  cbv zeta in H. destruct H as (_ & Hany & _ & Hthread).
  destruct (Hthread H1 H2 H3 H4) as (_ & _ & Hrounds).
  split; [exact H1|]. split; [exact H2|]. split; [exact H3|]. split; [exact H4|].
  split; [apply Hrounds; lia|].
  intros c Hc Hrole Hround.
  assert (1 ≤ 1) as H5 by lia.
  exact (proj2 (Hany 1 c H5 Hc Hrole Hround)).
Defined.

Lemma failures_do_not_stop_the_run_witness :
  let st := State () three_clients three_roles [] [] in
  let run := run_dialogue refusing_post strict_utf8 py_str_none "T" 3 2 st in
  roles_ok three_roles ∧ 0 ≤ 3 ∧ 2 ≠ 0
  ∧ (∀ w req, ∃ e, (refusing_post w req).1 = inl e)
  ∧ can_print strict_utf8 refusing_post py_str_none "T" 3 2 st
  ∧ run.2 = inr ()
  ∧ ∃ added,
      dialogue_history (st_self run.1) = added
      ∧ Z.of_nat (length added) = 2 * 3
      ∧ Forall (λ t, error_string (said t)) added.
Proof.
  intros st run.
  assert (roles_ok three_roles) as H1
    by (repeat split; eexists; vm_compute; reflexivity).
  assert (0 ≤ 3) as H2 by lia.
  assert (2 ≠ 0) as H3 by lia.
  assert (∀ w req, ∃ e, (refusing_post w req).1 = inl e) as H4
    by (intros w req; eexists; reflexivity).
  assert (can_print strict_utf8 refusing_post py_str_none "T" 3 2 st) as H5
    by (vm_compute; reflexivity).
  pose proof (failures_do_not_stop_the_run refusing_post strict_utf8 py_str_none ()
                three_clients three_roles [] "T" 3 2 H1 H2 H3 H4 H5) as H.
  cbv zeta in H. destruct H as (Hret & added & _ & Hfresh & Hlen & _ & Herr).
  split; [exact H1|]. split; [exact H2|]. split; [exact H3|].
  split; [exact H4|]. split; [exact H5|]. split; [exact Hret|].
  exists added. split; [apply Hfresh; reflexivity|]. split; [exact Hlen|exact Herr].
Defined.

Lemma commentary_leaves_transcript_witness :
  let st := State () three_clients three_roles [] [] in
  let block := commentary_block echo_post strict_utf8 py_str_none 1 (JStr "x")
                 (JStr "y") st in
  let prompt := JStr (recent_exchange_text py_str_none "Philosopher" (JStr "x")
                        "Analyst" (JStr "y")) in
  models three_roles !! "model_a" = Some 0%nat
  ∧ models three_roles !! "model_b" = Some 1%nat
  ∧ models three_roles !! "commentator" = Some 2%nat
  ∧ strict_utf8 (commentary_header "Observer") = true
  ∧ dialogue_history (st_self block.1) = dialogue_history three_roles
  ∧ ∃ commentary,
      st_calls block.1 = [Call "commentator" (Some (1 + 1)) prompt commentary]
      ∧ conversation_history (three_clients 2%nat) = []
      ∧ conversation_history (st_store block.1 2%nat)
        = slice_last 20 ([] ++ [Message "user" prompt;
                                Message "assistant" commentary])
      ∧ (∃ older, conversation_history (st_store block.1 2%nat)
                  = older ++ [Message "user" prompt; Message "assistant" commentary])
      ∧ conversation_history (st_store block.1 2%nat)
        = [Message "user" prompt; Message "assistant" commentary]
      ∧ block.2 = inr ().
Proof.
  intros st block prompt.
  assert (models three_roles !! "model_a" = Some 0%nat) as H1
    by (vm_compute; reflexivity).
  assert (models three_roles !! "model_b" = Some 1%nat) as H2
    by (vm_compute; reflexivity).
  assert (models three_roles !! "commentator" = Some 2%nat) as H3
    by (vm_compute; reflexivity).
  assert (strict_utf8 (commentary_header "Observer") = true) as H4
    by (vm_compute; reflexivity).
  pose proof (commentary_leaves_transcript echo_post strict_utf8 py_str_none 1
                (JStr "x") (JStr "y") st) as H.
  cbv zeta in H. destruct H as ((_ & Hsame) & Hblock & _).
  destruct (Hblock 0%nat 1%nat 2%nat H1 H2 H3 H4)
    as (commentary & Hcalls & Hdone & _ & Hret).
  pose (reply := JStr ("reply to: "
                       +:+ recent_exchange_text py_str_none "Philosopher" (JStr "x")
                             "Analyst" (JStr "y"))).
  assert (completion_content
            (echo_post ()
               (build_request (three_clients 2%nat) prompt (base_url three_roles)
                  default_temperature default_max_tokens)).1
          = Some reply) as Hanswer by (vm_compute; reflexivity).
  destruct (Hdone reply Hanswer) as (Heq & Hmem & _ & Htail).
  assert (strict_utf8 (commentary_line py_str_none reply) = true) as H5
    by (vm_compute; reflexivity).
  assert (strict_utf8 (times "=" 60) = true) as H6 by (vm_compute; reflexivity).
  rewrite Heq in Hcalls, Hret.
  split; [exact H1|]. split; [exact H2|]. split; [exact H3|]. split; [exact H4|].
  split; [exact Hsame|]. exists reply.
  split; [exact Hcalls|]. split; [reflexivity|].
  split; [exact Hmem|]. split; [exact Htail|].
  split; [etrans; [exact Hmem|reflexivity]|].
  exact (Hret H5 H6).
Defined.

Lemma zero_frequency_raises_in_round_one_witness :
  let st := State () three_clients three_roles [] [] in
  let run := run_dialogue echo_post strict_utf8 py_str_none "T" 3 0 st in
  is_Some (models three_roles !! "model_a")
  ∧ is_Some (models three_roles !! "model_b")
  ∧ 1 ≤ 3
  ∧ can_print strict_utf8 echo_post py_str_none "T" 3 0 st
  ∧ ∃ ra rb,
      run.2 = inl ZeroDivisionError
      ∧ dialogue_history (st_self run.1)
        = dialogue_history three_roles
          ++ [Turn 1 "model_a" ra; Turn 1 "model_b" rb]
      ∧ st_calls run.1
        = [Call "model_a" (Some 1) (JStr "T") ra; Call "model_b" (Some 1) ra rb].
Proof.
  intros st run.
  assert (is_Some (models three_roles !! "model_a")) as H1
    by (eexists; vm_compute; reflexivity).
  assert (is_Some (models three_roles !! "model_b")) as H2
    by (eexists; vm_compute; reflexivity).
  assert (1 ≤ 3) as H3 by lia.
  assert (can_print strict_utf8 echo_post py_str_none "T" 3 0 st) as H4
    by (vm_compute; reflexivity).
  split; [exact H1|]. split; [exact H2|]. split; [exact H3|]. split; [exact H4|].
  exact (zero_frequency_raises_in_round_one echo_post strict_utf8 py_str_none ()
           three_clients three_roles [] "T" 3 H1 H2 H3 H4).
Defined.
(** * Further properties of the code *)

(** ** Construction and registration *)

Lemma append_slashes_cons (c : ascii) (s : string) (k : nat) :
  String c s +:+ slashes k = String c (s +:+ slashes k).
Proof. reflexivity. Qed.

Lemma rstrip_slash_decompose (s : string) :
  ∃ k, s = rstrip_slash s +:+ slashes k.
Proof.
  induction s as [|c s [k IH]]; [by exists 0%nat|].
  cbn [rstrip_slash]. destruct (rstrip_slash s) as [|d rest].
  - cbn in IH. destruct (Ascii.eqb_spec c "/"%char) as [->|Hc].
    + exists (S k). cbn. by rewrite IH.
    + exists k. cbn. by rewrite IH.
  - exists k. rewrite append_slashes_cons. by rewrite <- IH.
Qed.

Lemma rstrip_slash_no_trailing (s t : string) :
  rstrip_slash s ≠ t +:+ "/".
Proof.
  revert t. induction s as [|c s IH]; intros t.
  { by destruct t. }
  cbn [rstrip_slash]. destruct (rstrip_slash s) as [|d rest].
  - destruct (Ascii.eqb_spec c "/"%char) as [->|Hc]; [by destruct t|].
    destruct t as [|x t]; cbn; [intros H; by inversion H|]. by destruct t.
  - destruct t as [|x t]; cbn; [intros H; by inversion H|].
    intros [= -> H]. by apply (IH t).
Qed.

(** X1. The orchestrator's base URL is the given one without its
    trailing slashes: the given URL is the stored one followed by
    slashes only, and the stored one does not end with a slash.  The new
    orchestrator has no role registered and an empty transcript. *)
Theorem init_strips_trailing_slashes (s : string) :
  let o := DialogueOrchestrator_init s in
  (∃ k, s = base_url o +:+ slashes k)
  ∧ (∀ t, base_url o ≠ t +:+ "/")
  ∧ (∀ role, models o !! role = None)
  ∧ dialogue_history o = [].
Proof.
  intros o. split; [apply rstrip_slash_decompose|].
  split; [apply rstrip_slash_no_trailing|]. split; [|done].
  intros role. apply lookup_empty.
Qed.

(** X2. Registering a client under a role makes that role resolve to it,
    leaves every other role, the base URL and the transcript as they
    were, and replaces an earlier registration under the same role. *)
Theorem add_model_registers (o : DialogueOrchestrator) (role : string)
    (client earlier : loc) :
  let o' := add_model o role client in
  (∀ World (w : World) store calls out,
     get_model role (State w store o' calls out)
     = (State w store o' calls out, inr client))
  ∧ (∀ other, other ≠ role → models o' !! other = models o !! other)
  ∧ base_url o' = base_url o
  ∧ dialogue_history o' = dialogue_history o
  ∧ add_model (add_model o role earlier) role client = o'.
Proof.
  intros o'. split; [|split; [|split; [done|split; [done|]]]].
  - intros World w store calls out. unfold get_model. cbn [st_self o' add_model models].
    by rewrite lookup_insert_eq.
  - intros other Hne. cbn. by rewrite lookup_insert_ne.
  - unfold o', add_model. cbn [models base_url dialogue_history].
    by rewrite insert_insert_eq.
Qed.

(** ** The reply of a call *)

(** X3. [result["choices"][0]["message"]["content"]] gives a value
    exactly when the body is a dict whose "choices" is a non-empty list
    whose first element is a dict whose "message" is a dict with a
    "content" entry, and the value is that entry; on every other body
    it raises. *)
Theorem content_extraction (result c : json) :
  getpath result content_path = inr c
  ↔ ∃ top choice others msg,
      result = JObj top
      ∧ top !! "choices" = Some (JArr (JObj choice :: others))
      ∧ choice !! "message" = Some (JObj msg)
      ∧ msg !! "content" = Some c.
Proof.
  pose proof (getpath_content_of result) as H. split.
  - intros Hget. destruct (content_of result) as [c'|] eqn:Hc.
    + rewrite Hget in H. injection H as <-.
      unfold content_of in Hc.
      destruct result as [| | | | | |top]; try done.
      destruct (top !! "choices") as [[| | | | |[|[| | | | | |choice] others]|]|]
        eqn:Htop; try done.
      destruct (choice !! "message") as [[| | | | | |msg]|] eqn:Hmsg; try done.
      by exists top, choice, others, msg.
    + destruct H as [e He]. congruence.
  - intros (top & choice & others & msg & -> & Htop & Hmsg & Hc).
    unfold content_of in H. by rewrite Htop, Hmsg, Hc in H.
Qed.

Section Replies.
Context {World : Type}.
Variable post : World → request → (caught + response) * World.

(** X4. When the endpoint answers 200 with a body that has the content
    path, the call returns that content as it is (a string or not), and
    whatever the memory held before, it now holds its old entries, the
    prompt as a "user" turn and the content as an "assistant" turn, cut
    to the last 20: at most 20 entries, ending with these two turns.
    Name, model name and system prompt stay. *)
Theorem successful_call_updates_memory w self prompt url t m reply :
  completion_content (post w (build_request self prompt url t m)).1 = Some reply →
  let out := generate_response post w self prompt url t m in
  let memory := conversation_history out.1.2 in
  out.1.1 = reply
  ∧ memory = slice_last 20 (conversation_history self
                            ++ [Message "user" prompt; Message "assistant" reply])
  ∧ (length memory ≤ 20)%nat
  ∧ slice_last 2 memory = [Message "user" prompt; Message "assistant" reply]
  ∧ name out.1.2 = name self
  ∧ model_name out.1.2 = model_name self
  ∧ system_prompt out.1.2 = system_prompt self.
Proof. apply completed_call. Qed.
End Replies.

Lemma drop_turns (k : nat) (exs : list (json * json)) :
  drop (2 * k) (flat_map turns_of exs) = flat_map turns_of (drop k exs).
Proof.
  revert exs. induction k as [|k IH]; intros exs; [done|].
  destruct exs as [|ex exs]; [done|].
  replace (2 * S k)%nat with (S (S (2 * k))) by lia. cbn [flat_map turns_of app drop].
  apply IH.
Qed.

Lemma slice_last_turns (exs : list (json * json)) :
  slice_last 20 (flat_map turns_of exs) = flat_map turns_of (slice_last 10 exs).
Proof.
  unfold slice_last. rewrite length_flat_map_turns_of, <- drop_turns.
  f_equal. lia.
Qed.

Section WholeExchanges.
Context {World : Type}.
Variable post : World → request → (caught + response) * World.

(** X5. The memory of a client made by the constructor is, after any
    sequence of calls, exactly the last ten successful exchanges, each
    whole: a "user" turn followed by its "assistant" turn.  Trimming
    never splits an exchange. *)
Theorem memory_is_last_ten_exchanges w (name model_name instruction : string)
    (cs : list call_args) :
  let fresh := ModelClient_init name model_name instruction in
  conversation_history (converse post w fresh cs).1
  = flat_map turns_of (slice_last 10 (exchanges post w fresh cs)).
Proof.
  intros fresh. rewrite (converse_history post w fresh cs []) by done.
  apply slice_last_turns.
Qed.
End WholeExchanges.
(** ** What holds of a run however it ends *)

Section Frame.
Context {World : Type}.
Variable post : World → request → (caught + response) * World.
Variable encodable : string → bool.
Variable py_str : json → string.

(** X6. Whether a run returns or raises, it leaves the base URL and the
    registered roles as they were; it leaves every client that is not
    registered under one of the three roles exactly as it was; and it
    changes no client's name, model name or system prompt. *)
Theorem run_leaves_the_rest (initial_topic : string) (rounds commentary_frequency : Z)
    (st : state World) :
  let st' :=
    (run_dialogue post encodable py_str initial_topic rounds
       commentary_frequency st).1 in
  base_url (st_self st') = base_url (st_self st)
  ∧ models (st_self st') = models (st_self st)
  ∧ (∀ l, (∀ role, role ∈ run_roles → models (st_self st) !! role ≠ Some l) →
       st_store st' l = st_store st l)
  ∧ (∀ l, name (st_store st' l) = name (st_store st l)
          ∧ model_name (st_store st' l) = model_name (st_store st l)
          ∧ system_prompt (st_store st' l) = system_prompt (st_store st l)).
Proof.
  apply (run_dialogue_keeps post encodable py_str
           (λ st', base_url (st_self st') = base_url (st_self st)
                   ∧ models (st_self st') = models (st_self st)
                   ∧ (∀ l, (∀ role, role ∈ run_roles →
                              models (st_self st) !! role ≠ Some l) →
                        st_store st' l = st_store st l)
                   ∧ (∀ l, name (st_store st' l) = name (st_store st l)
                           ∧ model_name (st_store st' l) = model_name (st_store st l)
                           ∧ system_prompt (st_store st' l)
                             = system_prompt (st_store st l)))).
  - intros st1 out H. exact H.
  - intros role rnd prompt st1 Hrole (Hurl & Hmodels & Hother & Hid).
    destruct (models (st_self st1) !! role) as [client|] eqn:Hlook.
    + rewrite (call_generate_response_ok post role client rnd prompt st1 Hlook).
      cbn [fst st_self st_store]. split; [done|]. split; [done|]. split.
      * intros l Hl. rewrite fn_lookup_insert_ne; [by apply Hother|].
        intros ->. apply (Hl role Hrole). by rewrite <- Hmodels.
      * intros l. destruct (decide (client = l)) as [->|Hne].
        -- rewrite fn_lookup_insert.
           pose proof (generate_response_identity post (st_world st1)
                         (st_store st1 l) prompt (base_url (st_self st1))
                         default_temperature default_max_tokens) as Hg.
           cbv zeta in Hg. destruct Hg as (-> & -> & ->). apply Hid.
        -- rewrite fn_lookup_insert_ne by done. apply Hid.
    + by rewrite call_generate_response_missing.
  - intros t st1 _ H. exact H.
  - done.
Qed.

(** X7. Whether a run returns or raises, the transcript it leaves is the
    one it found followed by records of model_a and model_b only: nothing
    is removed or rewritten, and no commentary is recorded. *)
Theorem transcript_is_append_only (initial_topic : string)
    (rounds commentary_frequency : Z) (st : state World) :
  let st' :=
    (run_dialogue post encodable py_str initial_topic rounds
       commentary_frequency st).1 in
  ∃ added,
    dialogue_history (st_self st') = dialogue_history (st_self st) ++ added
    ∧ Forall primary_speaker added.
Proof. apply run_appends_primaries. Qed.

(** X18. However a run ends and whatever is registered, the calls it has
    made are the first calls of a whole run, in its order: model_a then
    model_b in each round, the commentator after them in the rounds the
    frequency divides, and the commentator once at the end, each
    primary's prompt being the reply before it; and the records it has
    appended are the first records of a whole run.  When the run
    returns, they are all of them. *)
Theorem run_stops_on_the_way (initial_topic : string)
    (rounds commentary_frequency : Z) (st : state World) :
  let run := run_dialogue post encodable py_str initial_topic rounds
               commentary_frequency st in
  ∃ xs final_summary final_commentary made added,
    let all_calls :=
      loop_calls commentary_frequency (seqZ 0 rounds) (JStr initial_topic) xs
      ++ [Call "commentator" None final_summary final_commentary] in
    let all_turns := loop_turns (seqZ 0 rounds) xs in
    length xs = Z.to_nat rounds
    ∧ st_calls run.1 = st_calls st ++ made
    ∧ made `prefix_of` all_calls
    ∧ dialogue_history (st_self run.1) = dialogue_history (st_self st) ++ added
    ∧ added `prefix_of` all_turns
    ∧ (run.2 = inr () → made = all_calls ∧ added = all_turns).
Proof.
  intros run.
  destruct (run_dialogue_any post encodable py_str initial_topic rounds
              commentary_frequency st)
    as (xs & fs & fc & cs & ts & Hlen & Hcs & Hcp & Hts & Htp & _ & _ & Hret).
  exists xs, fs, fc, cs, ts. cbv zeta.
  repeat split; try done; by destruct (Hret H) as (? & ? & _).
Qed.

(** X19. A run on a console behaves as on a console that takes every
    text, as long as the console can encode what is printed: if it can
    encode every text of the run, the run is that run; if not, the run
    raises [UnicodeEncodeError] at the first text the console refuses,
    having printed exactly the texts before it. *)
Theorem run_on_a_console (initial_topic : string)
    (rounds commentary_frequency : Z) (st : state World) :
  let run := run_dialogue post encodable py_str initial_topic rounds
               commentary_frequency st in
  let texts := texts_of_run post py_str initial_topic rounds commentary_frequency st in
  (forallb encodable texts = true
   ∧ run = run_dialogue post any_text py_str initial_topic rounds
             commentary_frequency st
   ∧ st_stdout run.1 = st_stdout st ++ texts)
  ∨ (∃ before text after,
       texts = before ++ text :: after
       ∧ forallb encodable before = true
       ∧ encodable text = false
       ∧ run.2 = inl (UnicodeEncodeError text)
       ∧ st_stdout run.1 = st_stdout st ++ before).
Proof.
  intros run texts. subst run texts. unfold texts_of_run.
  destruct (run_dialogue_agrees post encodable py_str initial_topic rounds
              commentary_frequency st) as (new & Hout & Hcase).
  rewrite Hout, drop_app_length.
  destruct Hcase as [[Hall Heq]|Hstop]; [left|by right].
  by rewrite Heq, Hout.
Qed.
End Frame.

(** ** When a run returns, and when it raises *)

Section Outcomes.
Context {World : Type}.
Variable post : World → request → (caught + response) * World.
Variable encodable : string → bool.
Variable py_str : json → string.

(** No round: the run on the console that takes every text is the two
    headings and the final commentary. *)
Lemma run_dialogue_no_rounds initial_topic rounds commentary_frequency
    (st : state World) a b c :
  models (st_self st) !! "model_a" = Some a →
  models (st_self st) !! "model_b" = Some b →
  models (st_self st) !! "commentator" = Some c →
  rounds ≤ 0 →
  let final_summary :=
    JStr (final_summary_text (name (st_store st a)) (name (st_store st b))
            initial_topic) in
  ∃ st' final_commentary,
    run_dialogue post any_text py_str initial_topic rounds commentary_frequency st
    = (st', inr ())
    ∧ st_self st' = st_self st
    ∧ st_calls st'
      = st_calls st ++ [Call "commentator" None final_summary final_commentary].
Proof.
  intros Ha Hb Hc HR final_summary. unfold run_dialogue. printed. printed.
  rewrite seqZ_nil by done. cbn [for_rounds]. unfold bind, ret.
  erewrite final_commentary_block_ok; [|exact Ha|exact Hb|exact Hc].
  cbv zeta. do 2 eexists. split; [reflexivity|]. done.
Qed.

(** X8. A run returns normally exactly when the three roles are
    registered, the commentary frequency is not 0 if there is at least
    one round, and the console can encode every text the run prints.
    In every other case it raises. *)
Theorem run_returns_iff (initial_topic : string) (rounds commentary_frequency : Z)
    (st : state World) :
  (run_dialogue post encodable py_str initial_topic rounds
     commentary_frequency st).2 = inr ()
  ↔ roles_ok (st_self st)
    ∧ (1 ≤ rounds → commentary_frequency ≠ 0)
    ∧ can_print encodable post py_str initial_topic rounds commentary_frequency st.
Proof.
  split.
  - intros Hret.
    destruct (run_dialogue_any post encodable py_str initial_topic rounds
                commentary_frequency st)
      as (xs & fs & fc & cs & ts & _ & _ & _ & _ & _ & _ & _ & Hdone).
    destruct (Hdone Hret) as (_ & _ & Hroles & HF).
    split; [done|]. split; [intros HR; apply HF; lia|].
    unfold can_print.
    destruct (forallb encodable
                (texts_of_run post py_str initial_topic rounds
                   commentary_frequency st)) eqn:Hcan; [done|].
    destruct (run_off_console post encodable py_str initial_topic rounds
                commentary_frequency st) as (before & text & after & _ & _ & _ & Hr & _).
    { unfold can_print. by rewrite Hcan. }
    by rewrite Hr in Hret.
  - intros (Hroles & HF & Hcan). rewrite (run_on_console _ _ _ _ _ _ _ Hcan).
    destruct (decide (1 ≤ rounds)) as [HR|HR].
    + destruct (run_dialogue_ok post py_str _ (any_reply_good post) initial_topic
                  rounds commentary_frequency st Hroles (HF HR))
        as (xs & fs & fc & st' & _ & Heq & _). by rewrite Heq.
    + destruct Hroles as ([a Ha] & [b Hb] & [c Hc]).
      destruct (run_dialogue_no_rounds initial_topic rounds commentary_frequency
                  st a b c Ha Hb Hc ltac:(lia)) as (st' & fc & Heq & _).
      by rewrite Heq.
Qed.

(** X9. With model_a not registered and at least one round, the run
    raises before anything is done: no call is made, no record is
    appended, no client and nothing of the orchestrator changes.  It
    raises [KeyError('model_a')] when the console can encode the four
    headings printed before the lookup, and [UnicodeEncodeError] at the
    first of them it cannot. *)
Theorem missing_model_a_raises_at_once (initial_topic : string)
    (rounds commentary_frequency : Z) (st : state World) :
  models (st_self st) !! "model_a" = None → 1 ≤ rounds →
  let run := run_dialogue post encodable py_str initial_topic rounds
               commentary_frequency st in
  let headings := [start_line initial_topic; times "=" 60; round_line 1;
                   times "-" 40] in
  st_world run.1 = st_world st
  ∧ st_store run.1 = st_store st
  ∧ st_self run.1 = st_self st
  ∧ st_calls run.1 = st_calls st
  ∧ (forallb encodable headings = true →
     run.2 = inl (KeyError "model_a")
     ∧ st_stdout run.1 = st_stdout st ++ headings)
  ∧ (forallb encodable headings = false →
     ∃ text, text ∈ headings ∧ encodable text = false
             ∧ run.2 = inl (UnicodeEncodeError text)).
Proof.
  intros Ha HR run headings. subst run headings.
  isolate (run_dialogue post encodable py_str initial_topic rounds
             commentary_frequency st).
  unfold run_dialogue. rewrite seqZ_cons by lia. cbn [for_rounds].
  unfold round_body. change (0 + 1) with 1.
  step_print.
  2:{ subst Q. cbn [fst snd forallb]. rewrite He. cbn [andb].
      repeat split; try done. intros _. eexists. split; [|done]. set_solver. }
  step_print.
  2:{ subst Q. cbn [fst snd forallb st_world st_store st_self st_calls].
      rewrite He, He0. cbn [andb].
      repeat split; try done. intros _. eexists. split; [|done]. set_solver. }
  unfold bind at 1. unfold bind at 1.
  step_print.
  2:{ subst Q. cbn [fst snd forallb st_world st_store st_self st_calls].
      rewrite He, He0, He1. cbn [andb].
      repeat split; try done. intros _. eexists. split; [|done]. set_solver. }
  step_print.
  2:{ subst Q. cbn [fst snd forallb st_world st_store st_self st_calls].
      rewrite He, He0, He1, He2. cbn [andb].
      repeat split; try done. intros _. eexists. split; [|done]. set_solver. }
  unfold bind at 1. rewrite get_name_missing by done.
  subst Q. cbn [fst snd forallb st_world st_store st_self st_calls st_stdout].
  rewrite He, He0, He1, He2, <- !app_assoc. cbn [andb app].
  repeat split; done.
Qed.
End Outcomes.
Ltac split_texts H :=
  cbn [forallb] in H;
  repeat (let H' := fresh "Htext" in apply andb_prop in H as [H' H]).

(** One more step of a run whose text the console is known to take. *)
Ltac shown := unfold bind at 1; rewrite print_ok by assumption; simpl_state.

Section MoreOutcomes.
Context {World : Type}.
Variable post : World → request → (caught + response) * World.
Variable encodable : string → bool.
Variable py_str : json → string.

(** X10. With model_a registered, model_b not, and at least one round,
    on a console that can encode what is printed up to there, the run
    raises [KeyError('model_b')] only after model_a has been called with
    the topic and its reply appended as the record of round 1; that call
    and that record stay. *)
Theorem missing_model_b_raises_after_model_a (initial_topic : string)
    (rounds commentary_frequency : Z) (st : state World) (a : loc) :
  models (st_self st) !! "model_a" = Some a →
  models (st_self st) !! "model_b" = None →
  1 ≤ rounds →
  let g := generate_response post (st_world st) (st_store st a) (JStr initial_topic)
             (base_url (st_self st)) default_temperature default_max_tokens in
  forallb encodable
    [start_line initial_topic; times "=" 60; round_line 1; times "-" 40;
     speaker_line (name (st_store st a)); reply_line py_str g.1.1] = true →
  let run := run_dialogue post encodable py_str initial_topic rounds
               commentary_frequency st in
  run.2 = inl (KeyError "model_b")
  ∧ dialogue_history (st_self run.1)
    = dialogue_history (st_self st) ++ [Turn 1 "model_a" g.1.1]
  ∧ st_calls run.1
    = st_calls st ++ [Call "model_a" (Some 1) (JStr initial_topic) g.1.1]
  ∧ st_store run.1 a = g.1.2
  ∧ st_world run.1 = g.2.
Proof.
  intros Ha Hb HR g Htexts run. split_texts Htexts. subst run.
  isolate (run_dialogue post encodable py_str initial_topic rounds
             commentary_frequency st).
  unfold run_dialogue. rewrite seqZ_cons by lia. cbn [for_rounds].
  unfold round_body. change (0 + 1) with 1.
  shown. shown. unfold bind at 1. unfold bind at 1. shown. shown.
  unfold bind at 1. erewrite get_name_ok; [|exact Ha]. simpl_state. shown.
  unfold bind at 1. erewrite call_generate_response_ok; [|exact Ha].
  cbv zeta. simpl_state. fold g. shown.
  unfold bind at 1. simpl_state.
  unfold bind at 1. rewrite get_name_missing by done.
  subst Q. cbn [fst snd st_self st_calls st_store st_world dialogue_history].
  by rewrite fn_lookup_insert.
Qed.

Lemma bind_ext {A B} (m : M World A) (f g : A → M World B) (st : state World) :
  (∀ a st', f a st' = g a st') → bind m f st = bind m g st.
Proof. intros H. unfold bind. destruct (m st) as [st' [e|a]]; [done|apply H]. Qed.

Lemma mod_opp_zero (a b : Z) : (a mod (- b) =? 0) = (a mod b =? 0).
Proof.
  destruct (decide (b = 0)) as [->|Hb]; [done|].
  destruct (Z.eqb_spec (a mod b) 0) as [H|H].
  - apply Z.eqb_eq. by apply Z.mod_opp_r_z.
  - apply Z.eqb_neq. rewrite Z.mod_opp_r_nz by done.
    pose proof (Z.mod_bound_or a b Hb). lia.
Qed.

Lemma round_body_opp commentary_frequency round_num current_prompt
    (st : state World) :
  round_body post encodable py_str (- commentary_frequency) round_num
    current_prompt st
  = round_body post encodable py_str commentary_frequency round_num
      current_prompt st.
Proof.
  unfold round_body.
  do 12 (apply bind_ext; intros ? ?).
  unfold py_mod, bind, ret, raise.
  destruct (Z.eqb_spec commentary_frequency 0) as [->|HF]; [done|].
  destruct (Z.eqb_spec (- commentary_frequency) 0) as [H0|_]; [lia|].
  by rewrite mod_opp_zero.
Qed.

Lemma for_rounds_ext (body1 body2 : Z → json → M World json) rs current_prompt
    (st : state World) :
  (∀ r p st', body1 r p st' = body2 r p st') →
  for_rounds body1 rs current_prompt st = for_rounds body2 rs current_prompt st.
Proof.
  intros H. revert current_prompt st.
  induction rs as [|r rs IH]; intros current_prompt st; [done|].
  cbn [for_rounds]. rewrite <- (bind_ext _ _ _ _ (λ a st', IH a st')).
  unfold bind. by rewrite H.
Qed.

(** X11. A negative commentary frequency is accepted and acts as its
    absolute value: the run with [-F] is the run with [F], in every
    respect. *)
Theorem negative_frequency_is_its_opposite (initial_topic : string)
    (rounds commentary_frequency : Z) (st : state World) :
  run_dialogue post encodable py_str initial_topic rounds
    (- commentary_frequency) st
  = run_dialogue post encodable py_str initial_topic rounds
      commentary_frequency st.
Proof.
  unfold run_dialogue.
  do 2 (apply bind_ext; intros ? ?). unfold bind.
  rewrite (for_rounds_ext
             (round_body post encodable py_str (- commentary_frequency))
             (round_body post encodable py_str commentary_frequency)); [done|].
  intros r p s. apply round_body_opp.
Qed.

(** X12. With [rounds <= 0] no round runs: the run (roles registered,
    on a console that can encode every text it prints) makes the final
    commentary call and nothing else, whatever the commentary frequency,
    0 included; the transcript is untouched. *)
Theorem no_rounds_only_final_commentary (initial_topic : string)
    (rounds commentary_frequency : Z) (st : state World) (a b c : loc) :
  models (st_self st) !! "model_a" = Some a →
  models (st_self st) !! "model_b" = Some b →
  models (st_self st) !! "commentator" = Some c →
  rounds ≤ 0 →
  can_print encodable post py_str initial_topic rounds commentary_frequency st →
  let run := run_dialogue post encodable py_str initial_topic rounds
               commentary_frequency st in
  let final_summary :=
    JStr (final_summary_text (name (st_store st a)) (name (st_store st b))
            initial_topic) in
  run.2 = inr ()
  ∧ st_self run.1 = st_self st
  ∧ ∃ final_commentary,
      st_calls run.1
      = st_calls st ++ [Call "commentator" None final_summary final_commentary].
Proof.
  intros Ha Hb Hc HR Hcan run final_summary. subst run.
  rewrite (run_on_console _ _ _ _ _ _ _ Hcan).
  destruct (run_dialogue_no_rounds post py_str initial_topic rounds
              commentary_frequency st a b c Ha Hb Hc HR)
    as (st' & fc & Heq & Hself & Hcalls).
  rewrite Heq. cbn [fst snd]. eauto.
Qed.
End MoreOutcomes.

(** ** Requests, repeated runs, and main *)

Lemma length_loop_calls (F : Z) (rs : list Z) (p : json) (xs : list round_replies) :
  length xs = length rs →
  length (loop_calls F rs p xs)
  = (2 * length rs
     + length (List.filter (λ r, ((r + 1) mod F =? 0)%Z) rs))%nat.
Proof.
  revert p xs. induction rs as [|r rs IH]; intros p [|x xs] Hlen; try done.
  cbn [loop_calls List.filter]. unfold round_calls.
  rewrite !length_app, IH by (cbn in Hlen; lia).
  destruct ((r + 1) mod F =? 0); cbn [length]; lia.
Qed.

Lemma count_multiples (F R : Z) :
  0 < F → 0 ≤ R →
  Z.of_nat (length (List.filter (λ r, (r + 1) mod F =? 0) (seqZ 0 R))) = R / F.
Proof.
  intros HF HR.
  pose proof (f_equal length (multiples_upto F (Z.to_nat R) HF)) as H.
  rewrite !length_map, length_seqZ in H.
  replace (Z.of_nat (Z.to_nat R)) with R in H by lia.
  assert (0 ≤ R / F) by (apply Z.div_pos; lia). lia.
Qed.

Lemma loop_turns_header (rs : list Z) (xs : list round_replies) :
  length xs = length rs →
  map (λ t, (round t, speaker t)) (loop_turns rs xs)
  = flat_map (λ r, [(r + 1, "model_a"); (r + 1, "model_b")]) rs.
Proof.
  revert xs. induction rs as [|r rs IH]; intros [|x xs] Hlen; try done.
  cbn in *. by rewrite IH by lia.
Qed.

Section Requests.
Context {World : Type}.
Variable post : World → request → (caught + response) * World.
Variable encodable : string → bool.
Variable py_str : json → string.

(** The requests of a whole run against the recording endpoint, from
    any state. *)
Lemma recording_run_total initial_topic R F (st : state (World * list request)) :
  roles_ok (st_self st) → 0 ≤ R → 0 < F →
  can_print encodable (recording post) py_str initial_topic R F st →
  let st' := (run_dialogue (recording post) encodable py_str initial_topic R F
                st).1 in
  ∃ new,
    (st_world st').2 = (st_world st).2 ++ new
    ∧ Z.of_nat (length new) = 2 * R + R / F + 1
    ∧ Forall (λ req,
                url req = base_url (st_self st) +:+ "/v1/chat/completions"
                ∧ temperature (json_arg req) = default_temperature
                ∧ max_tokens (json_arg req) = default_max_tokens
                ∧ stream (json_arg req) = false
                ∧ headers req = [("Content-Type", "application/json")]) new.
Proof.
  intros Hroles HR HF Hcan st'.
  destruct (recording_log post encodable py_str initial_topic R F st)
    as (new & cs & Hsent & Hlog & Htie & Hall).
  destruct (run_dialogue_ok (recording post) py_str (λ _, True) (any_reply_good _)
              initial_topic R F st Hroles ltac:(lia))
    as (xs & fs & fc & st1 & Hxs & Heq & _ & Hcalls & _).
  subst st'. rewrite (run_on_console _ _ _ _ _ _ _ Hcan) in *.
  rewrite Heq in *. cbn [fst] in *.
  exists new. split; [done|]. split; [|done].
  rewrite Hcalls in Hlog. apply app_inv_head in Hlog.
  apply Forall2_length in Htie.
  rewrite Htie, <- Hlog, !length_app, length_loop_calls,
    length_seqZ by (by rewrite length_seqZ).
  pose proof (count_multiples F R HF HR). cbn [length]. lia.
Qed.

(** X13. Against an endpoint that records what it is sent, a run of [R]
    rounds with positive frequency [F] (roles registered, on a console
    that can encode every text it prints) sends exactly
    [2R + floor(R / F) + 1] requests.  Every one goes to the
    orchestrator's base URL followed by "/v1/chat/completions", with the
    default temperature 0.7 and token budget 500, not streaming, and
    the JSON content-type header. *)
Theorem requests_of_a_run w store o out initial_topic R F :
  roles_ok o → 0 ≤ R → 0 < F →
  can_print encodable (recording post) py_str initial_topic R F
    (State (w, []) store o [] out) →
  let run := run_dialogue (recording post) encodable py_str initial_topic R F
               (State (w, []) store o [] out) in
  let sent := (st_world run.1).2 in
  Z.of_nat (length sent) = 2 * R + R / F + 1
  ∧ Forall (λ req,
              url req = base_url o +:+ "/v1/chat/completions"
              ∧ temperature (json_arg req) = default_temperature
              ∧ max_tokens (json_arg req) = default_max_tokens
              ∧ stream (json_arg req) = false
              ∧ headers req = [("Content-Type", "application/json")]) sent.
Proof.
  intros Hroles HR HF Hcan run sent.
  destruct (recording_run_total initial_topic R F (State (w, []) store o [] out)
              Hroles HR HF Hcan) as (new & Hsent & Hcount & Hall).
  cbn [st_world st_self snd app] in Hsent, Hall.
  subst sent run. rewrite Hsent. by split.
Qed.

(** X20. Whether a run returns or raises, the endpoint has received one
    request for each call the run made, in the order of the calls: the
    request names the model of the client registered under the call's
    role and its last message carries the call's prompt. *)
Theorem one_request_per_call (initial_topic : string)
    (rounds commentary_frequency : Z) (st : state (World * list request)) :
  let run := run_dialogue (recording post) encodable py_str initial_topic rounds
               commentary_frequency st in
  ∃ received made,
    (st_world run.1).2 = (st_world st).2 ++ received
    ∧ st_calls run.1 = st_calls st ++ made
    ∧ Forall2 (request_of_call st) received made.
Proof.
  intros run.
  destruct (recording_log post encodable py_str initial_topic rounds
              commentary_frequency st) as (new & cs & Hsent & Hlog & Htie & _).
  by exists new, cs.
Qed.


Lemma run_dialogue_models initial_topic rounds commentary_frequency
    (st : state World) :
  models (st_self (run_dialogue post encodable py_str initial_topic rounds
                     commentary_frequency st).1)
  = models (st_self st).
Proof.
  destruct (run_dialogue_any post encodable py_str initial_topic rounds
              commentary_frequency st)
    as (xs & fs & fc & cs & ts & _ & _ & _ & _ & _ & Hm & _).
  exact Hm.
Qed.

(** X14. The transcript is not reset between runs.  A second run on the
    same orchestrator (roles registered, frequencies not 0, on a console
    that can encode every text of both runs) returns too, and the
    transcript is then the first run's followed by the second's
    records, whose round numbers start again at 1. *)
Theorem consecutive_runs_accumulate (st : state World)
    (topic1 topic2 : string) (R1 F1 R2 F2 : Z) :
  roles_ok (st_self st) → F1 ≠ 0 → F2 ≠ 0 →
  let run1 := run_dialogue post encodable py_str topic1 R1 F1 st in
  let run2 := run_dialogue post encodable py_str topic2 R2 F2 run1.1 in
  can_print encodable post py_str topic1 R1 F1 st →
  can_print encodable post py_str topic2 R2 F2 run1.1 →
  run1.2 = inr () ∧ run2.2 = inr ()
  ∧ map (λ t, (round t, speaker t)) (dialogue_history (st_self run2.1))
    = map (λ t, (round t, speaker t)) (dialogue_history (st_self st))
      ++ flat_map (λ r, [(r + 1, "model_a"); (r + 1, "model_b")]) (seqZ 0 R1)
      ++ flat_map (λ r, [(r + 1, "model_a"); (r + 1, "model_b")]) (seqZ 0 R2).
Proof.
  intros Hroles HF1 HF2 run1 run2 Hcan1 Hcan2.
  pose proof (run_dialogue_models topic1 R1 F1 st) as Hmodels.
  destruct (run_dialogue_ok post py_str (λ _, True) (any_reply_good post) topic1
              R1 F1 st Hroles HF1)
    as (xs1 & fs1 & fc1 & st1 & Hxs1 & Heq1 & Hturns1 & _).
  subst run2 run1. rewrite (run_on_console _ _ _ _ _ _ _ Hcan1) in *.
  rewrite Heq1 in *. cbn [fst snd] in *.
  assert (roles_ok (st_self st1)) as Hroles1.
  { unfold roles_ok in *. by rewrite Hmodels. }
  destruct (run_dialogue_ok post py_str (λ _, True) (any_reply_good post) topic2
              R2 F2 st1 Hroles1 HF2)
    as (xs2 & fs2 & fc2 & st2 & Hxs2 & Heq2 & Hturns2 & _).
  rewrite (run_on_console _ _ _ _ _ _ _ Hcan2), Heq2. cbn [fst snd].
  split; [done|]. split; [done|].
  rewrite Hturns2, Hturns1, !map_app, <- app_assoc.
  rewrite (loop_turns_header (seqZ 0 R1)) by (by rewrite length_seqZ).
  by rewrite (loop_turns_header (seqZ 0 R2)) by (by rewrite length_seqZ).
Qed.

(** X15. On a console that can encode every text it prints, [main]
    returns, whatever the endpoint does.  It leaves a transcript of
    twelve records, model_a then model_b for each of the rounds 1 to 6;
    it calls the commentator in rounds 2, 4 and 6 and once at the end;
    and it sends sixteen requests, all to
    "http://10.226.10.31:1234/v1/chat/completions". *)
Theorem main_runs_six_rounds (w : World) :
  can_print encodable (recording post) py_str main_topic 6 2 (main_state (w, [])) →
  let run := main (recording post) encodable py_str (w, []) in
  let sent := (st_world run.1).2 in
  run.2 = inr ()
  ∧ map (λ t, (round t, speaker t)) (dialogue_history (st_self run.1))
    = [(1, "model_a"); (1, "model_b"); (2, "model_a"); (2, "model_b");
       (3, "model_a"); (3, "model_b"); (4, "model_a"); (4, "model_b");
       (5, "model_a"); (5, "model_b"); (6, "model_a"); (6, "model_b")]
  ∧ map call_round (calls_to "commentator" (st_calls run.1))
    = [Some 2; Some 4; Some 6; None]
  ∧ length sent = 16%nat
  ∧ Forall (λ req, url req = "http://10.226.10.31:1234/v1/chat/completions") sent.
Proof.
  intros Hcan run sent. subst run sent. unfold main.
  assert (roles_ok (st_self (main_state (w, @nil request)))) as Hroles
    by (repeat split; eexists; vm_compute; reflexivity).
  destruct (run_dialogue_ok (recording post) py_str (λ _, True) (any_reply_good _)
              main_topic 6 2 (main_state (w, @nil request)) Hroles ltac:(lia))
    as (xs & fs & fc & st' & Hxs & Heq & Hturns & Hcalls & _).
  destruct (recording_run_total main_topic 6 2 (main_state (w, @nil request)) Hroles
              ltac:(lia) ltac:(lia) Hcan)
    as (new & Hsent & Hcount & Hall).
  cbn [main_state st_world st_self snd app] in Hsent, Hall. rewrite Hsent.
  rewrite (run_on_console _ _ _ _ _ _ _ Hcan) in *. rewrite Heq in *.
  cbn [fst snd]. split; [done|]. split; [|split; [|split]].
  - rewrite Hturns. cbn [main_state st_self dialogue_history add_model
                         DialogueOrchestrator_init app].
    by rewrite loop_turns_header by (by rewrite length_seqZ).
  - rewrite Hcalls. cbn [main_state st_calls app].
    by rewrite calls_to_app, map_app, commentator_rounds by (done || lia).
  - change (6 / 2) with 3 in Hcount. lia.
  - eapply List.Forall_impl; [|exact Hall]. intros req (Hurl & _).
    rewrite Hurl. vm_compute. reflexivity.
Qed.
End Requests.
(** ** A missing commentator, and a client under two roles *)

Section LateFailure.
Context {World : Type}.
Variable post : World → request → (caught + response) * World.
Variable encodable : string → bool.
Variable py_str : json → string.

Lemma for_rounds_app (body : Z → json → M World json) (rs1 rs2 : list Z)
    (current_prompt : json) (st : state World) :
  for_rounds body (rs1 ++ rs2) current_prompt st
  = bind (for_rounds body rs1 current_prompt) (for_rounds body rs2) st.
Proof.
  revert current_prompt st.
  induction rs1 as [|r rs1 IH]; intros current_prompt st; [done|].
  cbn [app for_rounds]. unfold bind.
  destruct (body r current_prompt st) as [st' [e|next]]; [done|].
  rewrite IH. reflexivity.
Qed.

(** An iteration whose round the frequency does not divide needs no
    commentator. *)
Lemma round_body_quiet commentary_frequency round_num current_prompt
    (st : state World) :
  is_Some (models (st_self st) !! "model_a") →
  is_Some (models (st_self st) !! "model_b") →
  commentary_frequency ≠ 0 →
  (round_num + 1) mod commentary_frequency ≠ 0 →
  ∃ x st',
    round_body post any_text py_str commentary_frequency round_num
      current_prompt st
    = (st', inr (reply_b x))
    ∧ models (st_self st') = models (st_self st)
    ∧ dialogue_history (st_self st')
      = dialogue_history (st_self st) ++ round_turns round_num x.
Proof.
  intros Ha Hb HF Hquiet.
  destruct (primaries_ok post py_str (λ _, True) (any_reply_good post) round_num
              current_prompt st
              (λ response_a response_b,
                 m <~ py_mod (round_num + 1) commentary_frequency ;;
                 (if m =? 0
                  then commentary_block post any_text py_str round_num
                         response_a response_b
                  else ret ()) ;;;
                 ret response_b)%run Ha Hb)
    as (ra & rb & st1 & Heq & _ & Hmodels & Hturns & _).
  exists (RoundReplies ra rb JNull JNull), st1. split; [|done].
  etrans; [exact Heq|]. unfold py_mod, bind, ret.
  apply Z.eqb_neq in HF, Hquiet. by rewrite HF, Hquiet.
Qed.

(** The iteration that first needs the commentator, when there is none. *)
Lemma round_body_no_commentator commentary_frequency round_num current_prompt
    (st : state World) :
  is_Some (models (st_self st) !! "model_a") →
  is_Some (models (st_self st) !! "model_b") →
  models (st_self st) !! "commentator" = None →
  commentary_frequency ≠ 0 →
  (round_num + 1) mod commentary_frequency = 0 →
  ∃ x st',
    round_body post any_text py_str commentary_frequency round_num
      current_prompt st
    = (st', inl (KeyError "commentator"))
    ∧ dialogue_history (st_self st')
      = dialogue_history (st_self st) ++ round_turns round_num x.
Proof.
  intros Ha Hb Hc HF Htrigger.
  destruct (primaries_ok post py_str (λ _, True) (any_reply_good post) round_num
              current_prompt st
              (λ response_a response_b,
                 m <~ py_mod (round_num + 1) commentary_frequency ;;
                 (if m =? 0
                  then commentary_block post any_text py_str round_num
                         response_a response_b
                  else ret ()) ;;;
                 ret response_b)%run Ha Hb)
    as (ra & rb & st1 & Heq & _ & Hmodels & Hturns & _).
  exists (RoundReplies ra rb JNull JNull), st1. split; [|done].
  etrans; [exact Heq|]. unfold py_mod, bind, ret.
  apply Z.eqb_neq in HF. rewrite HF, Htrigger. cbn [Z.eqb].
  unfold commentary_block, bind. rewrite <- Hmodels in Hc.
  by rewrite (get_name_missing _ _ Hc).
Qed.

Lemma for_rounds_quiet commentary_frequency rs current_prompt (st : state World) :
  is_Some (models (st_self st) !! "model_a") →
  is_Some (models (st_self st) !! "model_b") →
  commentary_frequency ≠ 0 →
  Forall (λ r, (r + 1) mod commentary_frequency ≠ 0) rs →
  ∃ xs st' next,
    length xs = length rs
    ∧ for_rounds (round_body post any_text py_str commentary_frequency) rs
        current_prompt st
      = (st', inr next)
    ∧ models (st_self st') = models (st_self st)
    ∧ dialogue_history (st_self st')
      = dialogue_history (st_self st) ++ loop_turns rs xs.
Proof.
  intros Ha Hb HF Hquiet. revert current_prompt st Ha Hb.
  induction Hquiet as [|r rs Hr _ IH]; intros current_prompt st Ha Hb.
  { exists [], st, current_prompt. cbn. by rewrite app_nil_r. }
  destruct (round_body_quiet commentary_frequency r current_prompt st Ha Hb HF Hr)
    as (x & st1 & Heq & Hmodels & Hturns).
  rewrite <- Hmodels in Ha, Hb.
  destruct (IH (reply_b x) st1 Ha Hb)
    as (xs & st' & next & Hlen & Heq' & Hmodels' & Hturns').
  exists (x :: xs), st', next. cbn [for_rounds length loop_turns].
  unfold bind. rewrite Heq, Heq', Hturns', Hturns, Hmodels', Hmodels, <- app_assoc.
  by rewrite Hlen.
Qed.

(** X16. With model_a and model_b registered but no commentator, and a
    positive frequency [F], a run of [R] rounds, on a console that can
    encode every text it prints, raises [KeyError('commentator')] only
    when the commentator is first needed: in round [F], or after the
    loop when [R < F].  By then [min(R, F)] whole rounds of dialogue
    have been held and recorded. *)
Theorem missing_commentator_raises_late (initial_topic : string) (R F : Z)
    (st : state World) :
  is_Some (models (st_self st) !! "model_a") →
  is_Some (models (st_self st) !! "model_b") →
  models (st_self st) !! "commentator" = None →
  0 ≤ R → 0 < F →
  can_print encodable post py_str initial_topic R F st →
  let run := run_dialogue post encodable py_str initial_topic R F st in
  run.2 = inl (KeyError "commentator")
  ∧ ∃ added,
      dialogue_history (st_self run.1) = dialogue_history (st_self st) ++ added
      ∧ Z.of_nat (length added) = 2 * (R `min` F).
Proof.
  intros Ha Hb Hc HR HF Hcan run.
  assert (∃ st' added,
            run = (st', inl (KeyError "commentator"))
            ∧ dialogue_history (st_self st') = dialogue_history (st_self st) ++ added
            ∧ Z.of_nat (length added) = 2 * (R `min` F))
    as (st' & added & -> & Hturns & Hlen); [|by eauto].
  subst run. rewrite (run_on_console _ _ _ _ _ _ _ Hcan).
  unfold run_dialogue. printed. printed.
  match goal with
  | |- context [bind _ _ ?s] => set (st0 := s)
  end.
  change (dialogue_history (st_self st)) with (dialogue_history (st_self st0)).
  change (models (st_self st)) with (models (st_self st0)) in Ha, Hb, Hc.
  clearbody st0.
  destruct (decide (R < F)) as [Hlt|Hge].
  - assert (Forall (λ r, (r + 1) mod F ≠ 0) (seqZ 0 R)) as Hquiet.
    { apply List.Forall_forall. intros r Hr.
      apply list_elem_of_In, elem_of_seqZ in Hr.
      rewrite Z.mod_small by lia. lia. }
    destruct (for_rounds_quiet F (seqZ 0 R) (JStr initial_topic) st0 Ha Hb
                ltac:(lia) Hquiet)
      as (xs & st' & next & Hlen & Heq & Hmodels & Hturns).
    unfold bind. rewrite Heq. unfold final_commentary_block, bind.
    rewrite <- Hmodels in Hc. rewrite (get_name_missing _ _ Hc).
    exists st', (loop_turns (seqZ 0 R) xs). split; [done|].
    split; [done|]. rewrite length_loop_turns by done.
    rewrite length_seqZ. lia.
  - assert (seqZ 0 R
            = seqZ 0 (F - 1)
              ++ (0 + (F - 1)) :: seqZ (Z.succ (0 + (F - 1))) (Z.pred (R - F + 1)))
      as ->.
    { rewrite <- seqZ_cons, <- seqZ_app by lia. f_equal. lia. }
    assert (Forall (λ r, (r + 1) mod F ≠ 0) (seqZ 0 (F - 1))) as Hquiet.
    { apply List.Forall_forall. intros r Hr.
      apply list_elem_of_In, elem_of_seqZ in Hr.
      rewrite Z.mod_small by lia. lia. }
    destruct (for_rounds_quiet F (seqZ 0 (F - 1)) (JStr initial_topic) st0 Ha Hb
                ltac:(lia) Hquiet)
      as (xs & st1 & next & Hlen & Heq & Hmodels & Hturns).
    unfold bind at 1. rewrite for_rounds_app. unfold bind at 1. rewrite Heq.
    cbn [for_rounds]. unfold bind at 1.
    rewrite <- Hmodels in Ha, Hb, Hc.
    destruct (round_body_no_commentator F (0 + (F - 1)) next st1 Ha Hb Hc
                ltac:(lia)) as (x & st2 & Heq2 & Hturns2).
    { replace (0 + (F - 1) + 1) with F by lia. apply Z_mod_same_full. }
    rewrite Heq2.
    exists st2, (loop_turns (seqZ 0 (F - 1)) xs ++ round_turns (0 + (F - 1)) x).
    split; [done|].
    rewrite Hturns2, Hturns, <- app_assoc. split; [done|].
    rewrite length_app, length_loop_turns by done.
    rewrite length_seqZ. cbn [round_turns length]. lia.
Qed.

(** X17. One client registered as both model_a and model_b talks to
    itself: through a round without commentary, on a console that can
    encode what is printed up to the second call, it is left, and the
    endpoint with it, as after two calls in a row on that one client,
    the first with the round's prompt and the second with the reply to
    the first. *)
Theorem shared_primary_client (commentary_frequency round_num : Z)
    (current_prompt : json) (st : state World) (l : loc) :
  models (st_self st) !! "model_a" = Some l →
  models (st_self st) !! "model_b" = Some l →
  commentary_frequency ≠ 0 →
  (round_num + 1) mod commentary_frequency ≠ 0 →
  let u := base_url (st_self st) in
  let first := CallArgs current_prompt u default_temperature default_max_tokens in
  let response_a := (generate_response_with post (st_world st) (st_store st l) first).1.1 in
  let second := CallArgs response_a u default_temperature default_max_tokens in
  forallb encodable
    [round_line (round_num + 1); times "-" 40;
     speaker_line (name (st_store st l)); reply_line py_str response_a] = true →
  let run := round_body post encodable py_str commentary_frequency round_num
               current_prompt st in
  (st_store run.1 l, st_world run.1)
  = converse post (st_world st) (st_store st l) [first; second].
Proof.
  intros Ha Hb HF Hquiet u first response_a second Htexts run.
  split_texts Htexts.
  set (ga := generate_response post (st_world st) (st_store st l) current_prompt
               u default_temperature default_max_tokens).
  set (gb := generate_response post ga.2 ga.1.2 ga.1.1 u default_temperature
               default_max_tokens).
  assert (name ga.1.2 = name (st_store st l)) as Hname.
  { exact (proj1 (generate_response_identity post (st_world st) (st_store st l)
                     current_prompt u default_temperature default_max_tokens)). }
  assert (st_store run.1 l = gb.1.2 ∧ st_world run.1 = gb.2) as [Hstore Hworld].
  { subst run.
    isolate (round_body post encodable py_str commentary_frequency round_num
               current_prompt st).
    unfold round_body. shown. shown.
    unfold bind at 1. erewrite get_name_ok; [|exact Ha]. simpl_state. shown.
    unfold bind at 1. erewrite call_generate_response_ok; [|exact Ha].
    cbv zeta. simpl_state. fold u. fold ga.
    unfold bind at 1. rewrite print_ok by exact Htext2. simpl_state.
    unfold bind at 1. simpl_state.
    unfold bind at 1. erewrite get_name_ok; [|exact Hb]. simpl_state.
    rewrite fn_lookup_insert, Hname. shown.
    unfold bind at 1. erewrite call_generate_response_ok; [|exact Hb].
    cbv zeta. simpl_state. rewrite fn_lookup_insert. fold u. fold gb.
    step_print; [|subst Q; cbn [fst st_store st_world];
                  by rewrite fn_lookup_insert].
    unfold bind at 1. simpl_state.
    unfold py_mod, bind, ret. apply Z.eqb_neq in HF, Hquiet. rewrite HF, Hquiet.
    subst Q. cbn [fst st_store st_world]. by rewrite fn_lookup_insert. }
  rewrite Hstore, Hworld.
  subst gb second response_a first. unfold converse, generate_response_with.
  cbn [arg_prompt arg_base_url arg_temperature arg_max_tokens]. fold ga.
  destruct ga as [[ra self1] w1]. cbn [fst snd].
  by destruct (generate_response post w1 self1 ra u default_temperature
                 default_max_tokens) as [[rb self2] w2].
Qed.

(** X21. A reply of model_a that the console cannot encode, in a round
    whose headings it can: the call has been made and has left its
    trace in the client's memory and at the endpoint, [print] raises
    [UnicodeEncodeError], and the record of the reply is not appended:
    the transcript is as it was before the round. *)
Theorem unencodable_reply_is_not_recorded (commentary_frequency round_num : Z)
    (current_prompt : json) (st : state World) (a : loc) :
  models (st_self st) !! "model_a" = Some a →
  let g := generate_response post (st_world st) (st_store st a) current_prompt
             (base_url (st_self st)) default_temperature default_max_tokens in
  forallb encodable
    [round_line (round_num + 1); times "-" 40;
     speaker_line (name (st_store st a))] = true →
  encodable (reply_line py_str g.1.1) = false →
  let run := round_body post encodable py_str commentary_frequency round_num
               current_prompt st in
  run.2 = inl (UnicodeEncodeError (reply_line py_str g.1.1))
  ∧ st_self run.1 = st_self st
  ∧ st_calls run.1
    = st_calls st ++ [Call "model_a" (Some (round_num + 1)) current_prompt g.1.1]
  ∧ st_store run.1 a = g.1.2
  ∧ st_world run.1 = g.2.
Proof.
  intros Ha g Htexts Hreply run. split_texts Htexts. subst run.
  isolate (round_body post encodable py_str commentary_frequency round_num
             current_prompt st).
  unfold round_body. shown. shown.
  unfold bind at 1. erewrite get_name_ok; [|exact Ha]. simpl_state. shown.
  unfold bind at 1. erewrite call_generate_response_ok; [|exact Ha].
  cbv zeta. simpl_state. fold g.
  unfold bind at 1. rewrite print_refused by exact Hreply.
  subst Q. cbn [fst snd st_self st_calls st_store st_world].
  by rewrite fn_lookup_insert.
Qed.
End LateFailure.
(** ** Concrete instances of the further properties *)

Lemma successful_call_updates_memory_witness :
  let self := three_clients 2%nat in
  let out := generate_response echo_post () self (JStr "hi") "u"
               default_temperature 500 in
  completion_content
    (echo_post () (build_request self (JStr "hi") "u" default_temperature 500)).1
  = Some (JStr "reply to: hi")
  ∧ out.1.1 = JStr "reply to: hi"
  ∧ (length (conversation_history out.1.2) ≤ 20)%nat.
Proof.
  intros self out.
  assert (completion_content
            (echo_post ()
               (build_request self (JStr "hi") "u" default_temperature 500)).1
          = Some (JStr "reply to: hi")) as H by (vm_compute; reflexivity).
  pose proof (successful_call_updates_memory echo_post () self (JStr "hi") "u"
                default_temperature 500 (JStr "reply to: hi") H) as Hs.
  cbv zeta in Hs. destruct Hs as (Hreply & _ & Hlen & _).
  split; [exact H|]. split; [exact Hreply|exact Hlen].
Defined.

Lemma missing_model_a_raises_at_once_witness :
  let st := State () three_clients (DialogueOrchestrator_init "u") [] [] in
  let run := run_dialogue echo_post strict_utf8 py_str_none "T" 3 2 st in
  models (st_self st) !! "model_a" = None ∧ 1 ≤ 3
  ∧ forallb strict_utf8 [start_line "T"; times "=" 60; round_line 1; times "-" 40]
    = true
  ∧ run.2 = inl (KeyError "model_a")
  ∧ st_calls run.1 = [].
Proof.
  intros st run.
  assert (models (st_self st) !! "model_a" = None) as H1 by (vm_compute; reflexivity).
  assert (1 ≤ 3) as H2 by lia.
  assert (forallb strict_utf8
            [start_line "T"; times "=" 60; round_line 1; times "-" 40] = true)
    as H3 by (vm_compute; reflexivity).
  pose proof (missing_model_a_raises_at_once echo_post strict_utf8 py_str_none
                "T" 3 2 st H1 H2) as H.
  cbv zeta in H. destruct H as (_ & _ & _ & Hcalls & Hkey & _).
  split; [exact H1|]. split; [exact H2|]. split; [exact H3|].
  split; [exact (proj1 (Hkey H3))|exact Hcalls].
Defined.

Lemma missing_model_b_raises_after_model_a_witness :
  let st := State () three_clients only_model_a [] [] in
  let run := run_dialogue echo_post strict_utf8 py_str_none "T" 3 2 st in
  models (st_self st) !! "model_a" = Some 0%nat
  ∧ models (st_self st) !! "model_b" = None ∧ 1 ≤ 3
  ∧ run.2 = inl (KeyError "model_b")
  ∧ length (dialogue_history (st_self run.1)) = 1%nat.
Proof.
  intros st run.
  assert (models (st_self st) !! "model_a" = Some 0%nat) as H1
    by (vm_compute; reflexivity).
  assert (models (st_self st) !! "model_b" = None) as H2 by (vm_compute; reflexivity).
  assert (1 ≤ 3) as H3 by lia.
  pose proof (missing_model_b_raises_after_model_a echo_post strict_utf8
                py_str_none "T" 3 2 st 0%nat H1 H2 H3) as H.
  cbv zeta in H.
  assert (forallb strict_utf8
            [start_line "T"; times "=" 60; round_line 1; times "-" 40;
             speaker_line (name (st_store st 0%nat));
             reply_line py_str_none
               (generate_response echo_post (st_world st) (st_store st 0%nat)
                  (JStr "T") (base_url (st_self st)) default_temperature
                  default_max_tokens).1.1] = true) as H4
    by (vm_compute; reflexivity).
  destruct (H H4) as (Hret & Hturns & _).
  split; [exact H1|]. split; [exact H2|]. split; [exact H3|].
  split; [exact Hret|]. subst run. rewrite Hturns. reflexivity.
Defined.

Lemma no_rounds_only_final_commentary_witness :
  let st := State () three_clients three_roles [] [] in
  let run := run_dialogue echo_post strict_utf8 py_str_none "T" 0 0 st in
  models (st_self st) !! "model_a" = Some 0%nat
  ∧ models (st_self st) !! "model_b" = Some 1%nat
  ∧ models (st_self st) !! "commentator" = Some 2%nat
  ∧ 0 ≤ 0
  ∧ can_print strict_utf8 echo_post py_str_none "T" 0 0 st
  ∧ run.2 = inr () ∧ st_self run.1 = st_self st.
Proof.
  intros st run.
  assert (models (st_self st) !! "model_a" = Some 0%nat) as H1
    by (vm_compute; reflexivity).
  assert (models (st_self st) !! "model_b" = Some 1%nat) as H2
    by (vm_compute; reflexivity).
  assert (models (st_self st) !! "commentator" = Some 2%nat) as H3
    by (vm_compute; reflexivity).
  assert (0 ≤ 0) as H4 by lia.
  assert (can_print strict_utf8 echo_post py_str_none "T" 0 0 st) as H5
    by (vm_compute; reflexivity).
  pose proof (no_rounds_only_final_commentary echo_post strict_utf8 py_str_none
                "T" 0 0 st 0%nat 1%nat 2%nat H1 H2 H3 H4 H5) as H.
  cbv zeta in H. destruct H as (Hret & Hself & _).
  split; [exact H1|]. split; [exact H2|]. split; [exact H3|].
  split; [exact H4|]. split; [exact H5|]. split; [exact Hret|exact Hself].
Defined.

Lemma requests_of_a_run_witness :
  let st := State ((), []) three_clients three_roles [] [] in
  let run := run_dialogue (recording echo_post) strict_utf8 py_str_none "T" 3 2 st in
  roles_ok three_roles ∧ 0 ≤ 3 ∧ 0 < 2
  ∧ can_print strict_utf8 (recording echo_post) py_str_none "T" 3 2 st
  ∧ Z.of_nat (length (st_world run.1).2) = 2 * 3 + 3 / 2 + 1.
Proof.
  intros st run.
  assert (roles_ok three_roles) as H1
    by (repeat split; eexists; vm_compute; reflexivity).
  assert (0 ≤ 3) as H2 by lia.
  assert (0 < 2) as H3 by lia.
  assert (can_print strict_utf8 (recording echo_post) py_str_none "T" 3 2 st) as H4
    by (vm_compute; reflexivity).
  pose proof (requests_of_a_run echo_post strict_utf8 py_str_none ()
                three_clients three_roles [] "T" 3 2 H1 H2 H3 H4) as H.
  cbv zeta in H. destruct H as (Hcount & _).
  split; [exact H1|]. split; [exact H2|]. split; [exact H3|].
  split; [exact H4|exact Hcount].
Defined.

Lemma consecutive_runs_accumulate_witness :
  let st := State () three_clients three_roles [] [] in
  let run1 := run_dialogue echo_post strict_utf8 py_str_none "T" 1 2 st in
  let run2 := run_dialogue echo_post strict_utf8 py_str_none "U" 2 1 run1.1 in
  roles_ok (st_self st) ∧ 2 ≠ 0 ∧ 1 ≠ 0
  ∧ can_print strict_utf8 echo_post py_str_none "T" 1 2 st
  ∧ can_print strict_utf8 echo_post py_str_none "U" 2 1 run1.1
  ∧ run2.2 = inr ()
  ∧ map (λ t, (round t, speaker t)) (dialogue_history (st_self run2.1))
    = [(1, "model_a"); (1, "model_b");
       (1, "model_a"); (1, "model_b"); (2, "model_a"); (2, "model_b")].
Proof.
  intros st run1 run2.
  assert (roles_ok (st_self st)) as H1
    by (repeat split; eexists; vm_compute; reflexivity).
  assert (2 ≠ 0) as H2 by lia.
  assert (1 ≠ 0) as H3 by lia.
  assert (can_print strict_utf8 echo_post py_str_none "T" 1 2 st) as H4
    by (vm_compute; reflexivity).
  assert (can_print strict_utf8 echo_post py_str_none "U" 2 1 run1.1) as H5
    by (vm_compute; reflexivity).
  pose proof (consecutive_runs_accumulate echo_post strict_utf8 py_str_none st
                "T" "U" 1 2 2 1 H1 H2 H3 H4 H5) as H.
  cbv zeta in H. destruct H as (_ & Hret & Hturns).
  split; [exact H1|]. split; [exact H2|]. split; [exact H3|].
  split; [exact H4|]. split; [exact H5|].
  split; [exact Hret|exact Hturns].
Defined.

Lemma main_runs_six_rounds_witness :
  let run := main (recording echo_post) strict_utf8 py_str_none ((), []) in
  can_print strict_utf8 (recording echo_post) py_str_none main_topic 6 2
    (main_state ((), []))
  ∧ run.2 = inr ()
  ∧ length (st_world run.1).2 = 16%nat.
Proof.
  intros run.
  assert (can_print strict_utf8 (recording echo_post) py_str_none main_topic 6 2
            (main_state ((), []))) as H1 by (vm_compute; reflexivity).
  pose proof (main_runs_six_rounds echo_post strict_utf8 py_str_none () H1) as H.
  cbv zeta in H. destruct H as (Hret & _ & _ & Hsent & _).
  split; [exact H1|]. split; [exact Hret|exact Hsent].
Defined.

Lemma missing_commentator_raises_late_witness :
  let st := State () three_clients two_roles [] [] in
  let run := run_dialogue echo_post strict_utf8 py_str_none "T" 5 2 st in
  is_Some (models (st_self st) !! "model_a")
  ∧ is_Some (models (st_self st) !! "model_b")
  ∧ models (st_self st) !! "commentator" = None
  ∧ 0 ≤ 5 ∧ 0 < 2
  ∧ can_print strict_utf8 echo_post py_str_none "T" 5 2 st
  ∧ run.2 = inl (KeyError "commentator")
  ∧ ∃ added,
      dialogue_history (st_self run.1) = dialogue_history (st_self st) ++ added
      ∧ Z.of_nat (length added) = 2 * (5 `min` 2).
Proof.
  intros st run.
  assert (is_Some (models (st_self st) !! "model_a")) as H1
    by (eexists; vm_compute; reflexivity).
  assert (is_Some (models (st_self st) !! "model_b")) as H2
    by (eexists; vm_compute; reflexivity).
  assert (models (st_self st) !! "commentator" = None) as H3
    by (vm_compute; reflexivity).
  assert (0 ≤ 5) as H4 by lia.
  assert (0 < 2) as H5 by lia.
  assert (can_print strict_utf8 echo_post py_str_none "T" 5 2 st) as H6
    by (vm_compute; reflexivity).
  split; [exact H1|]. split; [exact H2|]. split; [exact H3|].
  split; [exact H4|]. split; [exact H5|]. split; [exact H6|].
  exact (missing_commentator_raises_late echo_post strict_utf8 py_str_none "T" 5 2
           st H1 H2 H3 H4 H5 H6).
Defined.

Lemma shared_primary_client_witness :
  let st := State () three_clients self_talk [] [] in
  let run := round_body echo_post strict_utf8 py_str_none 2 0 (JStr "T") st in
  models (st_self st) !! "model_a" = Some 0%nat
  ∧ models (st_self st) !! "model_b" = Some 0%nat
  ∧ 2 ≠ 0 ∧ (0 + 1) mod 2 ≠ 0
  ∧ map content (conversation_history (st_store run.1 0%nat))
    = [JStr "T"; JStr "reply to: T";
       JStr "reply to: T"; JStr "reply to: reply to: T"].
Proof.
  intros st run.
  assert (models (st_self st) !! "model_a" = Some 0%nat) as H1
    by (vm_compute; reflexivity).
  assert (models (st_self st) !! "model_b" = Some 0%nat) as H2
    by (vm_compute; reflexivity).
  assert (2 ≠ 0) as H3 by lia.
  assert ((0 + 1) mod 2 ≠ 0) as H4 by (vm_compute; discriminate).
  pose proof (shared_primary_client echo_post strict_utf8 py_str_none 2 0
                (JStr "T") st 0%nat H1 H2 H3 H4) as H.
  cbv zeta in H.
  assert (forallb strict_utf8
            [round_line (0 + 1); times "-" 40;
             speaker_line (name (st_store st 0%nat));
             reply_line py_str_none
               (generate_response_with echo_post (st_world st) (st_store st 0%nat)
                  (CallArgs (JStr "T") (base_url (st_self st)) default_temperature
                     default_max_tokens)).1.1] = true) as H5
    by (vm_compute; reflexivity).
  specialize (H H5).
  split; [exact H1|]. split; [exact H2|]. split; [exact H3|]. split; [exact H4|].
  subst run. apply (f_equal fst) in H. cbn [fst] in H. rewrite H.
  vm_compute. reflexivity.
Defined.

Lemma unencodable_reply_is_not_recorded_witness :
  let st := State () three_clients three_roles [] [] in
  let run := round_body surrogate_post strict_utf8 py_str_none 1 0 (JStr "T") st in
  models (st_self st) !! "model_a" = Some 0%nat
  ∧ strict_utf8 (reply_line py_str_none (JStr lone_surrogate)) = false
  ∧ run.2 = inl (UnicodeEncodeError (lone_surrogate +:+ newline))
  ∧ dialogue_history (st_self run.1) = []
  ∧ length (st_calls run.1) = 1%nat.
Proof.
  intros st run.
  assert (models (st_self st) !! "model_a" = Some 0%nat) as H1
    by (vm_compute; reflexivity).
  assert (strict_utf8 (reply_line py_str_none (JStr lone_surrogate)) = false) as H2
    by (vm_compute; reflexivity).
  assert (forallb strict_utf8
            [round_line (0 + 1); times "-" 40;
             speaker_line (name (st_store st 0%nat))] = true) as H3
    by (vm_compute; reflexivity).
  pose proof (unencodable_reply_is_not_recorded surrogate_post strict_utf8
                py_str_none 1 0 (JStr "T") st 0%nat H1 H3 H2) as H.
  cbv zeta in H. destruct H as (Hret & Hself & Hcalls & _).
  split; [exact H1|]. split; [exact H2|]. split; [exact Hret|].
  subst run. rewrite Hself, Hcalls. split; reflexivity.
Defined.
